(** * Stake tracker API (server.js): pricing, USD normalisation, ingestion
      and account summary

    A shallow embedding of the request handlers and pricing helpers of
    [server.js].  JavaScript values are an inductive type, numbers are
    IEEE 754 binary64 values ([spec_float] with precision 53 and maximal
    exponent 1024), the price cache is a finite map, the two Mongo
    collections are lists of documents in insertion order, and code that
    can throw returns an [outcome].  An update goes through the casts of
    its schema (String and Number paths) before it reaches the store,
    and a cast that is refused ends the request as the handler's [catch]
    does. *)

From Stdlib Require Import ZArith String Ascii List Bool Lia DecimalString.
From Stdlib Require Import Floats.SpecFloat.
From stdpp Require Import base option list gmap strings.
Import ListNotations.

Set Warnings "-register-all".
Local Open Scope string_scope.
Local Open Scope Z_scope.

(** ** Numbers *)

Module Num.

(** A JavaScript Number. *)
Definition number : Type := spec_float.

Definition prec : Z := 53.
Definition emax : Z := 1024.

(** The Number nearest to an integer (exact below 2^53). *)
Definition of_Z (z : Z) : number := binary_normalize prec emax z 0 false.

Definition nan : number := S754_nan.
Definition zero : number := S754_zero false.

Definition mul : number -> number -> number := SFmul prec emax.
Definition add : number -> number -> number := SFadd prec emax.
Definition sub : number -> number -> number := SFsub prec emax.
Definition div : number -> number -> number := SFdiv prec emax.

(** [a < b] and [a === b] on Numbers. *)
Definition ltb : number -> number -> bool := SFltb.
Definition leb : number -> number -> bool := SFleb.
Definition eqb : number -> number -> bool := SFeqb.

Definition is_nan (x : number) : bool :=
  match x with S754_nan => true | _ => false end.

Definition is_pzero (x : number) : bool :=
  match x with S754_zero false => true | _ => false end.

Definition is_nzero (x : number) : bool :=
  match x with S754_zero true => true | _ => false end.

(** ToBoolean on a Number: [0], [-0] and [NaN] are falsy. *)
Definition truthy (x : number) : bool :=
  match x with S754_zero _ | S754_nan => false | _ => true end.

(** [Math.max(a, b)]: NaN if either argument is, else the larger one,
    with [+0] above [-0]. *)
Definition Math_max (a b : number) : number :=
  if is_nan a || is_nan b then nan
  else if (is_pzero b && is_nzero a) || ltb a b then b else a.

(** [Math.min(a, b)]: NaN if either argument is, else the smaller one,
    with [-0] below [+0]. *)
Definition Math_min (a b : number) : number :=
  if is_nan a || is_nan b then nan
  else if (is_nzero b && is_pzero a) || ltb b a then b else a.

(** [Math.round(x)]: the integer nearest to [x], ties towards
    [+Infinity]; the sign of a zero result is the sign of [x].
    A finite [x] is [(-1)^s * m * 2^e]; for [e < 0] the result is
    [floor (x + 1/2)], computed on integers. *)
Definition Math_round (x : number) : number :=
  match x with
  | S754_finite s m e =>
      if 0 <=? e then x
      else
        let d := 2 ^ (- e) in
        let v := cond_Zopp s (Zpos m) in
        let n := (2 * v + d) / (2 * d) in
        if n =? 0 then S754_zero s else of_Z n
  | _ => x
  end.

(** Structural equality of the representations. *)
Definition same (a b : number) : bool :=
  match a, b with
  | S754_zero s1, S754_zero s2 => Bool.eqb s1 s2
  | S754_infinity s1, S754_infinity s2 => Bool.eqb s1 s2
  | S754_nan, S754_nan => true
  | S754_finite s1 m1 e1, S754_finite s2 m2 e2 =>
      Bool.eqb s1 s2 && (m1 =? m2)%positive && (e1 =? e2)
  | _, _ => false
  end.

End Num.

Abbreviation number := Num.number.

(** ** Strings *)

Definition lower_ascii (c : ascii) : ascii :=
  let n := nat_of_ascii c in
  if (Nat.leb 65 n && Nat.leb n 90)%bool then ascii_of_nat (n + 32) else c.

(** [s.toLowerCase()] on ASCII text. *)
Fixpoint toLowerCase (s : string) : string :=
  match s with
  | EmptyString => EmptyString
  | String c r => String (lower_ascii c) (toLowerCase r)
  end.

Fixpoint join (sep : string) (l : list string) : string :=
  match l with
  | [] => ""
  | [x] => x
  | x :: r => x ++ sep ++ join sep r
  end.

(** ** Values and objects *)

(** JavaScript data: what [JSON.parse], a Mongo document or a query
    string can hold, plus [undefined].  An object is the list of its own
    properties in insertion order; a key is looked up at its first
    binding.  Dates are kept as their time value in milliseconds. *)
Inductive value : Type :=
| VUndef
| VNull
| VBool (b : bool)
| VNum (n : number)
| VStr (s : string)
| VArr (l : list value)
| VObj (o : list (string * value)).

Abbreviation obj := (list (string * value)).

Section ValueInduction.
Variable P : value -> Prop.
Hypothesis Hundef : P VUndef.
Hypothesis Hnull : P VNull.
Hypothesis Hbool : forall b, P (VBool b).
Hypothesis Hnum : forall n, P (VNum n).
Hypothesis Hstr : forall s, P (VStr s).
Hypothesis Harr : forall l, Forall P l -> P (VArr l).
Hypothesis Hobj : forall o, Forall (fun kv => P (snd kv)) o -> P (VObj o).

Fixpoint value_nested_ind (v : value) : P v :=
  match v with
  | VUndef => Hundef
  | VNull => Hnull
  | VBool b => Hbool b
  | VNum n => Hnum n
  | VStr s => Hstr s
  | VArr l =>
      Harr l ((fix go (l : list value) : Forall P l :=
                 match l with
                 | [] => @List.Forall_nil _ P
                 | x :: r => @List.Forall_cons _ P x r (value_nested_ind x) (go r)
                 end) l)
  | VObj o =>
      Hobj o ((fix go (o : obj) : Forall (fun kv => P (snd kv)) o :=
                 match o with
                 | [] => @List.Forall_nil _ _
                 | kv :: r =>
                     @List.Forall_cons _ (fun kv => P (snd kv)) kv r
                       (value_nested_ind (snd kv)) (go r)
                 end) o)
  end.
End ValueInduction.

(** Equality of two values, as the store compares a key with a filter. *)
Fixpoint value_eqb (a b : value) : bool :=
  match a, b with
  | VUndef, VUndef => true
  | VNull, VNull => true
  | VBool x, VBool y => Bool.eqb x y
  | VNum x, VNum y => Num.same x y
  | VStr x, VStr y => String.eqb x y
  | VArr x, VArr y =>
      (fix go (x y : list value) : bool :=
         match x, y with
         | [], [] => true
         | a :: x', b :: y' => value_eqb a b && go x' y'
         | _, _ => false
         end) x y
  | VObj x, VObj y =>
      (fix go (x y : obj) : bool :=
         match x, y with
         | [], [] => true
         | (k, a) :: x', (l, b) :: y' =>
             String.eqb k l && value_eqb a b && go x' y'
         | _, _ => false
         end) x y
  | _, _ => false
  end.

(** ToBoolean. *)
Definition truthy (v : value) : bool :=
  match v with
  | VUndef | VNull => false
  | VBool b => b
  | VNum n => Num.truthy n
  | VStr s => negb (String.eqb s "")
  | VArr _ | VObj _ => true
  end.

Definition nullish (v : value) : bool :=
  match v with VUndef | VNull => true | _ => false end.

(** [typeof v === "number"]. *)
Definition is_number (v : value) : bool :=
  match v with VNum _ => true | _ => false end.

(** [a || b] and [a ?? b]. *)
Definition js_or (a b : value) : value := if truthy a then a else b.
Definition js_coalesce (a b : value) : value := if nullish a then b else a.

(** [v === 0] for a Number literal [k]: false unless [v] is a Number. *)
Definition strict_eq_num (v : value) (k : number) : bool :=
  match v with VNum n => Num.eqb n k | _ => false end.

(** Own-property lookup [o[k]]. *)
Fixpoint get (o : obj) (k : string) : value :=
  match o with
  | [] => VUndef
  | (k', v) :: r => if String.eqb k' k then v else get r k
  end.

(** Assignment [o[k] = v]: in place when [k] is bound, else appended. *)
Fixpoint set (o : obj) (k : string) (v : value) : obj :=
  match o with
  | [] => [(k, v)]
  | (k', v') :: r =>
      if String.eqb k' k then (k, v) :: r else (k', v') :: set r k v
  end.

(** Member access [v?.k].  The names this program reads ([id], [user],
    [preview], [usd], the CoinGecko ids, the fields of the schemas and of
    the aggregation result) are properties of no primitive, array or
    prototype, so only an object's own binding can answer; on a receiver
    that is neither [null] nor [undefined] this is also [v.k]. *)
Definition get_prop (v : value) (k : string) : value :=
  match v with
  | VObj o => get o k
  | _ => VUndef
  end.

(** Decimal index keys ["0"], ["1"], ... of a spread array or string. *)
Definition index_key (i : nat) : string :=
  NilEmpty.string_of_uint (Nat.to_uint i).

Fixpoint indexed {A} (f : A -> value) (i : nat) (l : list A) : obj :=
  match l with
  | [] => []
  | x :: r => (index_key i, f x) :: indexed f (S i) r
  end.

(** The own enumerable properties copied by [{ ...v }]. *)
Definition spread (v : value) : obj :=
  match v with
  | VObj o => o
  | VArr l => indexed (fun x => x) 0 l
  | VStr s => indexed (fun c => VStr (String c "")) 0 (list_ascii_of_string s)
  | _ => []
  end.

(** ** Exceptions *)

Inductive outcome (A : Type) : Type :=
| Returned (a : A)
| Thrown (msg : string).

Arguments Returned {A} a.
Arguments Thrown {A} msg.

Definition bind {A B} (m : outcome A) (f : A -> outcome B) : outcome B :=
  match m with
  | Returned a => f a
  | Thrown e => Thrown e
  end.

Notation "x <- m ;; k" := (bind m (fun x => k))
  (at level 100, m at next level, right associativity).

(** [v?.toLowerCase()]: skipped on [null]/[undefined], a TypeError on any
    other value that is not a string. *)
Definition opt_toLowerCase (v : value) : outcome value :=
  match v with
  | VUndef | VNull => Returned VUndef
  | VStr s => Returned (VStr (toLowerCase s))
  | _ => Thrown "TypeError: toLowerCase is not a function"
  end.

(** [v.toLowerCase()]: a TypeError unless [v] is a string. *)
Definition call_toLowerCase (v : value) : outcome value :=
  match v with
  | VStr s => Returned (VStr (toLowerCase s))
  | _ => Thrown "TypeError: toLowerCase is not a function"
  end.

(** ** Built-in conversions

    [StringToNumber] (the numeric value of a string literal, as
    [Number("1.5")]) and [NumberToString] ([String(1.5)]) are the
    language's own; the development is parametric in them. *)
Record Builtins : Type := {
  StringToNumber : string -> number;
  NumberToString : number -> string
}.

Section Conversions.
Context (B : Builtins).

(** [String(v)]; an array joins its elements with commas, and an object
    goes through the inherited [Object.prototype.toString] (data that
    binds [toString] or [valueOf] itself is outside the model). *)
Fixpoint ToString (v : value) : string :=
  match v with
  | VUndef => "undefined"
  | VNull => "null"
  | VBool true => "true"
  | VBool false => "false"
  | VNum n => NumberToString B n
  | VStr s => s
  | VArr l =>
      join ","
        (List.map (fun e => match e with
                            | VUndef | VNull => ""
                            | _ => ToString e
                            end) l)
  | VObj _ => "[object Object]"
  end.

(** [Number(v)]. *)
Definition ToNumber (v : value) : number :=
  match v with
  | VUndef => Num.nan
  | VNull => Num.zero
  | VBool true => Num.of_Z 1
  | VBool false => Num.zero
  | VNum n => n
  | VStr s => StringToNumber B s
  | VArr _ | VObj _ => StringToNumber B (ToString v)
  end.

End Conversions.

(** ** Pricing (CoinGecko) *)

(** The own properties of the [COINGECKO_IDS] object literal. *)
Definition COINGECKO_IDS : list (string * string) :=
  [ ("ltc", "litecoin");
    ("btc", "bitcoin");
    ("eth", "ethereum");
    ("doge", "dogecoin");
    ("bch", "bitcoin-cash");
    ("xrp", "ripple");
    ("usdt", "tether");
    ("usdc", "usd-coin") ].

(** What the object literal inherits: the members of [Object.prototype],
    each with its conversion to a string (all of them are truthy, and the
    code only tests the looked-up value and converts it to a string). *)
Definition Object_prototype : list (string * string) :=
  [ ("constructor", "function Object() { [native code] }");
    ("__defineGetter__", "function __defineGetter__() { [native code] }");
    ("__defineSetter__", "function __defineSetter__() { [native code] }");
    ("hasOwnProperty", "function hasOwnProperty() { [native code] }");
    ("__lookupGetter__", "function __lookupGetter__() { [native code] }");
    ("__lookupSetter__", "function __lookupSetter__() { [native code] }");
    ("isPrototypeOf", "function isPrototypeOf() { [native code] }");
    ("propertyIsEnumerable",
     "function propertyIsEnumerable() { [native code] }");
    ("toString", "function toString() { [native code] }");
    ("valueOf", "function valueOf() { [native code] }");
    ("__proto__", "[object Object]");
    ("toLocaleString", "function toLocaleString() { [native code] }") ].

Fixpoint assoc (l : list (string * string)) (k : string) : option string :=
  match l with
  | [] => None
  | (k', v) :: r => if String.eqb k' k then Some v else assoc r k
  end.

(** [COINGECKO_IDS[sym]], as its string conversion; [None] is
    [undefined].  An own property answers first, then the prototype. *)
Definition COINGECKO_IDS_at (sym : string) : option string :=
  match assoc COINGECKO_IDS sym with
  | Some id => Some id
  | None => assoc Object_prototype sym
  end.

(** The symbols of the supported mapping. *)
Definition supported (sym : string) : bool :=
  match assoc COINGECKO_IDS sym with Some _ => true | None => false end.

Definition hex_digit (n : nat) : ascii :=
  ascii_of_nat (if Nat.ltb n 10 then 48 + n else 55 + n).

Definition unreserved (c : ascii) : bool :=
  let n := nat_of_ascii c in
  (Nat.leb 65 n && Nat.leb n 90) || (Nat.leb 97 n && Nat.leb n 122)
  || (Nat.leb 48 n && Nat.leb n 57)
  || existsb (Ascii.eqb c) (list_ascii_of_string "-_.!~*'()").

(** [encodeURIComponent] on ASCII text. *)
Fixpoint encodeURIComponent (s : string) : string :=
  match s with
  | EmptyString => EmptyString
  | String c r =>
      if unreserved c then String c (encodeURIComponent r)
      else
        let n := nat_of_ascii c in
        String "%" (String (hex_digit (Nat.div n 16))
                      (String (hex_digit (Nat.modulo n 16))
                         (encodeURIComponent r)))
  end.

(** The part of [process.env] that pricing reads. *)
Record Config : Type := {
  COINGECKO_BASE : string;
  PRICE_TTL_MS : string
}.

Definition default_config : Config :=
  {| COINGECKO_BASE := "https://api.coingecko.com/api/v3";
     PRICE_TTL_MS := "60000" |}.

(** An entry [{ price, ts }] of [priceCache]. *)
Record Quote : Type := { price : number; ts : number }.

(** What the process holds between calls: the cache, and the log of
    outbound requests (oldest first). *)
Record Pricing : Type := {
  priceCache : gmap string Quote;
  outbound : list string
}.

(** What [fetch] settles to: a rejection, or a response with its status
    and its body as [resp.json()] parses it ([None]: not JSON). *)
Inductive fetch_result : Type :=
| FetchRejected
| FetchResponse (status : nat) (json : option value).

(** The surroundings of one call: [Date.now()] and the network. *)
Record Env : Type := {
  now : number;
  fetch : string -> fetch_result
}.

(** [resp.ok]. *)
Definition resp_ok (status : nat) : bool :=
  Nat.leb 200 status && Nat.leb status 299.

Section Pricing.
Context (B : Builtins) (cfg : Config).

Definition price_url (id : string) : string :=
  COINGECKO_BASE cfg ++ "/simple/price?ids=" ++ encodeURIComponent id
    ++ "&vs_currencies=usd".

(** [Number(PRICE_TTL_MS) || 60000]. *)
Definition ttl : number :=
  let n := StringToNumber B (PRICE_TTL_MS cfg) in
  if Num.truthy n then n else Num.of_Z 60000.

(** [cached && now - cached.ts < ttl], with the cached price. *)
Definition fresh_quote (E : Env) (st : Pricing) (sym : string)
  : option number :=
  match priceCache st !! sym with
  | Some cached =>
      if Num.ltb (Num.sub (now E) (ts cached)) ttl
      then Some (price cached) else None
  | None => None
  end.

(** The body of the [try] block up to [data?.[id]?.usd]. *)
Definition fetch_price (E : Env) (id : string) : outcome value :=
  match fetch E (price_url id) with
  | FetchRejected => Thrown "fetch failed"
  | FetchResponse status json =>
      if negb (resp_ok status)
      then Thrown ("coingecko " ++ index_key status)
      else match json with
           | None => Thrown "Unexpected token in JSON"
           | Some data => Returned (get_prop (get_prop data id) "usd")
           end
  end.

Definition log_request (st : Pricing) (url : string) : Pricing :=
  {| priceCache := priceCache st; outbound := outbound st ++ [url] |}.

Definition store_quote (st : Pricing) (sym : string) (p t : number)
  : Pricing :=
  {| priceCache := <[sym := {| price := p; ts := t |}]> (priceCache st);
     outbound := outbound st |}.

Definition getUsdRate (E : Env) (symbol : value) (st : Pricing)
  : outcome (value * Pricing) :=
  if negb (truthy symbol) then Returned (VNull, st)
  else
    let sym := toLowerCase (ToString B symbol) in
    match COINGECKO_IDS_at sym with
    | None => Returned (VNull, st)
    | Some id =>
        match fresh_quote E st sym with
        | Some p => Returned (VNum p, st)
        | None =>
            let st1 := log_request st (price_url id) in
            match fetch_price E id with
            | Returned (VNum p) =>
                Returned (VNum p, store_quote st1 sym p (now E))
            | Returned _ => Returned (VNull, st1)
            | Thrown _ => Returned (VNull, st1)
            end
        end
    end.

(** ** Normalisation of a cashout document for a response *)

Definition is_undef (v : value) : bool :=
  match v with VUndef => true | _ => false end.

Definition normalizeCashoutToUSD (E : Env) (doc : value) (st : Pricing)
  : outcome (value * Pricing) :=
  if negb (truthy doc) then Returned (doc, st)
  else
    let out := spread doc in
    let out :=
      set out "amountCrypto"
        (VNum (ToNumber B (js_or (get out "amount") (VNum Num.zero)))) in
    let out :=
      set out "payoutCrypto"
        (VNum (ToNumber B (js_or (get out "payout") (VNum Num.zero)))) in
    let amountUSD :=
      if is_number (get out "amountUSD") then get out "amountUSD"
      else VUndef in
    let payoutUSD :=
      if is_number (get out "payoutUSD") then get out "payoutUSD"
      else VUndef in
    usd <-
      (if is_undef amountUSD || is_undef payoutUSD then
         rs <- getUsdRate E (get out "currency") st ;;
         match fst rs with
         | VNum r =>
             Returned
               (if is_undef amountUSD
                then VNum (Num.mul (ToNumber B (get out "amountCrypto")) r)
                else amountUSD,
                if is_undef payoutUSD
                then VNum (Num.mul (ToNumber B (get out "payoutCrypto")) r)
                else payoutUSD,
                snd rs)
         | _ =>
             Returned
               (js_coalesce amountUSD (VNum Num.zero),
                js_coalesce payoutUSD (VNum Num.zero),
                snd rs)
         end
       else Returned (amountUSD, payoutUSD, st)) ;;
    let '(amountUSD, payoutUSD, st') := usd in
    let out := set out "amount" amountUSD in
    let out := set out "payout" payoutUSD in
    Returned (VObj out, st').

End Pricing.

(** ** The document store *)

(** The two collections, each in insertion order.  The server is taken
    as performing every write it is sent. *)
Record Db : Type := {
  accounts : list obj;
  cashouts : list obj
}.

Definition empty_db : Db := {| accounts := []; cashouts := [] |}.

(** [id_matches key d]: the document answers the filter [{ id: key }]. *)
Definition id_matches (key : value) (d : obj) : bool :=
  value_eqb (get d "id") key.

Section Store.
(** How the driver treats a key of [$set] whose value is [undefined]:
    dropped from the update ([true]), or written as [null] ([false]). *)
Context (omitUndefined : bool).

Definition assign (d : obj) (kv : string * value) : obj :=
  match snd kv with
  | VUndef => if omitUndefined then d else set d (fst kv) VNull
  | v => set d (fst kv) v
  end.

(** The fields of an update document written over a stored one. *)
Definition apply_set (d : obj) (upd : obj) : obj := fold_left assign upd d.

(** The first document with this id updated in place, if there is one. *)
Fixpoint update_first (key : value) (upd : obj) (coll : list obj)
  : option (list obj) :=
  match coll with
  | [] => None
  | d :: r =>
      if id_matches key d then Some (apply_set d upd :: r)
      else option_map (cons d) (update_first key upd r)
  end.

(** What the server does with [updateOne(filter, update, { upsert: true })]
    once Mongoose has cast the filter [{ id: key }] and the update: a
    matching document takes the [$set] fields and keeps its place;
    otherwise a new document is appended, made of the filter's key,
    [$setOnInsert] and [$set]. *)
Definition updateOne_upsert (coll : list obj) (key : value)
    (setOnInsert upd : obj) : list obj :=
  match update_first key upd coll with
  | Some coll' => coll'
  | None => coll ++ [apply_set (apply_set [("id", key)] setOnInsert) upd]
  end.

End Store.

(** ** The schemas

    Mongoose casts the filter and the update of an [updateOne] to the
    types the schema declares before anything is sent; a value it cannot
    cast makes the call throw a [CastError], and nothing is written. *)

Inductive SchemaType : Type := TString | TNumber | TDate | TObject.

Definition AccountSchema : list (string * SchemaType) :=
  [ ("id", TString); ("name", TString);
    ("createdAt", TDate); ("updatedAt", TDate) ].

Definition CashoutSchema : list (string * SchemaType) :=
  [ ("id", TString); ("accountId", TString); ("game", TString);
    ("currency", TString); ("amount", TNumber); ("payout", TNumber);
    ("amountMultiplier", TNumber); ("payoutMultiplier", TNumber);
    ("amountUSD", TNumber); ("payoutUSD", TNumber);
    ("updatedAt", TString); ("capturedAt", TDate); ("rawJson", TObject) ].

Fixpoint path_type (schema : list (string * SchemaType)) (k : string)
  : option SchemaType :=
  match schema with
  | [] => None
  | (k', ty) :: r => if String.eqb k' k then Some ty else path_type r k
  end.

Definition CastError : string := "CastError".

Section Casts.
Context (B : Builtins).

(** The cast to [String]: [null] and [undefined] pass, a string, a Number
    and a boolean become their string, an object that carries a string
    [_id] becomes that [_id], and an array or any other object is
    refused. *)
Definition castString (v : value) : outcome value :=
  match v with
  | VUndef | VNull | VStr _ => Returned v
  | VNum _ | VBool _ => Returned (VStr (ToString B v))
  | VArr _ => Thrown CastError
  | VObj o =>
      match get o "_id" with
      | VStr i => if String.eqb i "" then Thrown CastError
                  else Returned (VStr i)
      | _ => Thrown CastError
      end
  end.

(** The cast to [Number]: [null] and [undefined] pass, the empty string
    becomes [null], a string or a boolean goes through [Number(v)], and
    [NaN], an array or an object is refused. *)
Definition castNumber (v : value) : outcome value :=
  match v with
  | VUndef | VNull => Returned v
  | VStr "" => Returned VNull
  | VNum _ | VStr _ | VBool _ =>
      if Num.is_nan (ToNumber B v) then Thrown CastError
      else Returned (VNum (ToNumber B v))
  | VArr _ | VObj _ => Thrown CastError
  end.

(** A [Date] path is only ever given [new Date()], and [rawJson] is
    declared [Object], which keeps what it is given. *)
Definition cast (ty : SchemaType) (v : value) : outcome value :=
  match ty with
  | TString => castString v
  | TNumber => castNumber v
  | TDate | TObject => Returned v
  end.

(** The cast of a [$set] or [$setOnInsert] document, key by key; a key
    the schema does not declare is dropped (strict mode). *)
Fixpoint castUpdate (schema : list (string * SchemaType)) (upd : obj)
  : outcome obj :=
  match upd with
  | [] => Returned []
  | (k, v) :: r =>
      match path_type schema k with
      | None => castUpdate schema r
      | Some ty =>
          v' <- cast ty v ;;
          r' <- castUpdate schema r ;;
          Returned ((k, v') :: r')
      end
  end.

End Casts.

(** ** Ingestion *)

Record Response : Type := { status : nat; json : value }.

(** The two accepted payload shapes. *)
Inductive shape : Type := Nested | Flat.

Definition json_error (code : nat) (msg : string) : Response :=
  {| status := code; json := VObj [("error", VStr msg)] |}.

Definition numeric_or_undefined (v : value) : value :=
  if is_number v then v else VUndef.

Section Ingestion.
Context (B : Builtins) (omitUndefined : bool).

(** [Model.updateOne({ id }, { $setOnInsert, $set }, { upsert: true })]
    as Mongoose runs it: the filter and the update are cast by the
    schema, and the cast documents go to the server.  (An id is a
    [String] path in both schemas.  A filter that holds an array or an
    object of query operators is not modelled as a query: it is refused
    like any other value the cast refuses.) *)
Definition updateOne (schema : list (string * SchemaType)) (coll : list obj)
    (id : value) (setOnInsert upd : obj) : outcome (list obj) :=
  key <- castString B id ;;
  soi <- castUpdate B schema setOnInsert ;;
  u <- castUpdate B schema upd ;;
  Returned (updateOne_upsert omitUndefined coll key soi u).

(** [Account.updateOne({ id }, { $set: { name } }, { upsert: true })];
    the schema's [timestamps] option adds [createdAt] on insert and
    [updatedAt] on every call. *)
Definition upsert_account (db : Db) (id name : value) (t : number)
  : outcome Db :=
  accs <- updateOne AccountSchema (accounts db) id
            [("createdAt", VNum t)]
            [("name", name); ("updatedAt", VNum t)] ;;
  Returned {| accounts := accs; cashouts := cashouts db |}.

(** [Cashout.updateOne({ id }, { $setOnInsert: { id }, $set },
    { upsert: true })]. *)
Definition upsert_cashout (db : Db) (id : value) (upd : obj) : outcome Db :=
  cs <- updateOne CashoutSchema (cashouts db) id [("id", id)] upd ;;
  Returned {| accounts := accounts db; cashouts := cs |}.

(** The [$set] document of [POST /api/cashouts]. *)
Definition cashouts_update (minesCashout user reqBody : value) (t : number)
  : outcome obj :=
  game <- opt_toLowerCase (get_prop minesCashout "game") ;;
  currency <- opt_toLowerCase (get_prop minesCashout "currency") ;;
  Returned
    [ ("accountId", get_prop user "id");
      ("game", js_coalesce game VNull);
      ("currency", js_coalesce currency VNull);
      ("payout",
       VNum (ToNumber B (js_or (get_prop minesCashout "payout")
                           (VNum Num.zero))));
      ("amount",
       VNum (ToNumber B (js_or (get_prop minesCashout "amount")
                           (VNum Num.zero))));
      ("payoutMultiplier",
       VNum (ToNumber B (js_or (get_prop minesCashout "payoutMultiplier")
                           (VNum Num.zero))));
      ("amountMultiplier",
       VNum (ToNumber B (js_or (get_prop minesCashout "amountMultiplier")
                           (VNum Num.zero))));
      ("payoutUSD",
       numeric_or_undefined (get_prop minesCashout "payoutUSD"));
      ("amountUSD",
       numeric_or_undefined (get_prop minesCashout "amountUSD"));
      ("updatedAt", js_coalesce (get_prop minesCashout "updatedAt") VNull);
      ("rawJson", reqBody);
      ("capturedAt", VNum t) ].

(** [POST /api/cashouts], the nested shape [{ minesCashout, user }].
    Whatever is thrown after the check of the ids, by [toLowerCase] or by
    a cast, lands in the [catch]: the answer is 500 and what was written
    before stays written. *)
Definition post_cashouts (reqBody : value) (t : number) (db : Db)
  : Response * Db :=
  let b := js_or reqBody (VObj []) in
  let minesCashout := get_prop b "minesCashout" in
  let user := get_prop b "user" in
  if negb (truthy (get_prop minesCashout "id"))
     || negb (truthy (get_prop user "id"))
  then (json_error 400 "missing minesCashout.id or user.id", db)
  else
    match upsert_account db (get_prop user "id")
            (js_coalesce (get_prop user "name") VNull) t with
    | Thrown _ => (json_error 500 "server", db)
    | Returned db1 =>
        match (upd <- cashouts_update minesCashout user reqBody t ;;
               upsert_cashout db1 (get_prop minesCashout "id") upd) with
        | Thrown _ => (json_error 500 "server", db1)
        | Returned db2 =>
            ({| status := 200; json := VObj [("ok", VBool true)] |}, db2)
        end
    end.

Definition preview (b : value) (k : string) : value :=
  get_prop (get_prop b "preview") k.

Definition preview_user (b : value) (k : string) : value :=
  get_prop (get_prop (get_prop b "preview") "user") k.

(** The record [flat] of [POST /api/cashout]. *)
Definition flatten (b : value) : outcome obj :=
  game <- opt_toLowerCase
            (js_or (js_or (get_prop b "game") (preview b "game"))
               (VStr "mines")) ;;
  currency <- call_toLowerCase
                (js_or (js_or (get_prop b "currency") (preview b "currency"))
                   (VStr "")) ;;
  Returned
    [ ("id",
       js_or (js_or (get_prop b "id") (get_prop b "cashoutId"))
         (preview b "id"));
      ("accountId",
       js_or (js_or (get_prop b "accountId")
                (get_prop (get_prop b "user") "id"))
         (preview_user b "id"));
      ("accountName",
       js_or (js_or (get_prop b "accountName")
                (get_prop (get_prop b "user") "name"))
         (preview_user b "name"));
      ("game", game);
      ("currency", currency);
      ("payout",
       VNum (ToNumber B
               (js_coalesce
                  (js_coalesce (get_prop b "payout") (preview b "payout"))
                  (VNum Num.zero))));
      ("payoutMultiplier",
       VNum (ToNumber B
               (js_coalesce
                  (js_coalesce (get_prop b "payoutMultiplier")
                     (preview b "payoutMultiplier"))
                  (VNum Num.zero))));
      ("amount",
       VNum (ToNumber B
               (js_coalesce
                  (js_coalesce (get_prop b "amount") (preview b "amount"))
                  (VNum Num.zero))));
      ("amountMultiplier",
       VNum (ToNumber B
               (js_coalesce
                  (js_coalesce (get_prop b "amountMultiplier")
                     (preview b "amountMultiplier"))
                  (VNum Num.zero))));
      ("updatedAt",
       js_or (js_or (get_prop b "updatedAt") (preview b "updatedAt"))
         VNull);
      ("payoutUSD", numeric_or_undefined (get_prop b "payoutUSD"));
      ("amountUSD", numeric_or_undefined (get_prop b "amountUSD"));
      ("rawJson", b) ].

(** The [$set] document of [POST /api/cashout]. *)
Definition cashout_update (flat : obj) (t : number) : obj :=
  [ ("accountId", get flat "accountId");
    ("game", get flat "game");
    ("currency", get flat "currency");
    ("payout", get flat "payout");
    ("payoutMultiplier", get flat "payoutMultiplier");
    ("amount", get flat "amount");
    ("amountMultiplier", get flat "amountMultiplier");
    ("updatedAt", get flat "updatedAt");
    ("payoutUSD", get flat "payoutUSD");
    ("amountUSD", get flat "amountUSD");
    ("rawJson", get flat "rawJson");
    ("capturedAt", VNum t) ].

(** [POST /api/cashout], the flattened compatibility shape. *)
Definition post_cashout (reqBody : value) (t : number) (db : Db)
  : Response * Db :=
  let b := js_or reqBody (VObj []) in
  match flatten b with
  | Thrown _ => (json_error 500 "server", db)
  | Returned flat =>
      if negb (truthy (get flat "id")) || negb (truthy (get flat "accountId"))
      then (json_error 400 "missing id or accountId", db)
      else
        match upsert_account db (get flat "accountId")
                (js_coalesce (get flat "accountName") VNull) t with
        | Thrown _ => (json_error 500 "server", db)
        | Returned db1 =>
            match upsert_cashout db1 (get flat "id")
                    (cashout_update flat t) with
            | Thrown _ => (json_error 500 "server", db1)
            | Returned db2 =>
                ({| status := 200;
                    json := VObj [("ok", VBool true);
                                  ("id", get flat "id")] |}, db2)
            end
        end
  end.

Definition ingest (s : shape) : value -> number -> Db -> Response * Db :=
  match s with
  | Nested => post_cashouts
  | Flat => post_cashout
  end.

(** The external cashout id and account id a payload carries. *)
Definition cashout_id (s : shape) (reqBody : value) : value :=
  let b := js_or reqBody (VObj []) in
  match s with
  | Nested => get_prop (get_prop b "minesCashout") "id"
  | Flat =>
      js_or (js_or (get_prop b "id") (get_prop b "cashoutId"))
        (preview b "id")
  end.

Definition account_id (s : shape) (reqBody : value) : value :=
  let b := js_or reqBody (VObj []) in
  match s with
  | Nested => get_prop (get_prop b "user") "id"
  | Flat =>
      js_or (js_or (get_prop b "accountId")
               (get_prop (get_prop b "user") "id"))
        (preview_user b "id")
  end.

End Ingestion.

(** ** Account summary: the totals *)

(** [{ $sum: "$k" }]: the numeric values of the field added up, anything
    else skipped. *)
Definition sum_field (docs : list obj) (k : string) : number :=
  fold_left
    (fun acc d => match get d k with VNum n => Num.add acc n | _ => acc end)
    docs Num.zero.

(** [{ $max: "$k" }] over the numeric values of the field; [null] when
    there is none. *)
Definition max_field (docs : list obj) (k : string) : value :=
  fold_left
    (fun acc d =>
       match get d k, acc with
       | VNum n, VNum m => if Num.ltb m n then VNum n else VNum m
       | VNum n, _ => VNum n
       | _, _ => acc
       end)
    docs VNull.

(** [{ $last: "$k" }]: the field of the last document the group
    receives, [null] when that document lacks it. *)
Definition last_field (docs : list obj) (k : string) : value :=
  match List.last (List.map Some docs) None with
  | Some d => js_coalesce (get d k) VNull
  | None => VNull
  end.

(** The documents [{ $match: { accountId: id } }] lets through, in the
    order of the collection. *)
Definition match_account (docs : list obj) (id : string) : list obj :=
  List.filter (fun d => value_eqb (get d "accountId") (VStr id)) docs.

(** [const [t] = await Cashout.aggregate([...])]: one group document, or
    [undefined] when no document matches. *)
Definition aggregate (docs : list obj) (id : string) : value :=
  match match_account docs id with
  | [] => VUndef
  | ms =>
      VObj
        [ ("_id", VNull);
          ("totalBets", VNum (Num.of_Z (Z.of_nat (List.length ms))));
          ("maxMult", max_field ms "payoutMultiplier");
          ("totalPayoutUSD", VNum (sum_field ms "payoutUSD"));
          ("totalAmountUSD", VNum (sum_field ms "amountUSD"));
          ("totalPayoutCrypto", VNum (sum_field ms "payout"));
          ("totalAmountCrypto", VNum (sum_field ms "amount"));
          ("lastCurrency", last_field ms "currency") ]
  end.

(** The [totals] object of the summary. *)
Record Totals : Type := {
  totalBets : value;
  maxMult : value;
  totalPayout : value;
  totalAmountUSD : value
}.

(** [Math.round(v * 100) / 100]. *)
Definition round2 (x : number) : number :=
  Num.div (Num.Math_round (Num.mul x (Num.of_Z 100))) (Num.of_Z 100).

Section Summary.
Context (B : Builtins) (cfg : Config).

(** [let totals = { ... }], from the aggregation result [t]. *)
Definition initial_totals (t : value) : Totals :=
  {| totalBets := js_or (get_prop t "totalBets") (VNum Num.zero);
     maxMult := js_or (get_prop t "maxMult") (VNum Num.zero);
     totalPayout := js_or (get_prop t "totalPayoutUSD") (VNum Num.zero);
     totalAmountUSD := js_or (get_prop t "totalAmountUSD") (VNum Num.zero) |}.

(** [!t || totals.totalPayout === 0 || totals.totalAmountUSD === 0]. *)
Definition needs_backfill (t : value) (totals : Totals) : bool :=
  negb (truthy t)
  || strict_eq_num (totalPayout totals) Num.zero
  || strict_eq_num (totalAmountUSD totals) Num.zero.

(** The currency whose rate backfills: [t?.lastCurrency || "ltc"]. *)
Definition backfill_currency (t : value) : value :=
  js_or (get_prop t "lastCurrency") (VStr "ltc").

(** The two assignments under [if (typeof r === "number")]. *)
Definition backfill (t : value) (totals : Totals) (r : number) : Totals :=
  {| totalBets := totalBets totals;
     maxMult := maxMult totals;
     totalPayout :=
       if strict_eq_num (totalPayout totals) Num.zero
       then VNum (Num.mul
                    (ToNumber B (js_or (get_prop t "totalPayoutCrypto")
                                   (VNum Num.zero))) r)
       else totalPayout totals;
     totalAmountUSD :=
       if strict_eq_num (totalAmountUSD totals) Num.zero
       then VNum (Num.mul
                    (ToNumber B (js_or (get_prop t "totalAmountCrypto")
                                   (VNum Num.zero))) r)
       else totalAmountUSD totals |}.

(** The rounding for display. *)
Definition tidy (totals : Totals) : Totals :=
  {| totalBets := totalBets totals;
     maxMult := maxMult totals;
     totalPayout := VNum (round2 (ToNumber B (totalPayout totals)));
     totalAmountUSD := VNum (round2 (ToNumber B (totalAmountUSD totals))) |}.

(** The totals of [GET /api/accounts/:id/summary], from the aggregation
    result [t] on. *)
Definition summary_totals (E : Env) (t : value) (st : Pricing)
  : outcome (Totals * Pricing) :=
  let totals := initial_totals t in
  filled <-
    (if needs_backfill t totals then
       rs <- getUsdRate B cfg E (backfill_currency t) st ;;
       match fst rs with
       | VNum r => Returned (backfill t totals r, snd rs)
       | _ => Returned (totals, snd rs)
       end
     else Returned (totals, st)) ;;
  Returned (tidy (fst filled), snd filled).

(** The same, from the stored cashouts. *)
Definition summary (E : Env) (id : string) (db : Db) (st : Pricing)
  : outcome (Totals * Pricing) :=
  summary_totals E (aggregate (cashouts db) id) st.

End Summary.

(** The capture time of a stored cashout. *)
Definition capturedAt (d : obj) : number :=
  match get d "capturedAt" with VNum n => n | _ => Num.nan end.

(** The most recently captured document of a list (the later one on a
    tie). *)
Definition most_recent (docs : list obj) : option obj :=
  fold_left
    (fun best d =>
       match best with
       | Some b => if Num.ltb (capturedAt d) (capturedAt b) then Some b
                   else Some d
       | None => Some d
       end)
    docs None.

(** ** Pagination *)

(** White space as [parseInt], [trim] and [\s] of a regular expression
    see it, in a string of code units below 256: tab to carriage return,
    space and no-break space. *)
Definition is_space (c : ascii) : bool :=
  let n := nat_of_ascii c in
  (Nat.leb 9 n && Nat.leb n 13) || Nat.eqb n 32 || Nat.eqb n 160.

Fixpoint skip_spaces (s : string) : string :=
  match s with
  | String c r => if is_space c then skip_spaces r else s
  | EmptyString => s
  end.

Definition digit (c : ascii) : option Z :=
  let n := nat_of_ascii c in
  if (Nat.leb 48 n && Nat.leb n 57)%bool then Some (Z.of_nat (n - 48))
  else None.

(** The value of the longest prefix of decimal digits; [None] when the
    string starts with no digit. *)
Fixpoint digits (s : string) (acc : option Z) : option Z :=
  match s with
  | String c r =>
      match digit c with
      | Some d => digits r (Some (10 * default 0 acc + d))
      | None => acc
      end
  | EmptyString => acc
  end.

(** [parseInt(s, 10)] on a string. *)
Definition parseInt_string (s : string) : number :=
  let s := skip_spaces s in
  let '(neg, s) :=
    match s with
    | String "-" r => (true, r)
    | String "+" r => (false, r)
    | _ => (false, s)
    end in
  match digits s None with
  | None => Num.nan
  | Some 0 => S754_zero neg
  | Some n => Num.of_Z (if neg then - n else n)
  end.

Section Pagination.
Context (B : Builtins).

(** [parseInt(v, 10)]. *)
Definition parseInt (v : value) : number := parseInt_string (ToString B v).

(** [Math.max(1, parseInt(req.query.page ?? "1", 10))]. *)
Definition page_of (q : value) : number :=
  Num.Math_max (Num.of_Z 1) (parseInt (js_coalesce q (VStr "1"))).

(** [Math.min(200, Math.max(1, parseInt(req.query.size ?? "50", 10)))]. *)
Definition size_of (q : value) : number :=
  Num.Math_min (Num.of_Z 200)
    (Num.Math_max (Num.of_Z 1) (parseInt (js_coalesce q (VStr "50")))).

(** The leaderboard's
    [Math.min(50, Math.max(1, parseInt(req.query.size ?? "10", 10)))]. *)
Definition leaderboard_size_of (q : value) : number :=
  Num.Math_min (Num.of_Z 50)
    (Num.Math_max (Num.of_Z 1) (parseInt (js_coalesce q (VStr "10")))).

End Pagination.

(** ** Vocabulary of the statements *)

(** The [$set] document a payload leads to, as the handler builds it. *)
Definition set_document (B : Builtins) (s : shape) (reqBody : value)
    (t : number) : outcome obj :=
  let b := js_or reqBody (VObj []) in
  match s with
  | Nested =>
      cashouts_update B (get_prop b "minesCashout") (get_prop b "user")
        reqBody t
  | Flat => flat <- flatten B b ;; Returned (cashout_update flat t)
  end.

(** How many documents of a collection carry this id. *)
Definition count_id (key : value) (coll : list obj) : nat :=
  List.length (List.filter (id_matches key) coll).

(** The same document as it reaches the server, after the casts of
    [CashoutSchema]. *)
Definition cast_document (B : Builtins) (s : shape) (reqBody : value)
    (t : number) : outcome obj :=
  upd <- set_document B s reqBody t ;; castUpdate B CashoutSchema upd.

(** A Number other than [NaN]. *)
Definition numeric (v : value) : bool :=
  match v with VNum n => negb (Num.is_nan n) | _ => false end.

(** A USD field of a stored cashout: absent, [null], or a Number. *)
Definition usd_field (v : value) : bool :=
  match v with VUndef | VNull => true | v => numeric v end.

(** The crypto fields are Numbers and the USD fields are Numbers when
    present. *)
Definition cashout_ok (d : obj) : bool :=
  numeric (get d "amount") && numeric (get d "payout")
  && usd_field (get d "amountUSD") && usd_field (get d "payoutUSD").

(** A string, a Number or a boolean: what a payload can carry as an id
    besides an array or an object. *)
Definition scalar (v : value) : bool :=
  match v with VStr _ | VNum _ | VBool _ => true | _ => false end.

Definition is_object (v : value) : bool :=
  match v with VObj _ => true | _ => false end.

(** The call returns. *)
Definition succeeds {A : Type} (m : outcome A) : bool :=
  match m with Returned _ => true | Thrown _ => false end.

(** A Number below zero. *)
Definition negative (v : value) : bool :=
  match v with VNum n => Num.ltb n Num.zero | _ => false end.



(** The documents are in the order of their capture: none is captured
    before the one it follows. *)
Fixpoint capture_ordered (docs : list obj) : bool :=
  match docs with
  | d :: r =>
      match r with
      | d' :: _ => negb (Num.ltb (capturedAt d') (capturedAt d))
      | [] => true
      end && capture_ordered r
  | [] => true
  end.

(** The currency of the most recently captured document, ["ltc"] when
    there is none or it is falsy. *)
Definition recent_currency (ms : list obj) : value :=
  match most_recent ms with
  | Some d => js_or (get d "currency") (VStr "ltc")
  | None => VStr "ltc"
  end.


(** An integer-valued Number as an integer. *)
Definition to_Z (x : number) : option Z :=
  match x with
  | S754_zero _ => Some 0
  | S754_finite s m e =>
      if 0 <=? e then Some (cond_Zopp s (Zpos m * 2 ^ e))
      else
        let d := 2 ^ (- e) in
        if Zpos m mod d =? 0 then Some (cond_Zopp s (Zpos m / d)) else None
  | _ => None
  end.

Fixpoint all_digits (s : string) : bool :=
  match s with
  | EmptyString => true
  | String c r => match digit c with Some _ => all_digits r | None => false end
  end.

(** The built-in conversions on the inputs the examples use: exact on
    strings of decimal digits and on integer-valued Numbers, and
    [NaN] elsewhere. *)
Definition decimal_builtins : Builtins :=
  {| StringToNumber :=
       fun s => if all_digits s then Num.of_Z (default 0 (digits s None))
                else Num.nan;
     NumberToString :=
       fun n => match to_Z n with
                | Some z => NilZero.string_of_int (Z.to_int z)
                | None => "NaN"
                end |}.

(** An empty cache and no request made yet. *)
Definition idle : Pricing := {| priceCache := ∅; outbound := [] |}.

(** A provider that answers every request with the given JSON. *)
Definition provider (t : Z) (data : value) : Env :=
  {| now := Num.of_Z t; fetch := fun _ => FetchResponse 200 (Some data) |}.

(** A provider that is down. *)
Definition offline (t : Z) : Env :=
  {| now := Num.of_Z t; fetch := fun _ => FetchRejected |}.

(** Integer literals as values. *)
Definition int (z : Z) : value := VNum (Num.of_Z z).

(** The document after [out.amountCrypto = ...; out.payoutCrypto = ...]. *)
Definition with_crypto (B : Builtins) (o : obj) : obj :=
  set (set o "amountCrypto"
         (VNum (ToNumber B (js_or (get o "amount") (VNum Num.zero)))))
    "payoutCrypto"
    (VNum (ToNumber B (js_or (get o "payout") (VNum Num.zero)))).

(** The USD value a payload carries under the key [k]. *)
Definition payload_usd (s : shape) (reqBody : value) (k : string) : value :=
  let b := js_or reqBody (VObj []) in
  match s with
  | Nested => get_prop (get_prop b "minesCashout") k
  | Flat => get_prop b k
  end.

(** The crypto value a payload carries under the key [k], before
    [Number(...)]: [minesCashout.k || 0], or [b.k ?? b.preview.k ?? 0]. *)
Definition payload_crypto (s : shape) (reqBody : value) (k : string)
  : value :=
  let b := js_or reqBody (VObj []) in
  match s with
  | Nested => js_or (get_prop (get_prop b "minesCashout") k) (VNum Num.zero)
  | Flat =>
      js_coalesce (js_coalesce (get_prop b k) (preview b k)) (VNum Num.zero)
  end.

(** The [updatedAt] a payload carries: [minesCashout.updatedAt ?? null],
    or [b.updatedAt || b.preview.updatedAt || null]. *)
Definition payload_updatedAt (s : shape) (reqBody : value) : value :=
  let b := js_or reqBody (VObj []) in
  match s with
  | Nested =>
      js_coalesce (get_prop (get_prop b "minesCashout") "updatedAt") VNull
  | Flat =>
      js_or (js_or (get_prop b "updatedAt") (preview b "updatedAt")) VNull
  end.

(** What is kept as [rawJson]: [req.body], or [req.body || {}]. *)
Definition payload_raw (s : shape) (reqBody : value) : value :=
  match s with
  | Nested => reqBody
  | Flat => js_or reqBody (VObj [])
  end.

(** A nested payload of the account ["u1"]. *)
Definition sample_payload (id currency : string) (payout : Z) : value :=
  VObj [("minesCashout",
         VObj [("id", VStr id); ("currency", VStr currency);
               ("payout", int payout)]);
        ("user", VObj [("id", VStr "u1")])].

(** The store after these payloads were posted to [/api/cashouts], at
    times 1, 2, 3, ... *)
Definition replay (reqs : list value) : Db :=
  snd (fold_left
         (fun acc b =>
            (fst acc + 1,
             snd (ingest decimal_builtins true Nested b (Num.of_Z (fst acc))
                    (snd acc))))
         reqs (1, empty_db)).

(** ** Sequences of calls *)

(** Rates asked for one after the other, each call with its own
    surroundings. *)
Definition rate_calls (B : Builtins) (cfg : Config)
    (calls : list (Env * value)) (st : Pricing) : Pricing :=
  fold_left
    (fun st c =>
       match getUsdRate B cfg (fst c) (snd c) st with
       | Returned rs => snd rs
       | Thrown _ => st
       end)
    calls st.

(** The symbols that can ever be cached: the supported ones, and the two
    lower-case names the table inherits. *)
Definition cacheable : list string :=
  ["ltc"; "btc"; "eth"; "doge"; "bch"; "xrp"; "usdt"; "usdc";
   "constructor"; "__proto__"].

(** One ingestion request: the endpoint, the body and the time of the
    call. *)
Record Post : Type := {
  post_shape : shape;
  post_body : value;
  post_time : number
}.

(** Requests handled one after the other. *)
Definition run_posts (B : Builtins) (omit : bool) (reqs : list Post)
    (db : Db) : Db :=
  fold_left
    (fun db r =>
       snd (ingest B omit (post_shape r) (post_body r) (post_time r) db))
    reqs db.

(** The display name an ingestion writes: [user.name ?? null], or
    [flat.accountName ?? null]. *)
Definition account_name (s : shape) (reqBody : value) : value :=
  let b := js_or reqBody (VObj []) in
  match s with
  | Nested => js_coalesce (get_prop (get_prop b "user") "name") VNull
  | Flat =>
      js_coalesce
        (js_or (js_or (get_prop b "accountName")
                  (get_prop (get_prop b "user") "name"))
           (preview_user b "name"))
        VNull
  end.

(** The value an ingestion calls [toLowerCase] on for the game and for
    the currency. *)
Definition game_arg (s : shape) (reqBody : value) : value :=
  let b := js_or reqBody (VObj []) in
  match s with
  | Nested => get_prop (get_prop b "minesCashout") "game"
  | Flat => js_or (js_or (get_prop b "game") (preview b "game")) (VStr "mines")
  end.

Definition currency_arg (s : shape) (reqBody : value) : value :=
  let b := js_or reqBody (VObj []) in
  match s with
  | Nested => get_prop (get_prop b "minesCashout") "currency"
  | Flat =>
      js_or (js_or (get_prop b "currency") (preview b "currency")) (VStr "")
  end.

(** The ids of the documents of a collection, in order. *)
Definition ids_of (coll : list obj) : list value :=
  List.map (fun d => get d "id") coll.

(** [x?.toLowerCase()] goes through: [x] is [null], [undefined] or a
    string. *)
Definition lowers (v : value) : bool :=
  match v with VUndef | VNull | VStr _ => true | _ => false end.

(** [x?.toLowerCase() ?? null] when it goes through. *)
Definition lowered (v : value) : value :=
  match v with VStr c => VStr (toLowerCase c) | _ => VNull end.

(** The [$set] document of a payload read off the payload, field by
    field, in the order the endpoint writes them. *)
Definition update_of_payload (B : Builtins) (s : shape) (reqBody : value)
    (t : number) : obj :=
  let crypto k := VNum (ToNumber B (payload_crypto s reqBody k)) in
  let usd k := numeric_or_undefined (payload_usd s reqBody k) in
  match s with
  | Nested =>
      [ ("accountId", account_id s reqBody);
        ("game", lowered (game_arg s reqBody));
        ("currency", lowered (currency_arg s reqBody));
        ("payout", crypto "payout");
        ("amount", crypto "amount");
        ("payoutMultiplier", crypto "payoutMultiplier");
        ("amountMultiplier", crypto "amountMultiplier");
        ("payoutUSD", usd "payoutUSD");
        ("amountUSD", usd "amountUSD");
        ("updatedAt", payload_updatedAt s reqBody);
        ("rawJson", payload_raw s reqBody);
        ("capturedAt", VNum t) ]
  | Flat =>
      [ ("accountId", account_id s reqBody);
        ("game", lowered (game_arg s reqBody));
        ("currency", lowered (currency_arg s reqBody));
        ("payout", crypto "payout");
        ("payoutMultiplier", crypto "payoutMultiplier");
        ("amount", crypto "amount");
        ("amountMultiplier", crypto "amountMultiplier");
        ("updatedAt", payload_updatedAt s reqBody);
        ("payoutUSD", usd "payoutUSD");
        ("amountUSD", usd "amountUSD");
        ("rawJson", payload_raw s reqBody);
        ("capturedAt", VNum t) ]
  end.

(** The store after the server has performed the account's upsert, with
    the cast id and name. *)
Definition account_written (omit : bool) (db : Db) (k n : value)
    (t : number) : Db :=
  {| accounts :=
       updateOne_upsert omit (accounts db) k
         [("createdAt", VNum t)] [("name", n); ("updatedAt", VNum t)];
     cashouts := cashouts db |}.

(** The store after the server has performed the cashout's upsert, with
    the cast id and update. *)
Definition cashout_written (omit : bool) (db : Db) (k : value) (u : obj)
  : Db :=
  {| accounts := accounts db;
     cashouts := updateOne_upsert omit (cashouts db) k [("id", k)] u |}.

(** The two writes of a request, each with its casts. *)
Definition account_stage (B : Builtins) (omit : bool) (s : shape)
    (reqBody : value) (t : number) (db : Db) : outcome Db :=
  k <- castString B (account_id s reqBody) ;;
  n <- castString B (account_name s reqBody) ;;
  Returned (account_written omit db k n t).

Definition cashout_stage (B : Builtins) (omit : bool) (s : shape)
    (reqBody : value) (t : number) (db : Db) : outcome Db :=
  u <- cast_document B s reqBody t ;;
  k <- castString B (cashout_id s reqBody) ;;
  Returned (cashout_written omit db k u).

(** The answer to an accepted request. *)
Definition accepted (s : shape) (reqBody : value) : Response :=
  {| status := 200;
     json :=
       match s with
       | Nested => VObj [("ok", VBool true)]
       | Flat => VObj [("ok", VBool true); ("id", cashout_id s reqBody)]
       end |}.



(** ** The API key guard *)

(** White space in a request header or in the configuration. *)
Definition white (c : ascii) : bool := is_space c.

Fixpoint skip_white (s : string) : string :=
  match s with
  | String c r => if white c then skip_white r else s
  | EmptyString => s
  end.

(** [s.replace(/^Bearer\s+/i, "")]: a leading "Bearer", its letters in
    either case, followed by at least one white space is removed together
    with all the white space after it.  (Ignoring case, a letter of the
    pattern matches the same ASCII letter only.) *)
Definition strip_bearer (s : string) : string :=
  if String.eqb (toLowerCase (substring 0 6 s)) "bearer" then
    match substring 6 (String.length s - 6) s with
    | String c r => if white c then skip_white r else s
    | EmptyString => s
    end
  else s.

(** The guard on [/api]: [None] is [next()], otherwise the 401 answer.
    [authorization] is the header, [None] when the request has none. *)
Definition api_key_guard (API_KEY : string) (authorization : option string)
  : option Response :=
  let token := strip_bearer (default "" authorization) in
  if String.eqb token API_KEY then None
  else Some (json_error 401 "Unauthorized").

(** A string of white space only. *)
Fixpoint blank (s : string) : bool :=
  match s with
  | EmptyString => true
  | String c r => white c && blank r
  end.

(** The string starts with white space. *)
Definition leading_white (s : string) : bool :=
  match s with
  | String c _ => white c
  | EmptyString => false
  end.

(** ** The CORS origin check *)

(** [s.split(",")]. *)
Fixpoint split_commas (s : string) : list string :=
  match s with
  | EmptyString => [""]
  | String c r =>
      if Ascii.eqb c "," then "" :: split_commas r
      else match split_commas r with
           | p :: ps => String c p :: ps
           | [] => [String c ""]
           end
  end.

Fixpoint trim_end (s : string) : string :=
  match s with
  | EmptyString => ""
  | String c r =>
      if white c && String.eqb (trim_end r) "" then ""
      else String c (trim_end r)
  end.

(** [s.trim()]. *)
Definition trim (s : string) : string := trim_end (skip_white s).

(** A string without a comma. *)
Fixpoint comma_free (s : string) : bool :=
  match s with
  | EmptyString => true
  | String c r => negb (Ascii.eqb c ",") && comma_free r
  end.

(** What the [origin] callback of [cors] passes to [cb]: whether the
    request's origin ([None] when it sends none) is let in. *)
Definition origin_allowed (ALLOWED_ORIGINS : string) (origin : option string)
  : bool :=
  match origin with
  | None | Some "" => true
  | Some o =>
      if String.eqb ALLOWED_ORIGINS "*" then true
      else existsb (String.eqb o) (List.map trim (split_commas ALLOWED_ORIGINS))
  end.

(** ** The leaderboard's account names *)

Section Leaderboard.
Context (B : Builtins).

(** [Object.fromEntries(accs.map((a) => [a.id, a.name || a.id]))]: a later
    account with the same key replaces an earlier one. *)
Definition nameById (accs : list obj) : obj :=
  fold_left
    (fun o a =>
       set o (ToString B (get a "id")) (js_or (get a "name") (get a "id")))
    accs [].

Fixpoint has_key (o : obj) (k : string) : bool :=
  match o with
  | [] => false
  | (k', _) :: r => String.eqb k' k || has_key r k
  end.

(** The [accountName] of a row as the JSON answer shows it:
    [nameById[r.accountId] ?? r.accountId].  When no account answers and
    the key names a member of [Object.prototype], the lookup finds that
    member: a function, which the JSON leaves out as it does an
    [undefined] property, or under ["__proto__"] the prototype itself,
    which the JSON shows as an empty object. *)
Definition accountName (names : obj) (r : obj) : value :=
  let k := ToString B (get r "accountId") in
  if has_key names k then js_coalesce (get names k) (get r "accountId")
  else match assoc Object_prototype k with
       | Some _ => if String.eqb k "__proto__" then VObj [] else VUndef
       | None => get r "accountId"
       end.

(** [rows.map((r) => ({ ...r, accountName: ... }))]. *)
Definition attach_names (rows accs : list obj) : list obj :=
  List.map (fun r => set r "accountName" (accountName (nameById accs) r)) rows.

(** [Account.find({ id: { $in: ids } })], in the collection's order.  (The
    [Set] the ids pass through removes repeated ids only.) *)
Definition accounts_in (ids : list value) (accs : list obj) : list obj :=
  List.filter (fun a => existsb (fun k => id_matches k a) ids) accs.

(** The rows of the leaderboard as they are sent, from the normalised
    rows. *)
Definition leaderboard_names (db : Db) (rows : list obj) : list obj :=
  attach_names rows
    (accounts_in (List.map (fun r => get r "accountId") rows) (accounts db)).

End Leaderboard.

Definition is_string (v : value) : bool :=
  match v with VStr _ => true | _ => false end.

(** ** Update documents *)

(** Every key of the update is a path of the schema. *)
Definition declared (schema : list (string * SchemaType)) (upd : obj)
  : bool :=
  forallb (fun kv => match path_type schema (fst kv) with
                     | Some _ => true
                     | None => false
                     end) upd.

(** Two update documents with the same keys, in the same order, that
    leave the same keys undefined. *)
Definition same_keys (u1 u2 : obj) : Prop :=
  Forall2 (fun kv1 kv2 : string * value =>
             fst kv1 = fst kv2 /\ (snd kv1 = VUndef <-> snd kv2 = VUndef))
    u1 u2.

(** * Properties *)

(** ** Objects *)

Lemma get_set_eq (o : obj) (k : string) (v : value) : get (set o k v) k = v.
Proof.
  induction o as [|[k' v'] r IH]; simpl.
  - now rewrite String.eqb_refl.
  - destruct (String.eqb k' k) eqn:Hk; simpl.
    + now rewrite String.eqb_refl.
    + now rewrite Hk.
Qed.

Lemma get_set_ne (o : obj) (k k' : string) (v : value) :
  k <> k' -> get (set o k v) k' = get o k'.
Proof.
  intros Hne. induction o as [|[k0 v0] r IH]; simpl.
  - destruct (String.eqb_spec k k'); [contradiction | reflexivity].
  - destruct (String.eqb_spec k0 k) as [->|Hk0]; simpl.
    + destruct (String.eqb_spec k k'); [contradiction | reflexivity].
    + destruct (String.eqb k0 k'); [reflexivity | exact IH].
Qed.

Ltac get_set :=
  repeat first
    [ rewrite get_set_eq
    | rewrite get_set_ne by (let H := fresh in intro H; discriminate H) ].

Ltac nodup_keys :=
  repeat (constructor; [cbn; intuition discriminate|]); constructor.

Lemma js_or_default (x d : value) :
  truthy (js_or x d) = true \/ js_or x d = d.
Proof.
  unfold js_or. destruct (truthy x) eqn:Hx; [now left | now right].
Qed.

Lemma opt_toLowerCase_lowers (v : value) :
  (exists w, opt_toLowerCase v = Returned w /\ lowers v = true)
  \/ (exists m, opt_toLowerCase v = Thrown m /\ lowers v = false).
Proof.
  destruct v; cbn; eauto.
Qed.

Lemma call_toLowerCase_lowers (v : value) :
  truthy v = true \/ v = VStr "" ->
  (exists w, call_toLowerCase v = Returned w /\ lowers v = true)
  \/ (exists m, call_toLowerCase v = Thrown m /\ lowers v = false).
Proof.
  intros [Hv | ->]; [|cbn; eauto].
  destruct v; cbn in *; eauto; discriminate.
Qed.

(** ** Pricing never throws *)

Lemma getUsdRate_returns (B : Builtins) (cfg : Config) (E : Env)
    (symbol : value) (st : Pricing) :
  exists r st',
    getUsdRate B cfg E symbol st = Returned (r, st')
    /\ (r = VNull \/ exists n, r = VNum n).
Proof.
  unfold getUsdRate.
  destruct (truthy symbol); simpl; [|eauto].
  destruct (COINGECKO_IDS_at _) as [id|]; [|eauto].
  destruct (fresh_quote _ _ _ _ _) as [p|]; [eauto 6|].
  destruct (fetch_price cfg E id) as [[]|]; eauto 6.
Qed.

(** ** Normalisation *)

(** C1: a document that carries numeric [amountUSD] and [payoutUSD]
    normalises to a document whose [amount] and [payout] are exactly those
    stored values, whatever the cache holds and whatever the network would
    answer; the cache is left as it was and no request goes out. *)
Theorem stored_usd_takes_precedence (B : Builtins) (cfg : Config) (E : Env)
    (st : Pricing) (o : obj) (a p : number) :
  get o "amountUSD" = VNum a ->
  get o "payoutUSD" = VNum p ->
  exists out,
    normalizeCashoutToUSD B cfg E (VObj o) st = Returned (VObj out, st)
    /\ get out "amount" = VNum a
    /\ get out "payout" = VNum p.
Proof.
  intros Ha Hp. unfold normalizeCashoutToUSD. cbn [truthy negb spread].
  get_set. rewrite Ha, Hp. cbn [is_number is_undef orb bind].
  eexists. split; [reflexivity|]. now get_set.
Qed.

(** Stored USD 10 and 20, provider down: amount 10 and payout 20. *)
Lemma stored_usd_takes_precedence_witness :
  exists out,
    normalizeCashoutToUSD decimal_builtins default_config (offline 5)
      (VObj [("currency", VStr "ltc"); ("amount", int 1);
             ("amountUSD", int 10); ("payoutUSD", int 20)]) idle
    = Returned (VObj out, idle)
    /\ get out "amount" = int 10
    /\ get out "payout" = int 20.
Proof.
  apply (stored_usd_takes_precedence decimal_builtins default_config
           (offline 5) idle _ (Num.of_Z 10) (Num.of_Z 20));
    reflexivity.
Defined.

Lemma normalize_shape (B : Builtins) (cfg : Config) (E : Env) (doc : value)
    (st : Pricing) :
  truthy doc = true ->
  exists a p st',
    normalizeCashoutToUSD B cfg E doc st
    = Returned
        (VObj (set (set (with_crypto B (spread doc)) "amount" (VNum a))
                 "payout" (VNum p)), st').
Proof.
  intros Ht. unfold normalizeCashoutToUSD, with_crypto. rewrite Ht.
  cbn [negb]. get_set.
  destruct (getUsdRate_returns B cfg E (get (spread doc) "currency") st)
    as (r & st' & -> & Hr).
  destruct (get (spread doc) "amountUSD") as [| | | a | | |];
    destruct (get (spread doc) "payoutUSD") as [| | | p | | |];
    cbn [is_number is_undef orb bind fst snd];
    try (destruct Hr as [->|[n ->]];
         cbn [js_coalesce nullish ToNumber]; eauto).
Qed.

(** C2: when the document lacks a numeric [amountUSD] or [payoutUSD] and
    its currency resolves to a rate [r] (served from the cache or just
    fetched), each missing USD field becomes the crypto value times [r];
    a stored one is kept. *)
Theorem missing_usd_is_crypto_times_rate (B : Builtins) (cfg : Config)
    (E : Env) (st st' : Pricing) (o : obj) (r : number) :
  getUsdRate B cfg E (get o "currency") st = Returned (VNum r, st') ->
  is_number (get o "amountUSD") && is_number (get o "payoutUSD") = false ->
  exists out,
    normalizeCashoutToUSD B cfg E (VObj o) st = Returned (VObj out, st')
    /\ get out "amountCrypto"
       = VNum (ToNumber B (js_or (get o "amount") (VNum Num.zero)))
    /\ get out "payoutCrypto"
       = VNum (ToNumber B (js_or (get o "payout") (VNum Num.zero)))
    /\ get out "amount"
       = (if is_number (get o "amountUSD") then get o "amountUSD"
          else VNum (Num.mul
                       (ToNumber B (js_or (get o "amount") (VNum Num.zero)))
                       r))
    /\ get out "payout"
       = (if is_number (get o "payoutUSD") then get o "payoutUSD"
          else VNum (Num.mul
                       (ToNumber B (js_or (get o "payout") (VNum Num.zero)))
                       r)).
Proof.
  intros Hr Hmiss. unfold normalizeCashoutToUSD. cbn [truthy negb spread].
  get_set. rewrite Hr.
  destruct (get o "amountUSD") as [| | | a | | |];
    destruct (get o "payoutUSD") as [| | | p | | |];
    try discriminate Hmiss;
    cbn [is_number is_undef orb bind fst snd ToNumber];
    (eexists; split; [reflexivity|]; now get_set).
Qed.

(** Currency "ltc", crypto amount 2, no stored USD, fetched rate 50:
    amount 100. *)
Lemma missing_usd_is_crypto_times_rate_witness :
  exists out st',
    normalizeCashoutToUSD decimal_builtins default_config
      (provider 1000 (VObj [("litecoin", VObj [("usd", int 50)])]))
      (VObj [("currency", VStr "ltc"); ("amount", int 2)]) idle
    = Returned (VObj out, st')
    /\ get out "amount" = int 100
    /\ get out "payout" = int 0.
Proof.
  destruct
    (missing_usd_is_crypto_times_rate decimal_builtins default_config
       (provider 1000 (VObj [("litecoin", VObj [("usd", int 50)])]))
       idle
       (store_quote
          (log_request idle (price_url default_config "litecoin"))
          "ltc" (Num.of_Z 50) (Num.of_Z 1000))
       [("currency", VStr "ltc"); ("amount", int 2)] (Num.of_Z 50)
       eq_refl eq_refl)
    as (out & Hout & _ & _ & Ha & Hp).
  exists out. eexists. split; [exact Hout|].
  split; [rewrite Ha | rewrite Hp]; reflexivity.
Defined.

(** C10 as the code has it.  Normalisation returns a falsy input
    ([null], [undefined]) as it is.  On a document it adds [amountCrypto]
    and [payoutCrypto], which are [Number(amount || 0)] and
    [Number(payout || 0)] of the input's fields: zero when the field is
    absent, [null], zero, [NaN] or otherwise falsy, and the field itself
    when it is any other Number.  It writes Numbers to [amount] and
    [payout], and every other field of the output is the input's. *)
Theorem normalize_frame (B : Builtins) (cfg : Config) (E : Env)
    (st : Pricing) :
  (forall doc,
      truthy doc = false ->
      normalizeCashoutToUSD B cfg E doc st = Returned (doc, st))
  /\ forall o,
      exists out st',
        normalizeCashoutToUSD B cfg E (VObj o) st = Returned (VObj out, st')
        /\ get out "amountCrypto"
           = VNum (ToNumber B (js_or (get o "amount") (VNum Num.zero)))
        /\ get out "payoutCrypto"
           = VNum (ToNumber B (js_or (get o "payout") (VNum Num.zero)))
        /\ (forall k, In k ["amount"; "payout"] ->
              (truthy (get o k) = false ->
               get out (k ++ "Crypto") = VNum Num.zero)
              /\ (forall n, get o k = VNum n -> Num.truthy n = true ->
                            get out (k ++ "Crypto") = VNum n))
        /\ is_number (get out "amount") = true
        /\ is_number (get out "payout") = true
        /\ forall k,
            k <> "amount" -> k <> "payout" ->
            k <> "amountCrypto" -> k <> "payoutCrypto" ->
            get out k = get o k.
Proof.
  split.
  - intros doc Hf. unfold normalizeCashoutToUSD. now rewrite Hf.
  - intros o.
    destruct (normalize_shape B cfg E (VObj o) st eq_refl)
      as (a & p & st' & Hn).
    cbn [spread] in Hn.
    eexists. exists st'. split; [exact Hn|]. unfold with_crypto.
    split; [now get_set|]. split; [now get_set|].
    split; [|split; [now get_set | split; [now get_set|]]].
    + intros k [<- | [<- | []]];
        (split; [intros Hz | intros n Hk Hn']);
        cbn [String.append]; get_set; unfold js_or;
        rewrite ?Hz, ?Hk; cbn [truthy]; rewrite ?Hn'; reflexivity.
    + intros k H1 H2 H3 H4.
      now rewrite !get_set_ne by congruence.
Qed.

(** C10, the counterexample: a document whose [amount] is the string
    "abc".  The field is there and is not numeric, and [amountCrypto] is
    [NaN], not 0; every other field is as in the input. *)
Lemma non_numeric_amount_is_NaN :
  let doc :=
    VObj [("id", VStr "c1"); ("currency", VStr "ltc");
          ("amount", VStr "abc"); ("payout", int 2)] in
  exists out st',
    normalizeCashoutToUSD decimal_builtins default_config (offline 5) doc
      idle
    = Returned (VObj out, st')
    /\ (exists n, get out "amountCrypto" = VNum n /\ Num.is_nan n = true)
    /\ get out "amountCrypto" <> VNum Num.zero
    /\ get out "payoutCrypto" = int 2
    /\ get out "id" = VStr "c1".
Proof.
  eexists. eexists. split; [reflexivity|].
  split; [eexists; split; reflexivity|].
  split; [discriminate | split; reflexivity].
Qed.

(** ** The price cache *)

Lemma fresh_quote_spec (B : Builtins) (cfg : Config) (E : Env) (st : Pricing)
    (sym : string) (p : number) :
  fresh_quote B cfg E st sym = Some p <->
  exists q,
    priceCache st !! sym = Some q /\ price q = p
    /\ Num.ltb (Num.sub (now E) (ts q)) (ttl B cfg) = true.
Proof.
  unfold fresh_quote. split.
  - destruct (priceCache st !! sym) as [q|]; [|discriminate].
    destruct (Num.ltb _ _) eqn:Hlt; [|discriminate].
    intros [= <-]. eauto.
  - intros (q & -> & <- & ->). reflexivity.
Qed.

Lemma getUsdRate_refresh (B : Builtins) (cfg : Config) (E : Env)
    (st : Pricing) (symbol : value) (id : string) :
  truthy symbol = true ->
  COINGECKO_IDS_at (toLowerCase (ToString B symbol)) = Some id ->
  fresh_quote B cfg E st (toLowerCase (ToString B symbol)) = None ->
  getUsdRate B cfg E symbol st
  = match fetch_price cfg E id with
    | Returned (VNum p) =>
        Returned
          (VNum p,
           store_quote (log_request st (price_url cfg id))
             (toLowerCase (ToString B symbol)) p (now E))
    | _ => Returned (VNull, log_request st (price_url cfg id))
    end.
Proof.
  intros Ht Hid Hq. unfold getUsdRate. rewrite Ht, Hid, Hq. cbn [negb].
  destruct (fetch_price cfg E id) as [[]|]; reflexivity.
Qed.

(** C3: for a symbol the table answers, [getUsdRate] serves the cached
    rate exactly when the cache holds an entry for it whose age
    [now - ts] is strictly below the freshness window
    ([Number(PRICE_TTL_MS) || 60000]); then no request goes out and the
    state is unchanged.  Without a fresh entry one request goes out, and
    when it yields a numeric price the entry is overwritten with that
    price and the current time.  Hence a second call within the window of
    a successful refresh is served from the cache, and a call after the
    window fetches again. *)
Theorem cache_never_serves_stale (B : Builtins) (cfg : Config) (E : Env)
    (st : Pricing) (symbol : value) (id : string) :
  truthy symbol = true ->
  COINGECKO_IDS_at (toLowerCase (ToString B symbol)) = Some id ->
  let sym := toLowerCase (ToString B symbol) in
  let url := price_url cfg id in
  (forall p,
      fresh_quote B cfg E st sym = Some p <->
      exists q,
        priceCache st !! sym = Some q /\ price q = p
        /\ Num.ltb (Num.sub (now E) (ts q)) (ttl B cfg) = true)
  /\ (forall p,
         fresh_quote B cfg E st sym = Some p ->
         getUsdRate B cfg E symbol st = Returned (VNum p, st))
  /\ (fresh_quote B cfg E st sym = None ->
      exists r st',
        getUsdRate B cfg E symbol st = Returned (r, st')
        /\ outbound st' = (outbound st ++ [url])%list
        /\ (forall p,
               fetch_price cfg E id = Returned (VNum p) ->
               r = VNum p
               /\ priceCache st'
                  = <[sym := {| price := p; ts := now E |}]> (priceCache st))
        /\ ((forall p, fetch_price cfg E id <> Returned (VNum p)) ->
            r = VNull /\ priceCache st' = priceCache st))
  /\ (forall p E2,
         fetch_price cfg E id = Returned (VNum p) ->
         let st1 := store_quote (log_request st url) sym p (now E) in
         (Num.ltb (Num.sub (now E2) (now E)) (ttl B cfg) = true ->
          getUsdRate B cfg E2 symbol st1 = Returned (VNum p, st1))
         /\ (Num.ltb (Num.sub (now E2) (now E)) (ttl B cfg) = false ->
             exists r st2,
               getUsdRate B cfg E2 symbol st1 = Returned (r, st2)
               /\ outbound st2 = (outbound st1 ++ [url])%list))
  /\ (Num.truthy (StringToNumber B (PRICE_TTL_MS cfg)) = false ->
      ttl B cfg = Num.of_Z 60000).
Proof.
  intros Ht Hid. cbv zeta. repeat split.
  - apply fresh_quote_spec.
  - apply fresh_quote_spec.
  - intros p Hq. unfold getUsdRate. now rewrite Ht, Hid, Hq.
  - intros Hq. rewrite (getUsdRate_refresh B cfg E st symbol id Ht Hid Hq).
    destruct (fetch_price cfg E id) as [v|m] eqn:Hf.
    + destruct v as [| | | p | | |];
        try (eexists; eexists; split; [reflexivity|];
             split; [reflexivity|]; split;
             [intros p' [=] | intros _; split; reflexivity]).
      eexists. eexists. split; [reflexivity|]. split; [reflexivity|].
      split.
      * intros p' [= <-]. split; reflexivity.
      * intros Hno. now destruct (Hno p).
    + eexists. eexists. split; [reflexivity|]. split; [reflexivity|].
      split; [intros p' [=] | intros _; split; reflexivity].
  - intros Hlt. unfold getUsdRate. rewrite Ht, Hid. cbn [negb].
    unfold fresh_quote, store_quote. cbn [priceCache].
    rewrite lookup_insert_eq. cbn [ts price]. now rewrite Hlt.
  - intros Hlt.
    rewrite (getUsdRate_refresh B cfg E2 _ symbol id Ht Hid).
    + destruct (fetch_price cfg E2 id) as [[]|]; eauto.
    + unfold fresh_quote, store_quote. cbn [priceCache].
      rewrite lookup_insert_eq. cbn [ts price]. now rewrite Hlt.
  - intros Hn. unfold ttl. now rewrite Hn.
Qed.

(** A rate of 50 fetched at time 1000 is served from the cache at
    60999 and fetched again at 61000, under the default window. *)
Lemma cache_never_serves_stale_witness :
  let B := decimal_builtins in
  let cfg := default_config in
  let data := VObj [("litecoin", VObj [("usd", int 50)])] in
  let st1 :=
    store_quote (log_request idle (price_url cfg "litecoin")) "ltc"
      (Num.of_Z 50) (Num.of_Z 1000) in
  ttl B cfg = Num.of_Z 60000
  /\ getUsdRate B cfg (provider 1000 data) (VStr "LTC") idle
     = Returned (int 50, st1)
  /\ getUsdRate B cfg (offline 60999) (VStr "LTC") st1
     = Returned (int 50, st1)
  /\ exists r st2,
       getUsdRate B cfg (offline 61000) (VStr "LTC") st1 = Returned (r, st2)
       /\ outbound st2 = (outbound st1 ++ [price_url cfg "litecoin"])%list.
Proof.
  intros B cfg data st1.
  destruct
    (cache_never_serves_stale B cfg (provider 1000 data) idle (VStr "LTC")
       "litecoin" eq_refl eq_refl)
    as (_ & _ & Hmiss & Hseq & _).
  split; [reflexivity|]. split; [reflexivity|].
  destruct (Hseq (Num.of_Z 50) (offline 60999) eq_refl) as [Hin _].
  destruct (Hseq (Num.of_Z 50) (offline 61000) eq_refl) as [_ Hout].
  split.
  - apply Hin. reflexivity.
  - apply Hout. reflexivity.
Defined.

(** ** Pricing failures *)

(** What makes the [try] block fail to produce a numeric price. *)
Lemma fetch_price_failure (cfg : Config) (E : Env) (id : string) :
  (fetch E (price_url cfg id) = FetchRejected
   \/ (exists s j,
          fetch E (price_url cfg id) = FetchResponse s j
          /\ (resp_ok s = false
              \/ j = None
              \/ exists data,
                  j = Some data
                  /\ is_number (get_prop (get_prop data id) "usd") = false)))
  -> forall p, fetch_price cfg E id <> Returned (VNum p).
Proof.
  unfold fetch_price.
  intros [-> | (s & j & -> & [-> | [-> | (data & -> & Hn)]])] p;
    try discriminate.
  - destruct (resp_ok s); discriminate.
  - destruct (resp_ok s); cbn [negb]; [|discriminate].
    intros [= Heq]. rewrite Heq in Hn. discriminate.
Qed.

(** C4, the failing input: the symbol ["Constructor"] is outside the
    supported mapping, yet [COINGECKO_IDS["constructor"]] finds the
    inherited [Object.prototype.constructor], which is truthy, so the
    lookup guard lets it through and a request goes out to the provider
    before [null] is returned. *)
Theorem inherited_symbol_is_fetched :
  supported (toLowerCase "Constructor") = false
  /\ exists st',
      getUsdRate decimal_builtins default_config (offline 0)
        (VStr "Constructor") idle
      = Returned (VNull, st')
      /\ outbound st'
         = [ "https://api.coingecko.com/api/v3/simple/price?ids=function%20Object()%20%7B%20%5Bnative%20code%5D%20%7D&vs_currencies=usd" ].
Proof.
  split; [reflexivity|]. eexists. split; reflexivity.
Qed.

(** Pricing failures are absorbed: [getUsdRate] always returns, never
    throws; it returns [null] without touching the cache or the network
    when the symbol is falsy or the table lookup finds nothing, and
    [null] with the cache unchanged when the request is rejected, the
    status is not 2xx, the body is not JSON, or the [usd] field is not a
    Number. *)
Theorem pricing_failures_absorbed (B : Builtins) (cfg : Config) (E : Env)
    (symbol : value) (st : Pricing) :
  exists r st',
    getUsdRate B cfg E symbol st = Returned (r, st')
    /\ (r = VNull \/ exists n, r = VNum n)
    /\ (truthy symbol = false
        \/ COINGECKO_IDS_at (toLowerCase (ToString B symbol)) = None ->
        r = VNull /\ st' = st)
    /\ (forall id,
           truthy symbol = true ->
           COINGECKO_IDS_at (toLowerCase (ToString B symbol)) = Some id ->
           fresh_quote B cfg E st (toLowerCase (ToString B symbol)) = None ->
           (fetch E (price_url cfg id) = FetchRejected
            \/ (exists s j,
                   fetch E (price_url cfg id) = FetchResponse s j
                   /\ (resp_ok s = false
                       \/ j = None
                       \/ exists data,
                           j = Some data
                           /\ is_number (get_prop (get_prop data id) "usd")
                              = false))) ->
           r = VNull /\ priceCache st' = priceCache st).
Proof.
  destruct (getUsdRate_returns B cfg E symbol st) as (r & st' & Hr & Hk).
  exists r, st'. split; [exact Hr|]. split; [exact Hk|]. split.
  - unfold getUsdRate in Hr. intros [Hf | Hn].
    + rewrite Hf in Hr. cbn [negb] in Hr. now inversion Hr.
    + destruct (truthy symbol); cbn [negb] in Hr; [|now inversion Hr].
      rewrite Hn in Hr. now inversion Hr.
  - intros id Ht Hid Hq Hfail.
    rewrite (getUsdRate_refresh B cfg E st symbol id Ht Hid Hq) in Hr.
    pose proof (fetch_price_failure cfg E id Hfail) as Hno.
    destruct (fetch_price cfg E id) as [[| | | p | | |]|];
      try (now inversion Hr).
    now destruct (Hno p).
Qed.

(** When no rate is available, each missing USD field of a normalised
    document is zero, and a stored one is kept. *)
Theorem unpriced_usd_defaults_to_zero (B : Builtins) (cfg : Config)
    (E : Env) (st st' : Pricing) (o : obj) (r : value) :
  getUsdRate B cfg E (get o "currency") st = Returned (r, st') ->
  is_number r = false ->
  exists out,
    normalizeCashoutToUSD B cfg E (VObj o) st
    = Returned (VObj out, if is_number (get o "amountUSD")
                             && is_number (get o "payoutUSD")
                          then st else st')
    /\ get out "amount"
       = (if is_number (get o "amountUSD") then get o "amountUSD"
          else VNum Num.zero)
    /\ get out "payout"
       = (if is_number (get o "payoutUSD") then get o "payoutUSD"
          else VNum Num.zero).
Proof.
  intros Hr Hn. unfold normalizeCashoutToUSD. cbn [truthy negb spread].
  get_set. rewrite Hr.
  destruct (get o "amountUSD") as [| | | a | | |];
    destruct (get o "payoutUSD") as [| | | p | | |];
    destruct r; try discriminate Hn;
    cbn [is_number is_undef orb andb bind fst snd js_coalesce nullish];
    (eexists; split; [reflexivity|]; now get_set).
Qed.

(** Currency "zzz" and no stored USD: amount 0 and payout 0, and no
    request. *)
Lemma unpriced_usd_defaults_to_zero_witness :
  exists out,
    normalizeCashoutToUSD decimal_builtins default_config (offline 7)
      (VObj [("currency", VStr "zzz"); ("amount", int 2); ("payout", int 3)])
      idle
    = Returned (VObj out, idle)
    /\ get out "amount" = int 0
    /\ get out "payout" = int 0.
Proof.
  destruct
    (unpriced_usd_defaults_to_zero decimal_builtins default_config
       (offline 7) idle idle
       [("currency", VStr "zzz"); ("amount", int 2); ("payout", int 3)]
       VNull eq_refl eq_refl)
    as (out & Hout & Ha & Hp).
  exists out. split; [exact Hout|]. split; [exact Ha | exact Hp].
Defined.

(** ** What a rate lookup leaves alone *)

Lemma getUsdRate_steps (B : Builtins) (cfg : Config) (E : Env)
    (symbol : value) (st : Pricing) :
  exists r st',
    getUsdRate B cfg E symbol st = Returned (r, st')
    /\ ((st' = st /\ (r = VNull \/ exists p, r = VNum p))
        \/ exists id,
            COINGECKO_IDS_at (toLowerCase (ToString B symbol)) = Some id
            /\ ((r = VNull /\ st' = log_request st (price_url cfg id))
                \/ exists p,
                    r = VNum p
                    /\ st' = store_quote (log_request st (price_url cfg id))
                               (toLowerCase (ToString B symbol)) p (now E))).
Proof.
  unfold getUsdRate.
  destruct (truthy symbol); cbn [negb]; [|eauto 8].
  destruct (COINGECKO_IDS_at _) as [id|]; [|eauto 8].
  destruct (fresh_quote _ _ _ _ _) as [p|]; [eauto 10|].
  destruct (fetch_price cfg E id) as [[]|]; eauto 12.
Qed.

(** A rate lookup changes the cache at most at the symbol it was asked
    for, and there only by storing the rate it returns, stamped with the
    time of the call; it appends at most one request to the log, the
    price request for the id the table gives, and never drops one. *)
Theorem rate_lookup_frame (B : Builtins) (cfg : Config) (E : Env)
    (symbol : value) (st : Pricing) :
  exists r st',
    getUsdRate B cfg E symbol st = Returned (r, st')
    /\ (forall k,
           k <> toLowerCase (ToString B symbol) ->
           priceCache st' !! k = priceCache st !! k)
    /\ (priceCache st' = priceCache st
        \/ exists p,
            r = VNum p
            /\ priceCache st' !! toLowerCase (ToString B symbol)
               = Some {| price := p; ts := now E |})
    /\ (outbound st' = outbound st
        \/ exists id,
            COINGECKO_IDS_at (toLowerCase (ToString B symbol)) = Some id
            /\ outbound st' = (outbound st ++ [price_url cfg id])%list).
Proof.
  destruct (getUsdRate_steps B cfg E symbol st) as (r & st' & Hr & Hcases).
  exists r, st'. split; [exact Hr|].
  destruct Hcases as [[-> _] | (id & Hid & [[-> ->] | (p & -> & ->)])].
  - repeat split; auto.
  - repeat split; eauto.
  - cbn [store_quote log_request priceCache outbound]. repeat split.
    + intros k Hk. now rewrite lookup_insert_ne.
    + right. exists p. split; [reflexivity|]. apply lookup_insert_eq.
    + eauto.
Qed.

(** ** The size of the cache *)

Lemma lower_ascii_idem (c : ascii) :
  lower_ascii (lower_ascii c) = lower_ascii c.
Proof. destruct c as [[] [] [] [] [] [] [] []]; reflexivity. Qed.

Lemma toLowerCase_idem (s : string) :
  toLowerCase (toLowerCase s) = toLowerCase s.
Proof.
  induction s as [|c r IH]; [reflexivity|].
  cbn [toLowerCase]. now rewrite lower_ascii_idem, IH.
Qed.

Lemma assoc_key (l : list (string * string)) (k v : string) :
  assoc l k = Some v -> In k (List.map fst l).
Proof.
  induction l as [|[k' v'] r IH]; [discriminate|].
  cbn [assoc List.map fst].
  destruct (String.eqb_spec k' k); [now left | right; now apply IH].
Qed.

Lemma answered_lower_is_cacheable (s id : string) :
  COINGECKO_IDS_at (toLowerCase s) = Some id -> In (toLowerCase s) cacheable.
Proof.
  intros H. pose proof (toLowerCase_idem s) as Hi.
  assert (Hk : In (toLowerCase s)
                 (List.map fst COINGECKO_IDS ++ List.map fst Object_prototype)).
  { unfold COINGECKO_IDS_at in H. apply List.in_or_app.
    destruct (assoc COINGECKO_IDS (toLowerCase s)) eqn:Ha.
    - left. eapply assoc_key, Ha.
    - right. eapply assoc_key, H. }
  cbn in Hk. unfold cacheable.
  repeat (destruct Hk as [Hk | Hk];
          [rewrite <- Hk in *; first [now (cbn; tauto) | discriminate Hi]|]).
  destruct Hk.
Qed.

Lemma rate_call_keeps_cacheable (B : Builtins) (cfg : Config) (E : Env)
    (symbol : value) (st : Pricing) (r : value) (st' : Pricing) :
  getUsdRate B cfg E symbol st = Returned (r, st') ->
  (forall k q, priceCache st !! k = Some q -> In k cacheable) ->
  forall k q, priceCache st' !! k = Some q -> In k cacheable.
Proof.
  intros Hr Hinv k q.
  destruct (getUsdRate_steps B cfg E symbol st)
    as (r0 & st0 & Hr0 & Hcases).
  rewrite Hr in Hr0. injection Hr0 as <- <-.
  destruct Hcases as [[-> _] | (id & Hid & [[_ ->] | (p & _ & ->)])].
  - apply Hinv.
  - apply Hinv.
  - cbn [store_quote log_request priceCache].
    destruct (String.eqb_spec (toLowerCase (ToString B symbol)) k) as [<-|Hne].
    + intros _. eapply answered_lower_is_cacheable, Hid.
    + rewrite lookup_insert_ne by exact Hne. apply Hinv.
Qed.

Lemma rate_calls_keep_cacheable (B : Builtins) (cfg : Config)
    (calls : list (Env * value)) (st : Pricing) :
  (forall k q, priceCache st !! k = Some q -> In k cacheable) ->
  forall k q, priceCache (rate_calls B cfg calls st) !! k = Some q ->
              In k cacheable.
Proof.
  revert st. induction calls as [|[E symbol] calls IH]; intros st Hinv.
  - exact Hinv.
  - cbn [rate_calls fold_left fst snd].
    destruct (getUsdRate_returns B cfg E symbol st) as (r & st' & Hr & _).
    rewrite Hr. cbn [snd]. apply IH.
    eapply rate_call_keeps_cacheable; eassumption.
Qed.

(** Whatever symbols are asked for, in whatever order and with whatever
    answers of the provider, a cache that starts empty only ever holds
    entries under the eight supported symbols, ["constructor"] and
    ["__proto__"]: it never grows beyond ten entries. *)
Theorem cache_stays_small (B : Builtins) (cfg : Config)
    (calls : list (Env * value)) :
  (forall k, is_Some (priceCache (rate_calls B cfg calls idle) !! k) ->
             In k cacheable)
  /\ (size (priceCache (rate_calls B cfg calls idle)) <= 10)%nat.
Proof.
  assert (Hin : forall k,
             is_Some (priceCache (rate_calls B cfg calls idle) !! k) ->
             In k cacheable).
  { intros k [q Hq].
    eapply (rate_calls_keep_cacheable B cfg calls idle); [|exact Hq].
    intros k' q' H. cbn in H. now rewrite lookup_empty in H. }
  split; [exact Hin|].
  rewrite <- size_dom.
  transitivity (size (list_to_set cacheable : gset string)).
  - apply subseteq_size. intros k Hk. apply elem_of_dom in Hk.
    apply elem_of_list_to_set, list_elem_of_In. now apply Hin.
  - rewrite size_list_to_set; [reflexivity|].
    apply NoDup_ListNoDup. unfold cacheable. nodup_keys.
Qed.

(** ** One fetch serves the documents that follow *)

(** Once a lookup has fetched the rate [p] of a symbol, a document in
    that currency normalised later, within the freshness window of that
    fetch, gets its missing USD fields from [p]: no further request goes
    out and the cache is left as it is, whatever the network would
    answer by then. *)
Theorem fetched_rate_serves_later_documents (B : Builtins) (cfg : Config)
    (E1 E2 : Env) (st : Pricing) (symbol : value) (id : string) (p : number)
    (o : obj) :
  truthy symbol = true ->
  COINGECKO_IDS_at (toLowerCase (ToString B symbol)) = Some id ->
  fresh_quote B cfg E1 st (toLowerCase (ToString B symbol)) = None ->
  fetch_price cfg E1 id = Returned (VNum p) ->
  Num.ltb (Num.sub (now E2) (now E1)) (ttl B cfg) = true ->
  truthy (get o "currency") = true ->
  toLowerCase (ToString B (get o "currency"))
  = toLowerCase (ToString B symbol) ->
  is_number (get o "amountUSD") && is_number (get o "payoutUSD") = false ->
  exists st1 out,
    getUsdRate B cfg E1 symbol st = Returned (VNum p, st1)
    /\ outbound st1 = (outbound st ++ [price_url cfg id])%list
    /\ normalizeCashoutToUSD B cfg E2 (VObj o) st1 = Returned (VObj out, st1)
    /\ get out "amount"
       = (if is_number (get o "amountUSD") then get o "amountUSD"
          else VNum (Num.mul
                       (ToNumber B (js_or (get o "amount") (VNum Num.zero)))
                       p))
    /\ get out "payout"
       = (if is_number (get o "payoutUSD") then get o "payoutUSD"
          else VNum (Num.mul
                       (ToNumber B (js_or (get o "payout") (VNum Num.zero)))
                       p)).
Proof.
  intros Ht Hid Hq Hf Hlt Hc Hsym Hmiss.
  rewrite (getUsdRate_refresh B cfg E1 st symbol id Ht Hid Hq), Hf.
  set (st1 := store_quote (log_request st (price_url cfg id))
                (toLowerCase (ToString B symbol)) p (now E1)).
  assert (Hrate : getUsdRate B cfg E2 (get o "currency") st1
                  = Returned (VNum p, st1)).
  { unfold getUsdRate. rewrite Hc, Hsym, Hid. cbn [negb].
    unfold fresh_quote, st1, store_quote. cbn [priceCache].
    rewrite lookup_insert_eq. cbn [ts price]. now rewrite Hlt. }
  exists st1. unfold normalizeCashoutToUSD. cbn [truthy negb spread].
  get_set. rewrite Hrate.
  destruct (get o "amountUSD") as [| | | a | | |];
    destruct (get o "payoutUSD") as [| | | q | | |];
    try discriminate Hmiss;
    cbn [is_number is_undef orb bind fst snd ToNumber];
    (eexists; split; [reflexivity|]; split; [reflexivity|];
     split; [reflexivity|]; now get_set).
Qed.

(** A rate of 50 fetched for "LTC" at time 1000; at time 31000, with the
    provider down, a document in "ltc" with crypto amount 2 shows 100. *)
Lemma fetched_rate_serves_later_documents_witness :
  let B := decimal_builtins in
  let cfg := default_config in
  let E1 := provider 1000 (VObj [("litecoin", VObj [("usd", int 50)])]) in
  exists st1 out,
    getUsdRate B cfg E1 (VStr "LTC") idle = Returned (int 50, st1)
    /\ normalizeCashoutToUSD B cfg (offline 31000)
         (VObj [("currency", VStr "ltc"); ("amount", int 2)]) st1
       = Returned (VObj out, st1)
    /\ get out "amount" = int 100.
Proof.
  intros B cfg E1.
  destruct
    (fetched_rate_serves_later_documents B cfg E1 (offline 31000) idle
       (VStr "LTC") "litecoin" (Num.of_Z 50)
       [("currency", VStr "ltc"); ("amount", int 2)]
       eq_refl eq_refl eq_refl eq_refl eq_refl eq_refl eq_refl eq_refl)
    as (st1 & out & H1 & _ & H2 & Ha & _).
  exists st1, out. split; [exact H1|]. split; [exact H2|].
  rewrite Ha. reflexivity.
Defined.

(** ** Rate lookups ignore the case of the symbol *)

Lemma toLowerCase_empty (s : string) : toLowerCase s = "" <-> s = "".
Proof.
  destruct s; cbn [toLowerCase]; split; intros H; now try discriminate.
Qed.

(** The rate of a currency code does not depend on its case: asking for
    the lower-cased code, as ingestion stores it, is asking for the code
    itself. *)
Theorem rate_lookup_ignores_case (B : Builtins) (cfg : Config) (E : Env)
    (c : string) (st : Pricing) :
  getUsdRate B cfg E (VStr (toLowerCase c)) st
  = getUsdRate B cfg E (VStr c) st.
Proof.
  unfold getUsdRate. cbn [truthy ToString].
  rewrite toLowerCase_idem.
  destruct (String.eqb_spec (toLowerCase c) "") as [He|Hne];
    destruct (String.eqb_spec c "") as [Hc|Hnc]; try reflexivity.
  - apply (proj1 (toLowerCase_empty c)) in He. contradiction.
  - subst c. now destruct Hne.
Qed.

(** ** Equality of values *)

Lemma same_eq (a b : number) : Num.same a b = true -> a = b.
Proof.
  destruct a as [s1|s1| |s1 m1 e1], b as [s2|s2| |s2 m2 e2];
    cbn [Num.same]; try discriminate; try reflexivity.
  - intros H. apply Bool.eqb_prop in H. now subst.
  - intros H. apply Bool.eqb_prop in H. now subst.
  - intros H. apply andb_prop in H as [H He]. apply andb_prop in H as [Hs Hm].
    apply Bool.eqb_prop in Hs. apply Pos.eqb_eq in Hm. apply Z.eqb_eq in He.
    now subst.
Qed.

Lemma same_refl (a : number) : Num.same a a = true.
Proof.
  destruct a as [s|s| |s m e]; cbn [Num.same];
    rewrite ?Bool.eqb_reflx, ?Pos.eqb_refl, ?Z.eqb_refl; reflexivity.
Qed.

Lemma value_eqb_refl (a : value) : value_eqb a a = true.
Proof.
  induction a as [| | b | n | s | l IH | o IH] using value_nested_ind;
    cbn [value_eqb]; try reflexivity.
  - apply Bool.eqb_reflx.
  - apply same_refl.
  - apply String.eqb_refl.
  - induction IH as [|x r Hx _ IHr]; [reflexivity|]. now rewrite Hx, IHr.
  - induction IH as [|[k x] r Hx _ IHr]; [reflexivity|].
    cbn [snd] in Hx. now rewrite String.eqb_refl, Hx, IHr.
Qed.

Lemma value_eqb_eq (a b : value) : value_eqb a b = true -> a = b.
Proof.
  revert b.
  induction a as [| | x | n | s | l IH | o IH] using value_nested_ind;
    intros [| | y | m | t | l' | o']; cbn [value_eqb];
    try discriminate; try reflexivity.
  - intros H. apply Bool.eqb_prop in H. now subst.
  - intros H. apply same_eq in H. now subst.
  - intros H. apply String.eqb_eq in H. now subst.
  - intros H. f_equal. revert l' H.
    induction IH as [|x r Hx _ IHr]; intros [|y r'] H;
      try discriminate; [reflexivity|].
    apply andb_prop in H as [H1 H2].
    f_equal; [now apply Hx | now apply IHr].
  - intros H. f_equal. revert o' H.
    induction IH as [|[k x] r Hx _ IHr]; intros [|[k' y] r'] H;
      try discriminate; [reflexivity|].
    apply andb_prop in H as [H H2]. apply andb_prop in H as [Hk H1].
    apply String.eqb_eq in Hk. cbn [snd] in Hx.
    f_equal; [f_equal; [exact Hk | now apply Hx] | now apply IHr].
Qed.

(** ** The store *)

Lemma truthy_not_undef (v : value) : truthy v = true -> v <> VUndef.
Proof. intros H ->. discriminate H. Qed.

Lemma get_assign_ne (omit : bool) (d : obj) (kv : string * value)
    (k : string) :
  fst kv <> k -> get (assign omit d kv) k = get d k.
Proof.
  intros Hne. unfold assign.
  destruct (snd kv); try (now apply get_set_ne).
  destruct omit; [reflexivity | now apply get_set_ne].
Qed.

Lemma get_assign_eq (omit : bool) (d : obj) (k : string) (v : value) :
  v <> VUndef -> get (assign omit d (k, v)) k = v.
Proof.
  intros Hv. unfold assign. cbn [fst snd].
  destruct v; try apply get_set_eq. now destruct Hv.
Qed.

Lemma get_apply_set_other (omit : bool) (upd d : obj) (k : string) :
  ~ In k (List.map fst upd) -> get (apply_set omit d upd) k = get d k.
Proof.
  unfold apply_set. revert d.
  induction upd as [|kv r IH]; intros d Hk; [reflexivity|].
  cbn [fold_left]. rewrite IH.
  - apply get_assign_ne. intros He. apply Hk. left. exact He.
  - intros Hin. apply Hk. right. exact Hin.
Qed.

Lemma get_apply_set (omit : bool) (upd d : obj) (k : string) :
  List.NoDup (List.map fst upd) ->
  get upd k <> VUndef ->
  get (apply_set omit d upd) k = get upd k.
Proof.
  unfold apply_set. revert d.
  induction upd as [|[k0 v0] r IH]; intros d Hnd Hv.
  - now destruct Hv.
  - cbn [List.map fst] in Hnd. inversion Hnd as [|? ? Hnotin Hnd']; subst.
    cbn [fold_left]. cbn [get] in Hv |- *.
    destruct (String.eqb_spec k0 k) as [->|Hne].
    + fold (apply_set omit (assign omit d (k, v0)) r).
      rewrite get_apply_set_other by exact Hnotin.
      now apply get_assign_eq.
    + now apply IH.
Qed.

Lemma update_first_none (omit : bool) (key : value) (upd : obj)
    (coll : list obj) :
  List.filter (id_matches key) coll = [] ->
  update_first omit key upd coll = None.
Proof.
  induction coll as [|d r IH]; [reflexivity|].
  cbn [List.filter update_first].
  destruct (id_matches key d); [discriminate|].
  intros H. now rewrite IH.
Qed.

Lemma update_first_some (omit : bool) (key : value) (upd : obj)
    (coll : list obj) (d : obj) (rest : list obj) :
  ~ In "id" (List.map fst upd) ->
  List.filter (id_matches key) coll = d :: rest ->
  exists coll',
    update_first omit key upd coll = Some coll'
    /\ List.filter (id_matches key) coll' = apply_set omit d upd :: rest
    /\ List.length coll' = List.length coll.
Proof.
  intros Hid. induction coll as [|d0 r IH]; [discriminate|].
  cbn [List.filter update_first].
  destruct (id_matches key d0) eqn:Hm.
  - intros [= -> <-]. eexists. split; [reflexivity|].
    cbn [List.filter]. unfold id_matches in *.
    rewrite get_apply_set_other by exact Hid. rewrite Hm.
    split; reflexivity.
  - intros H. destruct (IH H) as (coll' & -> & Hf & Hl).
    eexists. split; [reflexivity|].
    cbn [List.filter List.length]. rewrite Hm. now rewrite Hl.
Qed.

(** An upsert by id leaves exactly one document with that id when there
    was at most one, and that document carries the defined fields of the
    update. *)
Lemma upsert_one (omit : bool) (coll : list obj) (key : value) (upd : obj) :
  key <> VUndef ->
  List.NoDup (List.map fst upd) ->
  ~ In "id" (List.map fst upd) ->
  (count_id key coll <= 1)%nat ->
  exists d,
    List.filter (id_matches key)
      (updateOne_upsert omit coll key [("id", key)] upd) = [d]
    /\ get d "id" = key
    /\ forall k, get upd k <> VUndef -> get d k = get upd k.
Proof.
  intros Hk Hnd Hid Hc. unfold updateOne_upsert, count_id in *.
  destruct (List.filter (id_matches key) coll) as [|d0 rest] eqn:Hf.
  - rewrite (update_first_none omit key upd coll Hf).
    exists (apply_set omit (apply_set omit [("id", key)] [("id", key)]) upd).
    split; [|split].
    + rewrite List.filter_app, Hf. cbn [List.filter app].
      unfold id_matches. rewrite get_apply_set_other by exact Hid.
      unfold apply_set. cbn [fold_left].
      rewrite get_assign_eq by exact Hk.
      now rewrite value_eqb_refl.
    + rewrite get_apply_set_other by exact Hid.
      unfold apply_set. cbn [fold_left].
      apply get_assign_eq. exact Hk.
    + intros k Hv. now apply get_apply_set.
  - destruct rest as [|d1 rest]; [|cbn in Hc; lia].
    destruct (update_first_some omit key upd coll d0 [] Hid Hf)
      as (coll' & -> & Hf' & _).
    exists (apply_set omit d0 upd). split; [exact Hf'|]. split.
    + rewrite get_apply_set_other by exact Hid.
      assert (Hin : In d0 (List.filter (id_matches key) coll))
        by (rewrite Hf; now left).
      apply List.filter_In in Hin as [_ Hm].
      now apply value_eqb_eq.
    + intros k Hv. now apply get_apply_set.
Qed.

Lemma get_apply_set_undef (omit : bool) (upd d : obj) (k : string) :
  List.NoDup (List.map fst upd) ->
  In k (List.map fst upd) ->
  get upd k = VUndef ->
  get (apply_set omit d upd) k = if omit then get d k else VNull.
Proof.
  unfold apply_set. revert d.
  induction upd as [|[k0 v0] r IH]; intros d Hnd Hin Hv; [destruct Hin|].
  cbn [List.map fst] in Hnd, Hin. inversion Hnd as [|? ? Hnotin Hnd']; subst.
  cbn [fold_left]. cbn [get] in Hv.
  destruct (String.eqb_spec k0 k) as [->|Hne].
  - fold (apply_set omit (assign omit d (k, v0)) r).
    rewrite get_apply_set_other by exact Hnotin.
    subst v0. unfold assign. cbn [fst snd].
    destruct omit; [reflexivity | apply get_set_eq].
  - destruct Hin as [He|Hin]; [contradiction|].
    rewrite IH by assumption.
    destruct omit; [|reflexivity]. now apply get_assign_ne.
Qed.

Lemma update_first_none_inv (omit : bool) (key : value) (upd : obj)
    (coll : list obj) :
  update_first omit key upd coll = None ->
  List.filter (id_matches key) coll = [].
Proof.
  induction coll as [|d r IH]; [reflexivity|].
  cbn [update_first List.filter].
  destruct (id_matches key d); [discriminate|].
  destruct (update_first omit key upd r); [discriminate|].
  intros _. now apply IH.
Qed.

Lemma count_update_first (omit : bool) (key0 key : value) (upd : obj)
    (coll coll' : list obj) :
  ~ In "id" (List.map fst upd) ->
  update_first omit key0 upd coll = Some coll' ->
  count_id key coll' = count_id key coll.
Proof.
  intros Hid. unfold count_id. revert coll'.
  induction coll as [|d r IH]; intros coll'; [discriminate|].
  cbn [update_first]. destruct (id_matches key0 d).
  - intros [= <-]. cbn [List.filter]. unfold id_matches.
    rewrite get_apply_set_other by exact Hid.
    now destruct (value_eqb (get d "id") key).
  - destruct (update_first omit key0 upd r) as [r'|]; [|discriminate].
    intros [= <-]. cbn [List.filter].
    destruct (id_matches key d); cbn [List.length]; now rewrite (IH r').
Qed.

(** ** Upserts, in general *)

Lemma update_first_ids (omit : bool) (key : value) (upd : obj)
    (coll coll' : list obj) :
  ~ In "id" (List.map fst upd) ->
  update_first omit key upd coll = Some coll' ->
  ids_of coll' = ids_of coll.
Proof.
  intros Hid. unfold ids_of. revert coll'.
  induction coll as [|d r IH]; intros coll'; [discriminate|].
  cbn [update_first]. destruct (id_matches key d).
  - intros [= <-]. cbn [List.map].
    now rewrite get_apply_set_other by exact Hid.
  - destruct (update_first omit key upd r) as [r'|]; [|discriminate].
    intros [= <-]. cbn [List.map]. now rewrite (IH r').
Qed.

Lemma update_first_some_key (omit : bool) (key : value) (upd : obj)
    (coll coll' : list obj) :
  update_first omit key upd coll = Some coll' -> In key (ids_of coll).
Proof.
  unfold ids_of. revert coll'.
  induction coll as [|d r IH]; intros coll'; [discriminate|].
  cbn [update_first List.map]. destruct (id_matches key d) eqn:Hm.
  - intros _. left. now apply value_eqb_eq.
  - destruct (update_first omit key upd r) as [r'|]; [|discriminate].
    intros _. right. now apply (IH r').
Qed.

Lemma update_first_members (omit : bool) (key : value) (upd : obj)
    (coll coll' : list obj) (x : obj) :
  update_first omit key upd coll = Some coll' ->
  In x coll' -> In x coll \/ exists d, x = apply_set omit d upd.
Proof.
  revert coll'. induction coll as [|d r IH]; intros coll'; [discriminate|].
  cbn [update_first]. destruct (id_matches key d).
  - intros [= <-] [<- | Hin]; [right; eauto | left; now right].
  - destruct (update_first omit key upd r) as [r'|]; [|discriminate].
    intros [= <-] [<- | Hin]; [left; now left|].
    destruct (IH r' eq_refl Hin) as [H | H]; [left; now right | now right].
Qed.

(** The ids of a collection after an upsert: unchanged when a document
    matched, extended by the key otherwise. *)
Lemma upsert_ids (omit : bool) (coll : list obj) (key : value)
    (soi upd : obj) :
  ~ In "id" (List.map fst upd) ->
  get (apply_set omit [("id", key)] soi) "id" = key ->
  In key (ids_of (updateOne_upsert omit coll key soi upd))
  /\ (ids_of (updateOne_upsert omit coll key soi upd) = ids_of coll
      \/ ids_of (updateOne_upsert omit coll key soi upd)
         = (ids_of coll ++ [key])%list).
Proof.
  intros Hid Hsoi. unfold updateOne_upsert.
  destruct (update_first omit key upd coll) as [coll'|] eqn:Hf.
  - rewrite (update_first_ids omit key upd coll coll' Hid Hf).
    split; [|now left]. eapply update_first_some_key, Hf.
  - assert (Hnew : ids_of (coll ++ [apply_set omit
                                      (apply_set omit [("id", key)] soi) upd])
                   = (ids_of coll ++ [key])%list).
    { unfold ids_of. rewrite List.map_app. cbn [List.map].
      now rewrite get_apply_set_other, Hsoi by exact Hid. }
    rewrite Hnew. split; [|now right].
    apply List.in_or_app. right. now left.
Qed.

Lemma upsert_members (omit : bool) (coll : list obj) (key : value)
    (soi upd : obj) (x : obj) :
  In x (updateOne_upsert omit coll key soi upd) ->
  In x coll \/ exists d, x = apply_set omit d upd.
Proof.
  unfold updateOne_upsert.
  destruct (update_first omit key upd coll) as [coll'|] eqn:Hf.
  - now apply update_first_members with (key := key).
  - intros Hin. apply List.in_app_or in Hin as [H | [<- | []]]; eauto.
Qed.

Lemma count_id_ids (key : value) (coll : list obj) :
  count_id key coll
  = List.length (List.filter (fun v => value_eqb v key) (ids_of coll)).
Proof.
  unfold count_id, ids_of, id_matches.
  induction coll as [|d r IH]; [reflexivity|].
  cbn [List.filter List.map].
  destruct (value_eqb (get d "id") key); cbn [List.length]; now rewrite IH.
Qed.

Lemma count_absent (key : value) (l : list value) :
  ~ In key l -> List.filter (fun v => value_eqb v key) l = [].
Proof.
  induction l as [|v r IH]; [reflexivity|]. intros Hn. cbn [List.filter].
  destruct (value_eqb v key) eqn:Hv.
  - apply value_eqb_eq in Hv. destruct Hn. now left.
  - apply IH. intros H. apply Hn. now right.
Qed.

(** An upsert never gives an id a second document. *)
Lemma upsert_keeps_unique (omit : bool) (coll : list obj) (key : value)
    (soi upd : obj) :
  ~ In "id" (List.map fst upd) ->
  get (apply_set omit [("id", key)] soi) "id" = key ->
  (forall k, (count_id k coll <= 1)%nat) ->
  forall k, (count_id k (updateOne_upsert omit coll key soi upd) <= 1)%nat.
Proof.
  intros Hid Hsoi Huniq k. rewrite count_id_ids.
  unfold updateOne_upsert.
  destruct (update_first omit key upd coll) as [coll'|] eqn:Hf.
  - rewrite (update_first_ids omit key upd coll coll' Hid Hf).
    rewrite <- count_id_ids. apply Huniq.
  - unfold ids_of. rewrite List.map_app, List.filter_app, List.length_app.
    cbn [List.map List.filter].
    rewrite get_apply_set_other, Hsoi by exact Hid.
    fold (ids_of coll).
    destruct (value_eqb key k) eqn:Hk; cbn [List.length].
    + apply value_eqb_eq in Hk. subst k.
      apply update_first_none_inv in Hf.
      pose proof (count_id_ids key coll) as Hc. unfold count_id in Hc.
      rewrite Hf in Hc. cbn in Hc. rewrite <- Hc. lia.
    + specialize (Huniq k). rewrite count_id_ids in Huniq. lia.
Qed.

Lemma account_upsert_shape (omit : bool) (key : value) (t : number) :
  get (apply_set omit [("id", key)] [("createdAt", VNum t)]) "id" = key.
Proof. reflexivity. Qed.

Lemma cashout_upsert_shape (omit : bool) (key : value) :
  key <> VUndef ->
  get (apply_set omit [("id", key)] [("id", key)]) "id" = key.
Proof.
  intros Hk. unfold apply_set. cbn [fold_left].
  apply get_assign_eq. exact Hk.
Qed.

Lemma account_update_keys (name : value) (t : number) :
  ~ In "id" (List.map fst [("name", name); ("updatedAt", VNum t)]).
Proof. cbn. intuition discriminate. Qed.

Lemma upsert_filter_other (omit : bool) (coll : list obj) (key0 key : value)
    (upd : obj) :
  key <> key0 ->
  key0 <> VUndef ->
  ~ In "id" (List.map fst upd) ->
  List.filter (id_matches key)
    (updateOne_upsert omit coll key0 [("id", key0)] upd)
  = List.filter (id_matches key) coll.
Proof.
  intros Hne Hk Hid. unfold updateOne_upsert.
  assert (Hmiss : value_eqb key0 key = false).
  { destruct (value_eqb key0 key) eqn:He; [|reflexivity].
    apply value_eqb_eq in He. now destruct Hne. }
  destruct (update_first omit key0 upd coll) as [coll'|] eqn:Hf.
  - revert coll' Hf.
    induction coll as [|d r IH]; intros coll' Hf; [discriminate|].
    cbn [update_first] in Hf. destruct (id_matches key0 d) eqn:Hm.
    + injection Hf as <-. cbn [List.filter]. unfold id_matches in *.
      rewrite get_apply_set_other by exact Hid.
      apply value_eqb_eq in Hm. now rewrite Hm, Hmiss.
    + destruct (update_first omit key0 upd r) as [r'|]; [|discriminate].
      injection Hf as <-. cbn [List.filter]. now rewrite (IH r').
  - rewrite List.filter_app. cbn [List.filter]. unfold id_matches at 2.
    rewrite get_apply_set_other, cashout_upsert_shape, Hmiss
      by assumption.
    apply List.app_nil_r.
Qed.

Lemma upsert_length (omit : bool) (coll : list obj) (key : value)
    (soi upd : obj) :
  List.length (updateOne_upsert omit coll key soi upd) = List.length coll
  \/ List.length (updateOne_upsert omit coll key soi upd)
     = S (List.length coll).
Proof.
  unfold updateOne_upsert.
  destruct (update_first omit key upd coll) as [coll'|] eqn:Hf.
  - left. revert coll' Hf.
    induction coll as [|d r IH]; intros coll' Hf; [discriminate|].
    cbn [update_first] in Hf. destruct (id_matches key d).
    + now injection Hf as <-.
    + destruct (update_first omit key upd r) as [r'|]; [|discriminate].
      injection Hf as <-. cbn [List.length]. now rewrite (IH r').
  - right. rewrite List.length_app. cbn. lia.
Qed.

Lemma upsert_match_other (omit : bool) (coll : list obj) (key : value)
    (upd : obj) (id : string) :
  key <> VUndef ->
  List.NoDup (List.map fst upd) ->
  get upd "accountId" <> VUndef ->
  get upd "accountId" <> VStr id ->
  (forall d, In d coll -> get d "id" = key -> get d "accountId" <> VStr id) ->
  match_account (updateOne_upsert omit coll key [("id", key)] upd) id
  = match_account coll id.
Proof.
  intros Hk Hnd Hdef Hne Hold. unfold updateOne_upsert, match_account.
  assert (Hnew : forall d,
             value_eqb (get (apply_set omit d upd) "accountId") (VStr id)
             = false).
  { intros d. rewrite get_apply_set by assumption.
    destruct (value_eqb _ _) eqn:He; [|reflexivity].
    apply value_eqb_eq in He. contradiction. }
  destruct (update_first omit key upd coll) as [coll'|] eqn:Hf.
  - revert coll' Hf.
    induction coll as [|d r IH]; intros coll' Hf; [discriminate|].
    cbn [update_first] in Hf. destruct (id_matches key d) eqn:Hm.
    + injection Hf as <-. cbn [List.filter]. rewrite Hnew.
      unfold id_matches in Hm. apply value_eqb_eq in Hm.
      destruct (value_eqb (get d "accountId") (VStr id)) eqn:He;
        [|reflexivity].
      apply value_eqb_eq in He. now destruct (Hold d (or_introl eq_refl) Hm).
    + destruct (update_first omit key upd r) as [r'|]; [|discriminate].
      injection Hf as <-. cbn [List.filter].
      rewrite (IH (fun x Hx => Hold x (or_intror Hx)) r' eq_refl).
      reflexivity.
  - rewrite List.filter_app. cbn [List.filter]. rewrite Hnew.
    apply List.app_nil_r.
Qed.

(** An upsert by id leaves exactly one document with that id when there
    was at most one.  That document carries the defined fields of the
    update; a field the update leaves undefined, or does not name, is the
    one the document had before (or that of the inserted document), but
    for an undefined field that is written as [null]. *)
Lemma upsert_one_gen (omit : bool) (coll : list obj) (key : value)
    (soi upd : obj) :
  List.NoDup (List.map fst upd) ->
  ~ In "id" (List.map fst upd) ->
  get (apply_set omit [("id", key)] soi) "id" = key ->
  (count_id key coll <= 1)%nat ->
  exists d,
    List.filter (id_matches key) (updateOne_upsert omit coll key soi upd) = [d]
    /\ get d "id" = key
    /\ (forall k, get upd k <> VUndef -> get d k = get upd k)
    /\ (forall k, ~ In k (List.map fst upd) ->
          get d k
          = match List.filter (id_matches key) coll with
            | d0 :: _ => get d0 k
            | [] => get (apply_set omit [("id", key)] soi) k
            end)
    /\ forall k, In k (List.map fst upd) -> get upd k = VUndef ->
         get d k
         = if omit
           then match List.filter (id_matches key) coll with
                | d0 :: _ => get d0 k
                | [] => get (apply_set omit [("id", key)] soi) k
                end
           else VNull.
Proof.
  intros Hnd Hid Hsoi Hc. unfold updateOne_upsert, count_id in *.
  destruct (List.filter (id_matches key) coll) as [|d0 rest] eqn:Hf.
  - rewrite (update_first_none omit key upd coll Hf).
    exists (apply_set omit (apply_set omit [("id", key)] soi) upd).
    split; [|split; [|split; [|split]]].
    + rewrite List.filter_app, Hf. cbn [List.filter app].
      unfold id_matches. rewrite get_apply_set_other, Hsoi by exact Hid.
      now rewrite value_eqb_refl.
    + now rewrite get_apply_set_other, Hsoi by exact Hid.
    + intros k Hv. now apply get_apply_set.
    + intros k Hk. now apply get_apply_set_other.
    + intros k Hk Hu. now apply get_apply_set_undef.
  - destruct rest as [|d1 rest]; [|cbn in Hc; lia].
    destruct (update_first_some omit key upd coll d0 [] Hid Hf)
      as (coll' & -> & Hf' & _).
    exists (apply_set omit d0 upd). split; [exact Hf'|].
    split; [|split; [|split]].
    + rewrite get_apply_set_other by exact Hid.
      assert (Hin : In d0 (List.filter (id_matches key) coll))
        by (rewrite Hf; now left).
      apply List.filter_In in Hin as [_ Hm].
      now apply value_eqb_eq.
    + intros k Hv. now apply get_apply_set.
    + intros k Hk. now apply get_apply_set_other.
    + intros k Hk Hu. now apply get_apply_set_undef.
Qed.

(** Where the documents of a collection come from after an upsert. *)
Lemma upsert_members_from (omit : bool) (coll : list obj) (key : value)
    (soi upd : obj) (x : obj) :
  In x (updateOne_upsert omit coll key soi upd) ->
  In x coll
  \/ (exists d, In d coll /\ x = apply_set omit d upd)
  \/ x = apply_set omit (apply_set omit [("id", key)] soi) upd.
Proof.
  unfold updateOne_upsert.
  destruct (update_first omit key upd coll) as [coll'|] eqn:Hf.
  - revert coll' Hf.
    induction coll as [|d r IH]; intros coll' Hf; [discriminate|].
    cbn [update_first] in Hf. destruct (id_matches key d).
    + injection Hf as <-. intros [<- | Hin].
      * right. left. exists d. split; [now left | reflexivity].
      * left. now right.
    + destruct (update_first omit key upd r) as [r'|]; [|discriminate].
      injection Hf as <-. intros [<- | Hin]; [left; now left|].
      destruct (IH r' eq_refl Hin) as [H | [(d0 & Hd0 & ->) | H]].
      * left. now right.
      * right. left. exists d0. split; [now right | reflexivity].
      * right. now right.
  - intros Hin. apply List.in_app_or in Hin as [H | [<- | []]]; auto.
Qed.

(** ** Updates that absorb one another *)

Lemma set_set_same (o : obj) (k : string) (v1 v2 : value) :
  set (set o k v1) k v2 = set o k v2.
Proof.
  induction o as [|[k0 v0] r IH]; cbn [set].
  - now rewrite String.eqb_refl.
  - destruct (String.eqb k0 k) eqn:Hk; cbn [set].
    + now rewrite String.eqb_refl.
    + now rewrite Hk, IH.
Qed.

Lemma set_set_comm (o : obj) (k k' : string) (v v' : value) :
  k <> k' -> has_key o k = true ->
  set (set o k' v') k v = set (set o k v) k' v'.
Proof.
  intros Hne. induction o as [|[k0 v0] r IH]; [discriminate|].
  cbn [has_key set]. intros Hk.
  assert (Hkk : String.eqb k k' = false) by now apply String.eqb_neq.
  assert (Hkk' : String.eqb k' k = false)
    by (apply String.eqb_neq; congruence).
  destruct (String.eqb k0 k) eqn:E0, (String.eqb k0 k') eqn:E1; cbn [set].
  - apply String.eqb_eq in E0, E1. congruence.
  - apply String.eqb_eq in E0. subst k0.
    now rewrite String.eqb_refl, Hkk.
  - apply String.eqb_eq in E1. subst k0.
    now rewrite String.eqb_refl, Hkk'.
  - rewrite E0, E1. cbn [orb] in Hk. now rewrite IH.
Qed.

Lemma assign_absorb (omit : bool) (d : obj) (k : string) (v1 v2 : value) :
  (v1 = VUndef <-> v2 = VUndef) ->
  assign omit (assign omit d (k, v1)) (k, v2) = assign omit d (k, v2).
Proof.
  intros Hu. unfold assign. cbn [fst snd].
  destruct v1, v2, omit; try reflexivity; try apply set_set_same;
    exfalso;
    first [ now apply Hu
          | assert (H : VUndef = VUndef) by reflexivity;
            apply Hu in H; discriminate ].
Qed.

Lemma assign_comm (omit : bool) (d : obj) (k k' : string) (v v' : value) :
  k <> k' ->
  (v = VUndef /\ omit = true) \/ has_key d k = true ->
  assign omit (assign omit d (k', v')) (k, v)
  = assign omit (assign omit d (k, v)) (k', v').
Proof.
  intros Hne [[-> ->] | Hk].
  - reflexivity.
  - unfold assign. cbn [fst snd].
    destruct v, v', omit; try reflexivity; now apply set_set_comm.
Qed.

Lemma has_key_set (o : obj) (k k' : string) (v : value) :
  has_key (set o k v) k' = String.eqb k k' || has_key o k'.
Proof.
  induction o as [|[k0 v0] r IH]; cbn [set has_key].
  - reflexivity.
  - destruct (String.eqb_spec k0 k) as [->|Hk0]; cbn [has_key].
    + destruct (String.eqb k k'); reflexivity.
    + rewrite IH. destruct (String.eqb k0 k'), (String.eqb k k'); reflexivity.
Qed.

Lemma has_key_assign (omit : bool) (d : obj) (kv : string * value)
    (k : string) :
  has_key d k = true -> has_key (assign omit d kv) k = true.
Proof.
  intros Hk. unfold assign.
  destruct (snd kv), omit; try exact Hk; rewrite has_key_set, Hk;
    apply orb_true_r.
Qed.

Lemma assign_apply_set (omit : bool) (r : obj) (d : obj) (k : string)
    (v : value) :
  ~ In k (List.map fst r) ->
  (v = VUndef /\ omit = true) \/ has_key d k = true ->
  assign omit (apply_set omit d r) (k, v)
  = apply_set omit (assign omit d (k, v)) r.
Proof.
  unfold apply_set. revert d.
  induction r as [|[k' v'] r IH]; intros d Hk Hd; [reflexivity|].
  cbn [fold_left]. rewrite IH.
  - f_equal. apply assign_comm; [|exact Hd].
    intros ->. apply Hk. now left.
  - intros Hin. apply Hk. now right.
  - destruct Hd as [Hd | Hd]; [now left | right].
    now apply has_key_assign.
Qed.

Lemma has_key_after_assign (omit : bool) (d : obj) (k : string) (v : value) :
  (v = VUndef /\ omit = true) \/ has_key (assign omit d (k, v)) k = true.
Proof.
  unfold assign. cbn [fst snd].
  destruct v, omit; try (left; now split); right;
    rewrite has_key_set, String.eqb_refl; reflexivity.
Qed.

Lemma apply_set_absorb (omit : bool) (u1 u2 : obj) (d : obj) :
  same_keys u1 u2 ->
  List.NoDup (List.map fst u1) ->
  apply_set omit (apply_set omit d u1) u2 = apply_set omit d u2.
Proof.
  intros Hs. revert d.
  induction Hs as [|[k v1] [k2 v2] r1 r2 [Hk Hu] Hs IH]; intros d Hnd;
    [reflexivity|].
  cbn [fst snd] in Hk, Hu. subst k2.
  cbn [List.map fst] in Hnd. inversion Hnd as [|? ? Hnotin Hnd']; subst.
  unfold apply_set in *. cbn [fold_left].
  change (fold_left (assign omit) r1 (assign omit d (k, v1)))
    with (apply_set omit (assign omit d (k, v1)) r1).
  rewrite assign_apply_set.
  - rewrite assign_absorb by exact Hu. unfold apply_set. now apply IH.
  - exact Hnotin.
  - destruct (has_key_after_assign omit (assign omit d (k, v1)) k v2)
      as [H | H]; [now left|].
    destruct (has_key_after_assign omit d k v1) as [[-> ->] | H1].
    + left. split; [now apply Hu | reflexivity].
    + now right.
Qed.

Lemma update_first_twice (omit : bool) (key : value) (u1 u2 : obj)
    (coll coll1 : list obj) :
  same_keys u1 u2 ->
  List.NoDup (List.map fst u1) ->
  ~ In "id" (List.map fst u1) ->
  update_first omit key u1 coll = Some coll1 ->
  update_first omit key u2 coll1 = update_first omit key u2 coll.
Proof.
  intros Hs Hnd Hid. revert coll1.
  induction coll as [|d r IH]; intros coll1; [discriminate|].
  cbn [update_first]. destruct (id_matches key d) eqn:Hm.
  - intros [= <-]. cbn [update_first]. unfold id_matches in *.
    rewrite get_apply_set_other, Hm by exact Hid.
    now rewrite apply_set_absorb.
  - destruct (update_first omit key u1 r) as [r1|]; [|discriminate].
    intros [= <-]. cbn [update_first]. rewrite Hm.
    now rewrite (IH r1).
Qed.

Lemma update_first_appended (omit : bool) (key : value) (u : obj)
    (coll : list obj) (d : obj) :
  update_first omit key u coll = None ->
  id_matches key d = true ->
  update_first omit key u (coll ++ [d])%list
  = Some (coll ++ [apply_set omit d u])%list.
Proof.
  intros Hnone Hd. induction coll as [|d0 r IH]; cbn [update_first app].
  - now rewrite Hd.
  - cbn [update_first] in Hnone. destruct (id_matches key d0); [discriminate|].
    destruct (update_first omit key u r); [discriminate|].
    now rewrite IH.
Qed.

Lemma update_first_none_same (omit : bool) (key : value) (u1 u2 : obj)
    (coll : list obj) :
  update_first omit key u1 coll = None ->
  update_first omit key u2 coll = None.
Proof.
  induction coll as [|d r IH]; [reflexivity|]. cbn [update_first].
  destruct (id_matches key d); [discriminate|].
  destruct (update_first omit key u1 r); [discriminate|].
  intros _. now rewrite IH.
Qed.

Lemma upsert_twice (omit : bool) (coll : list obj) (key : value)
    (u1 u2 : obj) :
  key <> VUndef ->
  same_keys u1 u2 ->
  List.NoDup (List.map fst u1) ->
  ~ In "id" (List.map fst u1) ->
  updateOne_upsert omit (updateOne_upsert omit coll key [("id", key)] u1)
    key [("id", key)] u2
  = updateOne_upsert omit coll key [("id", key)] u2.
Proof.
  intros Hk Hs Hnd Hid. unfold updateOne_upsert.
  destruct (update_first omit key u1 coll) as [coll1|] eqn:H1.
  - rewrite (update_first_twice omit key u1 u2 coll coll1 Hs Hnd Hid H1).
    destruct (update_first omit key u2 coll) as [coll2|] eqn:H2;
      [reflexivity|].
    apply (update_first_none_same omit key u2 u1) in H2. congruence.
  - rewrite (update_first_none_same omit key u1 u2 coll H1).
    rewrite (update_first_appended omit key u2 coll _
               (update_first_none_same omit key u1 u2 coll H1)).
    + now rewrite apply_set_absorb.
    + unfold id_matches.
      rewrite get_apply_set_other, cashout_upsert_shape by assumption.
      apply value_eqb_refl.
Qed.

(** ** Casts *)

Lemma castString_scalar (B : Builtins) (v : value) :
  scalar v = true -> castString B v = Returned (VStr (ToString B v)).
Proof. destruct v; try discriminate; reflexivity. Qed.

Lemma castString_truthy (B : Builtins) (v k : value) :
  truthy v = true -> castString B v = Returned k -> exists i, k = VStr i.
Proof.
  destruct v as [| | b | n | s | l | o]; cbn [truthy castString];
    try discriminate; intros _.
  - intros [= <-]. eauto.
  - intros [= <-]. eauto.
  - intros [= <-]. eauto.
  - destruct (get o "_id") as [| | | | i | |]; try discriminate.
    destruct (String.eqb i ""); [discriminate|]. intros [= <-]. eauto.
Qed.

Lemma castString_lowered (B : Builtins) (v : value) :
  castString B (lowered v) = Returned (lowered v).
Proof. now destruct v. Qed.

Lemma castNumber_number (B : Builtins) (n : number) :
  castNumber B (VNum n)
  = if Num.is_nan n then Thrown CastError else Returned (VNum n).
Proof. reflexivity. Qed.

(** A Number field a cast lets through is the Number it was given, and
    not [NaN]; an [undefined] one stays [undefined]. *)
Lemma castNumber_optional (B : Builtins) (v w : value) :
  castNumber B (numeric_or_undefined v) = Returned w ->
  (is_number v = true /\ w = v /\ numeric v = true)
  \/ (is_number v = false /\ w = VUndef).
Proof.
  unfold numeric_or_undefined.
  destruct v as [| | b | n | s | l | o]; cbn [is_number];
    try (intros [= <-]; right; now split).
  rewrite castNumber_number. cbn [numeric].
  destruct (Num.is_nan n); [discriminate|].
  intros [= <-]. left. now repeat split.
Qed.

Lemma cast_undef (B : Builtins) (ty : SchemaType) (v w : value) :
  cast B ty v = Returned w -> (v = VUndef <-> w = VUndef).
Proof.
  destruct ty; cbn [cast]; try (intros [= <-]; tauto).
  - destruct v as [| | b | n | s | l | o]; cbn [castString];
      try (intros [= <-]; split; congruence); try discriminate.
    destruct (get o "_id") as [| | | | i | |]; try discriminate.
    destruct (String.eqb i ""); [discriminate|].
    intros [= <-]; split; congruence.
  - destruct v as [| | b | n | s | l | o]; try discriminate;
      try (intros [= <-]; split; congruence).
    + cbn [castNumber]. destruct (Num.is_nan _); [discriminate|].
      intros [= <-]; split; congruence.
    + rewrite castNumber_number. destruct (Num.is_nan n); [discriminate|].
      intros [= <-]; split; congruence.
    + destruct s as [|c s]; [intros [= <-]; split; congruence|].
      cbn [castNumber]. destruct (Num.is_nan _); [discriminate|].
      intros [= <-]; split; congruence.
Qed.

Lemma same_keys_fst (u1 u2 : obj) :
  same_keys u1 u2 -> List.map fst u1 = List.map fst u2.
Proof.
  induction 1 as [|kv1 kv2 r1 r2 [Hk _] _ IH]; [reflexivity|].
  cbn [List.map]. now rewrite Hk, IH.
Qed.

Lemma same_keys_sym (u1 u2 : obj) : same_keys u1 u2 -> same_keys u2 u1.
Proof.
  induction 1 as [|kv1 kv2 r1 r2 [Hk Hu] _ IH]; constructor; [|exact IH].
  split; [now symmetry | tauto].
Qed.

Lemma same_keys_trans (u1 u2 u3 : obj) :
  same_keys u1 u2 -> same_keys u2 u3 -> same_keys u1 u3.
Proof.
  intros H. revert u3.
  induction H as [|kv1 kv2 r1 r2 [Hk Hu] _ IH]; intros u3 H23;
    inversion H23 as [|? kv3 ? r3 [Hk' Hu'] Hr]; subst; constructor.
  - split; [congruence | tauto].
  - now apply IH.
Qed.

Lemma castUpdate_same_keys (B : Builtins)
    (schema : list (string * SchemaType)) (upd u : obj) :
  declared schema upd = true ->
  castUpdate B schema upd = Returned u ->
  same_keys upd u.
Proof.
  revert u. induction upd as [|[k v] r IH]; intros u Hd.
  - intros [= <-]. constructor.
  - cbn [declared forallb fst] in Hd. cbn [castUpdate].
    destruct (path_type schema k) as [ty|]; [|discriminate].
    cbn [andb] in Hd.
    destruct (cast B ty v) as [w|] eqn:Hc; cbn [bind]; [|discriminate].
    destruct (castUpdate B schema r) as [r'|]; cbn [bind]; [|discriminate].
    intros [= <-]. constructor; [|now apply IH].
    split; [reflexivity | exact (cast_undef B ty v w Hc)].
Qed.

Lemma castUpdate_get (B : Builtins) (schema : list (string * SchemaType))
    (upd u : obj) (k : string) (ty : SchemaType) :
  declared schema upd = true ->
  castUpdate B schema upd = Returned u ->
  path_type schema k = Some ty ->
  In k (List.map fst upd) ->
  cast B ty (get upd k) = Returned (get u k).
Proof.
  revert u. induction upd as [|[k0 v0] r IH]; intros u Hd Hu Hty Hin;
    [destruct Hin|].
  cbn [declared forallb fst] in Hd. cbn [castUpdate] in Hu.
  destruct (path_type schema k0) as [ty0|] eqn:Hty0; [|discriminate].
  cbn [andb] in Hd.
  destruct (cast B ty0 v0) as [w|] eqn:Hc; cbn [bind] in Hu; [|discriminate].
  destruct (castUpdate B schema r) as [r'|] eqn:Hr; cbn [bind] in Hu;
    [|discriminate].
  injection Hu as <-. cbn [get].
  destruct (String.eqb_spec k0 k) as [->|Hne].
  - rewrite Hty in Hty0. injection Hty0 as <-. exact Hc.
  - apply (IH r'); try assumption; try reflexivity.
    destruct Hin as [Hk | Hin]; [now destruct Hne | exact Hin].
Qed.

Lemma castUpdate_succeeds (B : Builtins)
    (schema : list (string * SchemaType)) (upd : obj) :
  declared schema upd = true ->
  succeeds (castUpdate B schema upd)
  = forallb (fun kv => match path_type schema (fst kv) with
                       | Some ty => succeeds (cast B ty (snd kv))
                       | None => true
                       end) upd.
Proof.
  induction upd as [|[k v] r IH]; intros Hd; [reflexivity|].
  cbn [declared forallb fst snd] in Hd |- *. cbn [castUpdate].
  destruct (path_type schema k) as [ty|]; [|discriminate].
  cbn [andb] in Hd. rewrite <- (IH Hd).
  destruct (cast B ty v); cbn [bind succeeds andb]; [|reflexivity].
  destruct (castUpdate B schema r); reflexivity.
Qed.

(** ** The two writes *)

Lemma upsert_account_stage (B : Builtins) (omit : bool) (db : Db)
    (id name : value) (t : number) :
  upsert_account B omit db id name t
  = (k <- castString B id ;;
     n <- castString B name ;;
     Returned (account_written omit db k n t)).
Proof.
  unfold upsert_account, updateOne, account_written.
  destruct (castString B id) as [k|]; cbn [bind]; [|reflexivity].
  cbn [castUpdate path_type AccountSchema String.eqb Ascii.eqb Bool.eqb
         cast bind].
  destruct (castString B name) as [n|]; reflexivity.
Qed.

Lemma upsert_cashout_stage (B : Builtins) (omit : bool) (db : Db)
    (id : value) (upd : obj) :
  upsert_cashout B omit db id upd
  = (k <- castString B id ;;
     u <- castUpdate B CashoutSchema upd ;;
     Returned (cashout_written omit db k u)).
Proof.
  unfold upsert_cashout, updateOne, cashout_written.
  cbn [castUpdate path_type CashoutSchema String.eqb Ascii.eqb Bool.eqb
         cast].
  destruct (castString B id) as [k|]; cbn [bind]; [|reflexivity].
  destruct (castUpdate B CashoutSchema upd); reflexivity.
Qed.

(** ** The update document of a payload *)

Lemma opt_toLowerCase_lowered (v : value) :
  lowers v = true ->
  exists g, opt_toLowerCase v = Returned g /\ js_coalesce g VNull = lowered v.
Proof. destruct v; try discriminate; intros _; eexists; split; reflexivity. Qed.

Lemma opt_toLowerCase_throws (v : value) :
  lowers v = false -> exists m, opt_toLowerCase v = Thrown m.
Proof. destruct v; try discriminate; intros _; eexists; reflexivity. Qed.

(** The handler's [$set] document is the one read off the payload; it is
    built unless [toLowerCase] throws. *)
Lemma set_document_shape (B : Builtins) (s : shape) (b : value) (t : number) :
  (lowers (game_arg s b) && lowers (currency_arg s b) = true
   /\ set_document B s b t = Returned (update_of_payload B s b t))
  \/ (lowers (game_arg s b) && lowers (currency_arg s b) = false
      /\ exists m, set_document B s b t = Thrown m).
Proof.
  unfold set_document, update_of_payload. cbv zeta. destruct s.
  - unfold cashouts_update, game_arg, currency_arg. cbv zeta.
    destruct (lowers (get_prop (get_prop (js_or b (VObj [])) "minesCashout")
                        "game")) eqn:Hg.
    + destruct (opt_toLowerCase_lowered _ Hg) as (g & -> & Hgl).
      cbn [bind andb].
      destruct (lowers (get_prop (get_prop (js_or b (VObj []))
                                    "minesCashout") "currency")) eqn:Hc.
      * destruct (opt_toLowerCase_lowered _ Hc) as (c & -> & Hcl).
        cbn [bind]. left. split; [reflexivity|].
        rewrite Hgl, Hcl. reflexivity.
      * destruct (opt_toLowerCase_throws _ Hc) as (m & ->).
        right. split; [reflexivity|]. now exists m.
    + destruct (opt_toLowerCase_throws _ Hg) as (m & ->).
      right. split; [reflexivity|]. now exists m.
  - unfold flatten, game_arg, currency_arg. cbv zeta.
    destruct (opt_toLowerCase_lowers
                (js_or (js_or (get_prop (js_or b (VObj [])) "game")
                          (preview (js_or b (VObj [])) "game"))
                   (VStr "mines"))) as [(g & Hg & Hgl) | (m & Hg & Hgl)];
      rewrite Hg, Hgl; cbn [bind andb];
      [|right; split; [reflexivity | now exists m]].
    destruct (call_toLowerCase_lowers
                (js_or (js_or (get_prop (js_or b (VObj [])) "currency")
                          (preview (js_or b (VObj [])) "currency"))
                   (VStr "")) (js_or_default _ _))
      as [(c & Hc & Hcl) | (m & Hc & Hcl)];
      rewrite Hc, Hcl; cbn [bind];
      [|right; split; [reflexivity | now exists m]].
    left. split; [reflexivity|]. unfold cashout_update.
    cbn [get String.eqb Ascii.eqb Bool.eqb].
    repeat f_equal.
    + destruct (js_or_default
                  (js_or (get_prop (js_or b (VObj [])) "game")
                     (preview (js_or b (VObj [])) "game")) (VStr "mines"))
        as [Ht | Heq].
      * destruct (js_or _ (VStr "mines")); cbn in Hg, Hgl, Ht |- *;
          try discriminate; now injection Hg as <-.
      * rewrite Heq in Hg |- *. now injection Hg as <-.
    + destruct (js_or _ (VStr "")); cbn in Hc, Hcl |- *;
        try discriminate; now injection Hc as <-.
Qed.

(** ** A request, stage by stage *)

(** A request is answered in stages: the check of the ids (and, on the
    flattened endpoint before it, the building of the record), the
    account's upsert, and the cashout's upsert.  A stage that throws ends
    the request with 500 and leaves what the stages before it wrote. *)
Lemma ingest_spec (B : Builtins) (omit : bool) (s : shape) (b : value)
    (t : number) (db : Db) :
  ingest B omit s b t db
  = let ids := truthy (cashout_id s b) && truthy (account_id s b) in
    let text := lowers (game_arg s b) && lowers (currency_arg s b) in
    let write :=
      match account_stage B omit s b t db with
      | Thrown _ => (json_error 500 "server", db)
      | Returned db1 =>
          match cashout_stage B omit s b t db1 with
          | Thrown _ => (json_error 500 "server", db1)
          | Returned db2 => (accepted s b, db2)
          end
      end in
    match s with
    | Nested =>
        if negb ids
        then (json_error 400 "missing minesCashout.id or user.id", db)
        else write
    | Flat =>
        if negb text then (json_error 500 "server", db)
        else if negb ids then (json_error 400 "missing id or accountId", db)
        else write
    end.
Proof.
  cbv zeta. destruct s; cbn [ingest].
  - unfold post_cashouts, account_stage, cashout_stage, cast_document,
      set_document, accepted.
    cbn [cashout_id account_id account_name].
    destruct (truthy (get_prop (get_prop (js_or b (VObj [])) "minesCashout")
                        "id")); cbn [negb orb andb]; [|reflexivity].
    destruct (truthy (get_prop (get_prop (js_or b (VObj [])) "user") "id"));
      cbn [negb]; [|reflexivity].
    rewrite upsert_account_stage.
    destruct (castString B (get_prop (get_prop (js_or b (VObj [])) "user")
                              "id")) as [k|]; cbn [bind]; [|reflexivity].
    destruct (castString B (js_coalesce _ VNull)) as [n|]; cbn [bind];
      [|reflexivity].
    destruct (cashouts_update B _ _ b t) as [upd|]; cbn [bind];
      [|reflexivity].
    rewrite upsert_cashout_stage.
    destruct (castString B _) as [kc|], (castUpdate B CashoutSchema upd);
      reflexivity.
  - unfold post_cashout, account_stage, cashout_stage, cast_document,
      set_document, accepted, flatten.
    cbn [cashout_id account_id account_name game_arg currency_arg].
    cbv zeta.
    destruct (opt_toLowerCase_lowers
                (js_or (js_or (get_prop (js_or b (VObj [])) "game")
                          (preview (js_or b (VObj [])) "game"))
                   (VStr "mines"))) as [(g & -> & ->) | (m & -> & ->)];
      cbn [bind andb negb]; [|reflexivity].
    destruct (call_toLowerCase_lowers
                (js_or (js_or (get_prop (js_or b (VObj [])) "currency")
                          (preview (js_or b (VObj [])) "currency"))
                   (VStr "")) (js_or_default _ _))
      as [(c & -> & ->) | (m & -> & ->)];
      cbn [bind andb negb]; [|reflexivity].
    cbn [get String.eqb Ascii.eqb Bool.eqb].
    destruct (truthy (js_or (js_or (get_prop (js_or b (VObj [])) "id")
                               (get_prop (js_or b (VObj [])) "cashoutId"))
                        (preview (js_or b (VObj [])) "id")));
      cbn [negb orb andb]; [|reflexivity].
    destruct (truthy _); cbn [negb]; [|reflexivity].
    rewrite upsert_account_stage.
    destruct (castString B _) as [k|]; cbn [bind]; [|reflexivity].
    destruct (castString B _) as [n|]; cbn [bind]; [|reflexivity].
    rewrite upsert_cashout_stage.
    destruct (castString B _) as [kc|], (castUpdate B CashoutSchema _);
      reflexivity.
Qed.

Lemma update_of_payload_declared (B : Builtins) (s : shape) (b : value)
    (t : number) :
  declared CashoutSchema (update_of_payload B s b t) = true.
Proof. destruct s; reflexivity. Qed.

Lemma update_of_payload_keys (B : Builtins) (s : shape) (b : value)
    (t : number) :
  List.NoDup (List.map fst (update_of_payload B s b t))
  /\ ~ In "id" (List.map fst (update_of_payload B s b t))
  /\ forall k,
       In k ["accountId"; "game"; "currency"; "payout"; "amount";
             "payoutMultiplier"; "amountMultiplier"; "payoutUSD";
             "amountUSD"; "updatedAt"; "rawJson"; "capturedAt"] ->
       In k (List.map fst (update_of_payload B s b t)).
Proof.
  destruct s; cbn [update_of_payload List.map fst];
    (split; [nodup_keys | split; [cbn; intuition discriminate|]]);
    intros k Hk; cbn in Hk |- *; intuition.
Qed.

Lemma cast_document_eq (B : Builtins) (s : shape) (b : value) (t : number) :
  (lowers (game_arg s b) && lowers (currency_arg s b) = true
   /\ cast_document B s b t
      = castUpdate B CashoutSchema (update_of_payload B s b t))
  \/ (lowers (game_arg s b) && lowers (currency_arg s b) = false
      /\ exists m, cast_document B s b t = Thrown m).
Proof.
  unfold cast_document.
  destruct (set_document_shape B s b t) as [[Ht ->] | [Ht [m ->]]].
  - left. now split.
  - right. split; [exact Ht | now exists m].
Qed.

(** What reaches the server as [$set], field by field. *)
Lemma cast_document_fields (B : Builtins) (s : shape) (b : value)
    (t : number) (u : obj) :
  cast_document B s b t = Returned u ->
  lowers (game_arg s b) && lowers (currency_arg s b) = true
  /\ same_keys (update_of_payload B s b t) u
  /\ List.NoDup (List.map fst u)
  /\ ~ In "id" (List.map fst u)
  /\ castString B (account_id s b) = Returned (get u "accountId")
  /\ get u "game" = lowered (game_arg s b)
  /\ get u "currency" = lowered (currency_arg s b)
  /\ (forall k,
         In k ["payout"; "amount"; "payoutMultiplier"; "amountMultiplier"] ->
         get u k = VNum (ToNumber B (payload_crypto s b k))
         /\ numeric (get u k) = true)
  /\ (forall k,
         In k ["payoutUSD"; "amountUSD"] ->
         castNumber B (numeric_or_undefined (payload_usd s b k))
         = Returned (get u k))
  /\ castString B (payload_updatedAt s b) = Returned (get u "updatedAt")
  /\ get u "rawJson" = payload_raw s b
  /\ get u "capturedAt" = VNum t.
Proof.
  intros Hu.
  destruct (cast_document_eq B s b t) as [[Ht He] | [_ [m He]]];
    [|congruence].
  rewrite He in Hu. clear He.
  pose proof (update_of_payload_declared B s b t) as Hd.
  destruct (update_of_payload_keys B s b t) as (Hnd & Hid & Hkeys).
  pose proof (castUpdate_same_keys B _ _ _ Hd Hu) as Hs.
  pose proof (same_keys_fst _ _ Hs) as Hfst.
  assert (Hget : forall k ty,
             path_type CashoutSchema k = Some ty ->
             In k ["accountId"; "game"; "currency"; "payout"; "amount";
                   "payoutMultiplier"; "amountMultiplier"; "payoutUSD";
                   "amountUSD"; "updatedAt"; "rawJson"; "capturedAt"] ->
             cast B ty (get (update_of_payload B s b t) k)
             = Returned (get u k)).
  { intros k ty Hty Hk. apply (castUpdate_get B CashoutSchema); auto. }
  split; [exact Ht|]. split; [exact Hs|].
  split; [now rewrite <- Hfst|]. split; [now rewrite <- Hfst|].
  assert (Hnum : forall k,
             In k ["payout"; "amount"; "payoutMultiplier";
                   "amountMultiplier"] ->
             get u k = VNum (ToNumber B (payload_crypto s b k))
             /\ numeric (get u k) = true).
  { intros k Hk.
    assert (Hc : castNumber B (VNum (ToNumber B (payload_crypto s b k)))
                 = Returned (get u k)).
    { cbn in Hk.
      destruct Hk as [<- | [<- | [<- | [<- | []]]]];
        [ rewrite <- (Hget "payout" TNumber eq_refl) by (cbn; tauto)
        | rewrite <- (Hget "amount" TNumber eq_refl) by (cbn; tauto)
        | rewrite <- (Hget "payoutMultiplier" TNumber eq_refl)
            by (cbn; tauto)
        | rewrite <- (Hget "amountMultiplier" TNumber eq_refl)
            by (cbn; tauto) ];
        destruct s; reflexivity. }
    rewrite castNumber_number in Hc.
    destruct (Num.is_nan (ToNumber B (payload_crypto s b k))) eqn:Hn;
      [discriminate|].
    injection Hc as <-. cbn [numeric]. now rewrite Hn. }
  assert (Husd : forall k,
             In k ["payoutUSD"; "amountUSD"] ->
             castNumber B (numeric_or_undefined (payload_usd s b k))
             = Returned (get u k)).
  { intros k Hk. cbn in Hk.
    destruct Hk as [<- | [<- | []]];
      [ rewrite <- (Hget "payoutUSD" TNumber eq_refl) by (cbn; tauto)
      | rewrite <- (Hget "amountUSD" TNumber eq_refl) by (cbn; tauto) ];
      destruct s; reflexivity. }
  split.
  { rewrite <- (Hget "accountId" TString eq_refl) by (cbn; tauto).
    destruct s; reflexivity. }
  split.
  { assert (H : castString B (lowered (game_arg s b))
                = Returned (get u "game")).
    { rewrite <- (Hget "game" TString eq_refl) by (cbn; tauto).
      destruct s; reflexivity. }
    rewrite castString_lowered in H. now injection H. }
  split.
  { assert (H : castString B (lowered (currency_arg s b))
                = Returned (get u "currency")).
    { rewrite <- (Hget "currency" TString eq_refl) by (cbn; tauto).
      destruct s; reflexivity. }
    rewrite castString_lowered in H. now injection H. }
  split; [exact Hnum|]. split; [exact Husd|].
  split.
  { rewrite <- (Hget "updatedAt" TString eq_refl) by (cbn; tauto).
    destruct s; reflexivity. }
  split.
  { assert (H : Returned (payload_raw s b) = Returned (get u "rawJson")).
    { rewrite <- (Hget "rawJson" TObject eq_refl) by (cbn; tauto).
      destruct s; reflexivity. }
    now injection H. }
  assert (H : Returned (VNum t) = Returned (get u "capturedAt")).
  { rewrite <- (Hget "capturedAt" TDate eq_refl) by (cbn; tauto).
    destruct s; reflexivity. }
  now injection H.
Qed.

(** The three ways a request ends: nothing written; the account written
    and the cashout refused; both written. *)
Lemma ingest_cases (B : Builtins) (omit : bool) (s : shape) (b : value)
    (t : number) (db : Db) :
  (snd (ingest B omit s b t db) = db
   /\ status (fst (ingest B omit s b t db)) <> 200%nat)
  \/ (truthy (cashout_id s b) = true /\ truthy (account_id s b) = true
      /\ exists k n,
          castString B (account_id s b) = Returned k
          /\ castString B (account_name s b) = Returned n
          /\ ((status (fst (ingest B omit s b t db)) = 500%nat
               /\ succeeds (cashout_stage B omit s b t
                              (account_written omit db k n t)) = false
               /\ snd (ingest B omit s b t db)
                  = account_written omit db k n t)
              \/ (fst (ingest B omit s b t db) = accepted s b
                  /\ exists u kc,
                      cast_document B s b t = Returned u
                      /\ castString B (cashout_id s b) = Returned kc
                      /\ snd (ingest B omit s b t db)
                         = cashout_written omit
                             (account_written omit db k n t) kc u))).
Proof.
  rewrite (ingest_spec B omit s b t db). cbv zeta.
  assert (Hw :
    truthy (cashout_id s b) && truthy (account_id s b) = true ->
    let r := match account_stage B omit s b t db with
             | Thrown _ => (json_error 500 "server", db)
             | Returned db1 =>
                 match cashout_stage B omit s b t db1 with
                 | Thrown _ => (json_error 500 "server", db1)
                 | Returned db2 => (accepted s b, db2)
                 end
             end in
    (snd r = db /\ status (fst r) <> 200%nat)
    \/ (truthy (cashout_id s b) = true /\ truthy (account_id s b) = true
        /\ exists k n,
            castString B (account_id s b) = Returned k
            /\ castString B (account_name s b) = Returned n
            /\ ((status (fst r) = 500%nat
                 /\ succeeds (cashout_stage B omit s b t
                                (account_written omit db k n t)) = false
                 /\ snd r = account_written omit db k n t)
                \/ (fst r = accepted s b
                    /\ exists u kc,
                        cast_document B s b t = Returned u
                        /\ castString B (cashout_id s b) = Returned kc
                        /\ snd r = cashout_written omit
                                     (account_written omit db k n t) kc u)))).
  { intros Hids r. subst r. apply andb_prop in Hids as [Hc Ha].
    unfold account_stage.
    destruct (castString B (account_id s b)) as [k|] eqn:Hk; cbn [bind];
      [|left; split; [reflexivity | discriminate]].
    destruct (castString B (account_name s b)) as [n|] eqn:Hn; cbn [bind];
      [|left; split; [reflexivity | discriminate]].
    right. split; [exact Hc|]. split; [exact Ha|]. exists k, n.
    split; [reflexivity|]. split; [reflexivity|].
    destruct (cashout_stage B omit s b t (account_written omit db k n t))
      as [db2|] eqn:Hst; [right | left; now repeat split].
    split; [reflexivity|]. unfold cashout_stage in Hst.
    destruct (cast_document B s b t) as [u|]; cbn [bind] in Hst;
      [|discriminate].
    destruct (castString B (cashout_id s b)) as [kc|]; cbn [bind] in Hst;
      [|discriminate].
    injection Hst as <-. now exists u, kc. }
  destruct s.
  - destruct (truthy (cashout_id Nested b) && truthy (account_id Nested b))
      eqn:Hids; cbn [negb]; [now apply Hw|].
    left. split; [reflexivity | discriminate].
  - destruct (lowers (game_arg Flat b) && lowers (currency_arg Flat b));
      cbn [negb]; [|left; split; [reflexivity | discriminate]].
    destruct (truthy (cashout_id Flat b) && truthy (account_id Flat b))
      eqn:Hids; cbn [negb]; [now apply Hw|].
    left. split; [reflexivity | discriminate].
Qed.


(** A request with both ids whose casts all go through is accepted and
    performs both writes. *)
Lemma ingest_written (B : Builtins) (omit : bool) (s : shape) (b : value)
    (t : number) (db : Db) (k n kc : value) (u : obj) :
  truthy (cashout_id s b) = true ->
  truthy (account_id s b) = true ->
  castString B (account_id s b) = Returned k ->
  castString B (account_name s b) = Returned n ->
  cast_document B s b t = Returned u ->
  castString B (cashout_id s b) = Returned kc ->
  ingest B omit s b t db
  = (accepted s b,
     cashout_written omit (account_written omit db k n t) kc u).
Proof.
  intros Hc Ha Hk Hn Hu Hkc.
  destruct (cast_document_fields B s b t u Hu) as [Ht _].
  rewrite (ingest_spec B omit s b t db). cbv zeta.
  unfold account_stage, cashout_stage.
  rewrite Hc, Ha, Ht, Hk, Hn, Hu, Hkc. cbn [andb negb bind].
  now destruct s.
Qed.

(** Whether the cashout's write goes through depends on the payload
    only. *)
Lemma cashout_stage_succeeds (B : Builtins) (omit : bool) (s : shape)
    (b : value) (t : number) (db : Db) :
  succeeds (cashout_stage B omit s b t db)
  = succeeds (cast_document B s b t)
    && succeeds (castString B (cashout_id s b)).
Proof.
  unfold cashout_stage.
  destruct (cast_document B s b t); cbn [bind succeeds andb]; [|reflexivity].
  now destruct (castString B (cashout_id s b)).
Qed.

Lemma update_of_payload_time (B : Builtins) (s : shape) (b : value)
    (t1 t2 : number) :
  same_keys (update_of_payload B s b t1) (update_of_payload B s b t2).
Proof.
  destruct s; cbn [update_of_payload];
    repeat (apply List.Forall2_cons; [split; [reflexivity | tauto]|]);
    (apply List.Forall2_cons; [|apply List.Forall2_nil]);
    cbn [fst snd]; (split; [reflexivity | split; discriminate]).
Qed.

Lemma cast_document_time (B : Builtins) (s : shape) (b : value)
    (t1 t2 : number) (u1 : obj) :
  cast_document B s b t1 = Returned u1 ->
  exists u2, cast_document B s b t2 = Returned u2 /\ same_keys u1 u2.
Proof.
  intros H1.
  destruct (cast_document_eq B s b t1) as [[Ht E1] | [_ [m E1]]];
    [|congruence].
  destruct (cast_document_eq B s b t2) as [[_ E2] | [Hf _]];
    [|congruence].
  rewrite E1 in H1. rewrite E2.
  assert (Hsucc : succeeds (castUpdate B CashoutSchema
                              (update_of_payload B s b t2)) = true).
  { transitivity (succeeds (castUpdate B CashoutSchema
                              (update_of_payload B s b t1)));
      [|now rewrite H1].
    rewrite !castUpdate_succeeds by apply update_of_payload_declared.
    destruct s; reflexivity. }
  destruct (castUpdate B CashoutSchema (update_of_payload B s b t2))
    as [u2|] eqn:H2; [|discriminate].
  exists u2. split; [reflexivity|].
  apply same_keys_trans with (update_of_payload B s b t1).
  - apply same_keys_sym.
    apply (castUpdate_same_keys B CashoutSchema); [|exact H1].
    apply update_of_payload_declared.
  - apply same_keys_trans with (update_of_payload B s b t2).
    + apply update_of_payload_time.
    + apply (castUpdate_same_keys B CashoutSchema); [|exact H2].
      apply update_of_payload_declared.
Qed.

Lemma cast_document_time_succeeds (B : Builtins) (s : shape) (b : value)
    (t1 t2 : number) :
  succeeds (cast_document B s b t1) = succeeds (cast_document B s b t2).
Proof.
  destruct (cast_document B s b t1) as [u1|] eqn:H1.
  - destruct (cast_document_time B s b t1 t2 u1 H1) as (u2 & -> & _).
    reflexivity.
  - destruct (cast_document B s b t2) as [u2|] eqn:H2; [|reflexivity].
    destruct (cast_document_time B s b t2 t1 u2 H2) as (u1 & H1' & _).
    congruence.
Qed.

(** A request whose cashout is refused leaves the cashouts as they are. *)
Lemma refused_cashout_keeps_cashouts (B : Builtins) (omit : bool)
    (s : shape) (b : value) (t : number) (db : Db) :
  succeeds (cast_document B s b t)
  && succeeds (castString B (cashout_id s b)) = false ->
  cashouts (snd (ingest B omit s b t db)) = cashouts db.
Proof.
  intros Hf.
  destruct (ingest_cases B omit s b t db)
    as [[-> _] | (_ & _ & k & n & _ & _ &
                  [(_ & _ & ->) | (_ & u & kc & Hu & Hkc & _)])];
    try reflexivity.
  rewrite Hu, Hkc in Hf. discriminate.
Qed.

(** ** Requests that miss an id *)

(** C7, the failing input: a flattened payload with no id at all and a
    numeric [game].  Building [flat] calls [toLowerCase] on the number
    before the ids are checked, the TypeError lands in the handler's
    [catch], and the caller gets 500 "server" instead of the validation
    error; nothing is written. *)
Theorem missing_id_with_numeric_game_is_500 :
  let b := VObj [("game", int 5)] in
  truthy (cashout_id Flat b) = false
  /\ truthy (account_id Flat b) = false
  /\ ingest decimal_builtins true Flat b (Num.of_Z 1) empty_db
     = (json_error 500 "server", empty_db).
Proof. repeat split; reflexivity. Qed.



(** ** No duplicate ids, and an account for every cashout *)

Lemma account_written_ids (omit : bool) (db : Db) (k n : value) (t : number) :
  (forall x, (count_id x (accounts db) <= 1)%nat) ->
  (forall x,
      (count_id x (accounts (account_written omit db k n t)) <= 1)%nat)
  /\ In k (ids_of (accounts (account_written omit db k n t)))
  /\ forall v, In v (ids_of (accounts db)) ->
               In v (ids_of (accounts (account_written omit db k n t))).
Proof.
  intros Ha. cbn [account_written accounts]. split; [|split].
  - apply upsert_keeps_unique;
      [apply account_update_keys | apply account_upsert_shape | exact Ha].
  - apply upsert_ids;
      [apply account_update_keys | apply account_upsert_shape].
  - intros v Hv.
    destruct (upsert_ids omit (accounts db) k
                [("createdAt", VNum t)]
                [("name", n); ("updatedAt", VNum t)]
                (account_update_keys n t)
                (account_upsert_shape omit _ t)) as [_ [-> | ->]];
      [exact Hv | apply List.in_or_app; now left].
Qed.

Lemma cast_id_defined (B : Builtins) (v k : value) :
  truthy v = true -> castString B v = Returned k -> k <> VUndef.
Proof.
  intros Ht Hk. destruct (castString_truthy B v k Ht Hk) as [i ->].
  discriminate.
Qed.

(** One ingestion keeps a store consistent: no id with two cashouts, no
    id with two accounts, and an account for every cashout. *)
Lemma ingest_keeps_consistent (B : Builtins) (omit : bool) (s : shape)
    (b : value) (t : number) (db : Db) :
  (forall k, (count_id k (cashouts db) <= 1)%nat) ->
  (forall k, (count_id k (accounts db) <= 1)%nat) ->
  (forall d, In d (cashouts db) ->
             In (get d "accountId") (ids_of (accounts db))) ->
  let db' := snd (ingest B omit s b t db) in
  (forall k, (count_id k (cashouts db') <= 1)%nat)
  /\ (forall k, (count_id k (accounts db') <= 1)%nat)
  /\ (forall d, In d (cashouts db') ->
                In (get d "accountId") (ids_of (accounts db'))).
Proof.
  intros Hc Ha Hr db'. subst db'.
  destruct (ingest_cases B omit s b t db)
    as [[-> _] | (Hcid & Haid & k & n & Hk & Hn &
                  [(_ & _ & ->) | (_ & u & kc & Hu & Hkc & ->)])].
  - auto.
  - destruct (account_written_ids omit db k n t Ha) as (Hu' & _ & Hsub).
    repeat split; auto.
  - destruct (account_written_ids omit db k n t Ha) as (Hu' & Hin & Hsub).
    destruct (cast_document_fields B s b t u Hu)
      as (_ & _ & Hnd & Hid & Hacc & _).
    assert (Hkk : get u "accountId" = k) by congruence.
    cbn [cashout_written cashouts accounts]. repeat split.
    + apply upsert_keeps_unique; [exact Hid | | exact Hc].
      apply cashout_upsert_shape. now apply (cast_id_defined B _ _ Hcid).
    + exact Hu'.
    + intros d Hd. apply upsert_members in Hd as [Hd | [d0 ->]].
      * apply Hsub, Hr, Hd.
      * rewrite (get_apply_set omit u d0 "accountId" Hnd).
        -- now rewrite Hkk.
        -- rewrite Hkk. now apply (cast_id_defined B _ _ Haid).
Qed.

(** Whatever requests are posted to the two ingestion endpoints, in
    whatever order, accepted or not, the store that started empty never
    holds two cashouts with one id nor two accounts with one id, and the
    account of every stored cashout is stored too. *)
Theorem ingested_store_is_consistent (B : Builtins) (omit : bool)
    (reqs : list Post) :
  let db := run_posts B omit reqs empty_db in
  (forall k, (count_id k (cashouts db) <= 1)%nat)
  /\ (forall k, (count_id k (accounts db) <= 1)%nat)
  /\ (forall d, In d (cashouts db) ->
                In (get d "accountId") (ids_of (accounts db))).
Proof.
  cbv zeta. unfold run_posts.
  assert (Hgen : forall db0,
             ((forall k, (count_id k (cashouts db0) <= 1)%nat)
              /\ (forall k, (count_id k (accounts db0) <= 1)%nat)
              /\ (forall d, In d (cashouts db0) ->
                            In (get d "accountId") (ids_of (accounts db0)))) ->
             let db :=
               fold_left
                 (fun db r =>
                    snd (ingest B omit (post_shape r) (post_body r)
                           (post_time r) db))
                 reqs db0 in
             (forall k, (count_id k (cashouts db) <= 1)%nat)
             /\ (forall k, (count_id k (accounts db) <= 1)%nat)
             /\ (forall d, In d (cashouts db) ->
                           In (get d "accountId") (ids_of (accounts db)))).
  { induction reqs as [|r reqs IH]; intros db0 H; [exact H|].
    cbn [fold_left]. apply IH. destruct H as (Hc & Ha & Hr).
    now apply ingest_keeps_consistent. }
  apply Hgen. cbn. repeat split; intros; try lia; contradiction.
Qed.

(** ** Replayed requests *)

(** A payload posted again later leaves no trace of the earlier post in
    the cashouts: the collection is the one the later post alone would
    have left, document for document and in the same order. *)
Theorem replayed_payload_is_absorbed (B : Builtins) (omit : bool) (s : shape)
    (b : value) (t1 t2 : number) (db : Db) :
  cashouts (snd (ingest B omit s b t2 (snd (ingest B omit s b t1 db))))
  = cashouts (snd (ingest B omit s b t2 db)).
Proof.
  destruct (ingest_cases B omit s b t1 db)
    as [[-> _] | (Hcid & Haid & k & n & Hk & Hn &
                  [(_ & Hf & ->) | (_ & u1 & kc & Hu1 & Hkc & ->)])].
  - reflexivity.
  - rewrite cashout_stage_succeeds in Hf.
    rewrite (cast_document_time_succeeds B s b t1 t2) in Hf.
    now rewrite !refused_cashout_keeps_cashouts by exact Hf.
  - destruct (cast_document_time B s b t1 t2 u1 Hu1) as (u2 & Hu2 & Hs).
    rewrite !(ingest_written B omit s b t2 _ k n kc u2) by assumption.
    cbn [snd cashout_written account_written cashouts].
    destruct (cast_document_fields B s b t1 u1 Hu1)
      as (_ & _ & Hnd & Hid & _).
    apply upsert_twice; try assumption.
    now apply (cast_id_defined B _ _ Hcid).
Qed.

(** ** Accepted requests *)

Lemma accepted_request (B : Builtins) (omit : bool) (s : shape) (b : value)
    (t : number) (db : Db) :
  status (fst (ingest B omit s b t db)) = 200%nat ->
  truthy (cashout_id s b) = true
  /\ truthy (account_id s b) = true
  /\ exists k n u kc,
      castString B (account_id s b) = Returned k
      /\ castString B (account_name s b) = Returned n
      /\ cast_document B s b t = Returned u
      /\ castString B (cashout_id s b) = Returned kc
      /\ ingest B omit s b t db
         = (accepted s b,
            cashout_written omit (account_written omit db k n t) kc u).
Proof.
  intros H200.
  destruct (ingest_cases B omit s b t db)
    as [[_ Hn] | (Hcid & Haid & k & n & Hk & Hn &
                  [(H500 & _) | (_ & u & kc & Hu & Hkc & _)])].
  - contradiction.
  - rewrite H500 in H200. discriminate.
  - split; [exact Hcid|]. split; [exact Haid|]. exists k, n, u, kc.
    repeat split; try assumption. now apply ingest_written.
Qed.

(** The record an accepted request leaves under its cashout id. *)
Lemma accepted_record (B : Builtins) (omit : bool) (s : shape) (b : value)
    (t : number) (db : Db) :
  status (fst (ingest B omit s b t db)) = 200%nat ->
  scalar (cashout_id s b) = true ->
  (count_id (VStr (ToString B (cashout_id s b))) (cashouts db) <= 1)%nat ->
  exists u d,
    cast_document B s b t = Returned u
    /\ List.filter (id_matches (VStr (ToString B (cashout_id s b))))
         (cashouts (snd (ingest B omit s b t db))) = [d]
    /\ get d "id" = VStr (ToString B (cashout_id s b))
    /\ (forall k, get u k <> VUndef -> get d k = get u k)
    /\ forall k, In k (List.map fst u) -> get u k = VUndef ->
         get d k
         = if omit
           then match List.filter
                        (id_matches (VStr (ToString B (cashout_id s b))))
                        (cashouts db) with
                | d0 :: _ => get d0 k
                | [] => get [("id", VStr (ToString B (cashout_id s b)))] k
                end
           else VNull.
Proof.
  intros H200 Hsc Hc.
  destruct (accepted_request B omit s b t db H200)
    as (_ & _ & k & n & u & kc & _ & _ & Hu & Hkc & ->).
  rewrite (castString_scalar B _ Hsc) in Hkc. injection Hkc as <-.
  destruct (cast_document_fields B s b t u Hu) as (_ & _ & Hnd & Hid & _).
  destruct (upsert_one_gen omit (cashouts db)
              (VStr (ToString B (cashout_id s b)))
              [("id", VStr (ToString B (cashout_id s b)))] u Hnd Hid)
    as (d & Hf & Hd & Hdef & _ & Hundef); [|exact Hc|].
  { apply cashout_upsert_shape. discriminate. }
  exists u, d. split; [exact Hu|]. split; [exact Hf|].
  split; [exact Hd|]. split; [exact Hdef|].
  intros x Hx Hux. rewrite (Hundef x Hx Hux).
  destruct omit; [|reflexivity].
  destruct (List.filter _ (cashouts db)); reflexivity.
Qed.

(** ** What a stored cashout holds *)

Lemma usd_field_after_cast (B : Builtins) (v w : value) :
  castNumber B (numeric_or_undefined v) = Returned w ->
  w = VUndef \/ (w <> VUndef /\ numeric w = true).
Proof.
  intros H. destruct (castNumber_optional B v w H)
    as [(Hn & -> & Hnum) | (_ & ->)]; [right | now left].
  split; [|exact Hnum]. destruct v; discriminate || exact I.
Qed.

Lemma numeric_usd_field (v : value) : numeric v = true -> usd_field v = true.
Proof. now destruct v. Qed.

Lemma numeric_defined (v : value) : numeric v = true -> v <> VUndef.
Proof. now destruct v. Qed.

(** The update that reaches the server keeps a cashout well formed, and
    makes the inserted one so. *)
Lemma apply_set_ok (B : Builtins) (omit : bool) (s : shape) (b : value)
    (t : number) (u d : obj) :
  cast_document B s b t = Returned u ->
  usd_field (get d "amountUSD") = true ->
  usd_field (get d "payoutUSD") = true ->
  cashout_ok (apply_set omit d u) = true.
Proof.
  intros Hu Ha Hp.
  destruct (cast_document_fields B s b t u Hu)
    as (_ & Hs & Hnd & _ & _ & _ & _ & Hnum & Husd & _).
  pose proof (same_keys_fst _ _ Hs) as Hfst.
  destruct (update_of_payload_keys B s b t) as (_ & _ & Hkeys).
  assert (Hin : forall k,
             In k ["accountId"; "game"; "currency"; "payout"; "amount";
                   "payoutMultiplier"; "amountMultiplier"; "payoutUSD";
                   "amountUSD"; "updatedAt"; "rawJson"; "capturedAt"] ->
             In k (List.map fst u))
    by (intros k Hk; rewrite <- Hfst; now apply Hkeys).
  assert (Hcrypto : forall k,
             In k ["payout"; "amount"; "payoutMultiplier";
                   "amountMultiplier"] ->
             numeric (get (apply_set omit d u) k) = true).
  { intros k Hk. destruct (Hnum k Hk) as [_ Hn].
    rewrite get_apply_set; [exact Hn | exact Hnd |].
    now apply numeric_defined. }
  assert (Hkept : forall k,
             In k ["payoutUSD"; "amountUSD"] ->
             usd_field (get d k) = true ->
             usd_field (get (apply_set omit d u) k) = true).
  { intros k Hk Hd.
    destruct (usd_field_after_cast B _ _ (Husd k Hk)) as [Hun | [Hdef Hn]].
    - rewrite get_apply_set_undef; [now destruct omit | exact Hnd | | exact Hun].
      apply Hin. cbn in Hk |- *. tauto.
    - rewrite get_apply_set by assumption. now apply numeric_usd_field. }
  unfold cashout_ok.
  rewrite (Hcrypto "amount"), (Hcrypto "payout") by (cbn; tauto).
  rewrite (Hkept "amountUSD"), (Hkept "payoutUSD") by (cbn; tauto || assumption).
  reflexivity.
Qed.

Lemma ingest_keeps_cashouts_ok (B : Builtins) (omit : bool) (s : shape)
    (b : value) (t : number) (db : Db) :
  Forall (fun d => cashout_ok d = true) (cashouts db) ->
  Forall (fun d => cashout_ok d = true)
    (cashouts (snd (ingest B omit s b t db))).
Proof.
  intros Hall.
  destruct (ingest_cases B omit s b t db)
    as [[-> _] | (_ & _ & k & n & _ & _ &
                  [(_ & _ & ->) | (_ & u & kc & Hu & _ & ->)])];
    try exact Hall.
  cbn [cashout_written account_written cashouts].
  rewrite List.Forall_forall in Hall |- *.
  intros x Hx.
  apply upsert_members_from in Hx as [Hx | [(d & Hd & ->) | ->]].
  - now apply Hall.
  - specialize (Hall d Hd). unfold cashout_ok in Hall.
    apply andb_prop in Hall as [Hall Hp].
    apply andb_prop in Hall as [_ Ha].
    now apply (apply_set_ok B omit s b t).
  - apply (apply_set_ok B omit s b t); [exact Hu | |];
      rewrite get_apply_set_other by (cbn; intuition discriminate);
      reflexivity.
Qed.

(** C9 as the code has it: after every ingestion, on either shape, every
    stored cashout has Numbers in [amount] and [payout], and each of
    [amountUSD] and [payoutUSD] is absent, [null] or a Number; a Number
    the payload carries in one of them is stored as it is, whatever its
    sign, in the record kept under the payload's id. *)
Theorem stored_cashouts_well_formed (B : Builtins) (omit : bool) (s : shape)
    (b : value) (t : number) (db : Db) :
  Forall (fun d => cashout_ok d = true) (cashouts db) ->
  Forall (fun d => cashout_ok d = true)
    (cashouts (snd (ingest B omit s b t db)))
  /\ (status (fst (ingest B omit s b t db)) = 200%nat ->
      scalar (cashout_id s b) = true ->
      (count_id (VStr (ToString B (cashout_id s b))) (cashouts db)
       <= 1)%nat ->
      exists d,
        List.filter (id_matches (VStr (ToString B (cashout_id s b))))
          (cashouts (snd (ingest B omit s b t db))) = [d]
        /\ forall k,
             In k ["amountUSD"; "payoutUSD"] ->
             is_number (payload_usd s b k) = true ->
             get d k = payload_usd s b k).
Proof.
  intros Hall. split; [now apply ingest_keeps_cashouts_ok|].
  intros H200 Hsc Hc.
  destruct (accepted_record B omit s b t db H200 Hsc Hc)
    as (u & d & Hu & Hf & _ & Hdef & _).
  exists d. split; [exact Hf|]. intros k Hk Hn.
  destruct (cast_document_fields B s b t u Hu)
    as (_ & _ & _ & _ & _ & _ & _ & _ & Husd & _).
  assert (Hk' : In k ["payoutUSD"; "amountUSD"]) by (cbn in Hk |- *; tauto).
  destruct (castNumber_optional B _ _ (Husd k Hk'))
    as [(_ & Hw & _) | (Hf' & _)]; [|congruence].
  rewrite Hdef; [exact Hw|]. rewrite Hw.
  destruct (payload_usd s b k); discriminate.
Qed.

(** A cashout posted with [payoutUSD] 7, then posted again on the other
    endpoint with [amountUSD] -3 and a string in [payoutUSD]: the stored
    cashout is well formed and carries -3. *)
Lemma stored_cashouts_well_formed_witness :
  let b1 :=
    VObj [("minesCashout",
           VObj [("id", VStr "c1"); ("amount", int 1); ("payout", int 2);
                 ("payoutUSD", int 7)]);
          ("user", VObj [("id", VStr "u1")])] in
  let b2 :=
    VObj [("id", VStr "c1"); ("accountId", VStr "u1");
          ("amountUSD", int (-3)); ("payoutUSD", VStr "12")] in
  let db1 := snd (ingest decimal_builtins true Nested b1 (Num.of_Z 1)
                    empty_db) in
  let db2 := snd (ingest decimal_builtins true Flat b2 (Num.of_Z 2) db1) in
  Forall (fun d => cashout_ok d = true) (cashouts db2)
  /\ exists d,
      List.filter (id_matches (VStr "c1")) (cashouts db2) = [d]
      /\ get d "amountUSD" = int (-3).
Proof.
  intros b1 b2 db1 db2.
  assert (H1 : Forall (fun d => cashout_ok d = true) (cashouts db1)).
  { apply (stored_cashouts_well_formed decimal_builtins true Nested b1
             (Num.of_Z 1) empty_db). constructor. }
  destruct (stored_cashouts_well_formed decimal_builtins true Flat b2
              (Num.of_Z 2) db1 H1) as [H2 Hrec].
  split; [exact H2|].
  destruct (Hrec eq_refl eq_refl (le_n 1)) as (d & Hf & Hd).
  exists d. split; [exact Hf|].
  apply (Hd "amountUSD"); [now left | reflexivity].
Defined.

(** C9, the counterexample: a payload whose [payoutUSD] is [-5] is
    accepted, on either shape, and the stored cashout carries the
    negative value. *)
Lemma negative_usd_is_stored :
  let nested :=
    VObj [("minesCashout", VObj [("id", VStr "c1"); ("payoutUSD", int (-5))]);
          ("user", VObj [("id", VStr "u1")])] in
  let flat :=
    VObj [("id", VStr "c1"); ("accountId", VStr "u1");
          ("payoutUSD", int (-5))] in
  let r1 := ingest decimal_builtins true Nested nested (Num.of_Z 1) empty_db in
  let r2 := ingest decimal_builtins true Flat flat (Num.of_Z 1) empty_db in
  (status (fst r1) = 200%nat
   /\ exists d,
       cashouts (snd r1) = [d]
       /\ get d "payoutUSD" = int (-5)
       /\ negative (get d "payoutUSD") = true)
  /\ (status (fst r2) = 200%nat
      /\ exists d,
          cashouts (snd r2) = [d]
          /\ get d "payoutUSD" = int (-5)
          /\ negative (get d "payoutUSD") = true).
Proof.
  split; (split; [reflexivity|]; eexists; repeat split; reflexivity).
Qed.

(** ** No duplicate cashouts *)

(** Ingestion never creates a second document for an id: a store in which
    every id is carried by at most one cashout stays so. *)
Lemma ingest_keeps_ids_unique (B : Builtins) (omit : bool) (s : shape)
    (b : value) (t : number) (db : Db) :
  (forall key, (count_id key (cashouts db) <= 1)%nat) ->
  forall key,
    (count_id key (cashouts (snd (ingest B omit s b t db))) <= 1)%nat.
Proof.
  intros Huniq.
  destruct (ingest_cases B omit s b t db)
    as [[-> _] | (Hcid & _ & k & n & _ & _ &
                  [(_ & _ & ->) | (_ & u & kc & Hu & Hkc & ->)])];
    try exact Huniq.
  destruct (cast_document_fields B s b t u Hu) as (_ & _ & _ & Hid & _).
  cbn [cashout_written account_written cashouts].
  apply upsert_keeps_unique; [exact Hid | | exact Huniq].
  apply cashout_upsert_shape. now apply (cast_id_defined B _ _ Hcid).
Qed.

Lemma cast_string_defined (B : Builtins) (v w : value) :
  v <> VUndef -> castString B v = Returned w -> w <> VUndef.
Proof.
  intros Hv Hw Hu. apply Hv.
  now apply (proj2 (cast_undef B TString v w Hw)).
Qed.

Lemma payload_updatedAt_defined (s : shape) (b : value) :
  payload_updatedAt s b <> VUndef.
Proof.
  unfold payload_updatedAt. cbv zeta. destruct s.
  - now destruct (get_prop _ "updatedAt").
  - destruct (js_or_default
                (js_or (get_prop (js_or b (VObj [])) "updatedAt")
                   (preview (js_or b (VObj [])) "updatedAt")) VNull)
      as [Ht | ->]; [|discriminate].
    now apply truthy_not_undef.
Qed.

Lemma lowered_defined (v : value) : lowered v <> VUndef.
Proof. now destruct v. Qed.

Lemma payload_raw_defined (s : shape) (b : value) :
  truthy (cashout_id s b) = true -> payload_raw s b <> VUndef.
Proof.
  destruct s; cbn [payload_raw cashout_id].
  - intros Ht ->. discriminate.
  - intros _. unfold js_or. destruct (truthy b) eqn:Hb; [|discriminate].
    now apply truthy_not_undef.
Qed.

(** C5 as the code has it: two payloads with the same cashout id (the
    same string once cast), ingested one after the other, each through
    either endpoint and each accepted, leave exactly one stored cashout
    with that id.  Its account, game, currency, crypto values,
    [updatedAt], [rawJson] and capture time are those of the second
    payload.  [amountUSD] and [payoutUSD] are the second payload's when
    it carries them as Numbers; otherwise they keep what the first
    ingestion left (or become [null], where [undefined] is written as
    [null]).  No id ever gets a second document. *)
Theorem ingestion_idempotent (B : Builtins) (omit : bool) (s1 s2 : shape)
    (b1 b2 : value) (t1 t2 : number) (db : Db) :
  let r1 := ingest B omit s1 b1 t1 db in
  let r2 := ingest B omit s2 b2 t2 (snd r1) in
  let key := VStr (ToString B (cashout_id s2 b2)) in
  scalar (cashout_id s1 b1) = true ->
  scalar (cashout_id s2 b2) = true ->
  ToString B (cashout_id s1 b1) = ToString B (cashout_id s2 b2) ->
  (count_id key (cashouts db) <= 1)%nat ->
  status (fst r1) = 200%nat ->
  status (fst r2) = 200%nat ->
  exists d1 d,
    List.filter (id_matches key) (cashouts (snd r1)) = [d1]
    /\ List.filter (id_matches key) (cashouts (snd r2)) = [d]
    /\ get d "id" = key
    /\ castString B (account_id s2 b2) = Returned (get d "accountId")
    /\ get d "game" = lowered (game_arg s2 b2)
    /\ get d "currency" = lowered (currency_arg s2 b2)
    /\ (forall k,
          In k ["payout"; "amount"; "payoutMultiplier"; "amountMultiplier"] ->
          get d k = VNum (ToNumber B (payload_crypto s2 b2 k)))
    /\ castString B (payload_updatedAt s2 b2) = Returned (get d "updatedAt")
    /\ get d "rawJson" = payload_raw s2 b2
    /\ get d "capturedAt" = VNum t2
    /\ (forall k,
          In k ["payoutUSD"; "amountUSD"] ->
          get d k
          = if is_number (payload_usd s2 b2 k) then payload_usd s2 b2 k
            else if omit then get d1 k else VNull)
    /\ ((forall x, (count_id x (cashouts db) <= 1)%nat) ->
        forall x, (count_id x (cashouts (snd r2)) <= 1)%nat).
Proof.
  intros r1 r2 key Hs1 Hs2 Hsame Hc H1 H2. subst r1 r2 key.
  rewrite <- Hsame in Hc.
  destruct (accepted_record B omit s1 b1 t1 db H1 Hs1 Hc)
    as (u1 & d1 & _ & Hf1 & _).
  rewrite Hsame in Hf1.
  assert (Hc1 : (count_id (VStr (ToString B (cashout_id s2 b2)))
                   (cashouts (snd (ingest B omit s1 b1 t1 db))) <= 1)%nat)
    by (unfold count_id; now rewrite Hf1).
  destruct (accepted_record B omit s2 b2 t2 _ H2 Hs2 Hc1)
    as (u & d & Hu & Hf & Hid & Hdef & Hundef).
  rewrite Hf1 in Hundef.
  destruct (accepted_request B omit s2 b2 t2 _ H2) as (Hcid & Haid & _).
  destruct (cast_document_fields B s2 b2 t2 u Hu)
    as (_ & Hs & _ & _ & Hacc & Hg & Hcur & Hnum & Husd & Hupd & Hraw & Hcap).
  pose proof (same_keys_fst _ _ Hs) as Hfst.
  destruct (update_of_payload_keys B s2 b2 t2) as (_ & _ & Hkeys).
  exists d1, d. split; [exact Hf1|]. split; [exact Hf|]. split; [exact Hid|].
  split.
  { rewrite Hdef; [exact Hacc|].
    apply (cast_string_defined B (account_id s2 b2)); [|exact Hacc].
    now apply truthy_not_undef. }
  split.
  { rewrite Hdef; [exact Hg|]. rewrite Hg. apply lowered_defined. }
  split.
  { rewrite Hdef; [exact Hcur|]. rewrite Hcur. apply lowered_defined. }
  split.
  { intros k Hk. destruct (Hnum k Hk) as [Hv Hn].
    rewrite Hdef; [exact Hv|]. now apply numeric_defined. }
  split.
  { rewrite Hdef; [exact Hupd|].
    apply (cast_string_defined B (payload_updatedAt s2 b2));
      [apply payload_updatedAt_defined | exact Hupd]. }
  split.
  { rewrite Hdef; [exact Hraw|]. rewrite Hraw.
    now apply payload_raw_defined. }
  split.
  { rewrite Hdef; [exact Hcap|]. now rewrite Hcap. }
  split.
  { intros k Hk.
    destruct (castNumber_optional B _ _ (Husd k Hk))
      as [(Hn & Hw & _) | (Hn & Hw)]; rewrite Hn.
    - rewrite Hdef; [exact Hw|]. rewrite Hw.
      destruct (payload_usd s2 b2 k); discriminate.
    - apply Hundef; [|exact Hw]. rewrite <- Hfst. apply Hkeys.
      cbn in Hk |- *. tauto. }
  intros Huniq x. now do 2 apply ingest_keeps_ids_unique.
Qed.

(** The cashout "c1" posted nested with a USD payout, then flattened,
    under the number 7 as account, with another currency and payout and
    no USD value: one document with the second payload's values, the
    account cast to "7", and the first payload's [payoutUSD]. *)
Lemma ingestion_idempotent_witness :
  let B := decimal_builtins in
  let b1 :=
    VObj [("minesCashout",
           VObj [("id", VStr "c1"); ("currency", VStr "LTC");
                 ("payout", int 1); ("payoutUSD", int 40)]);
          ("user", VObj [("id", VStr "u1"); ("name", VStr "ann")])] in
  let b2 :=
    VObj [("id", VStr "c1"); ("accountId", int 7);
          ("currency", VStr "BTC"); ("payout", int 2)] in
  let db2 :=
    snd (ingest B true Flat b2 (Num.of_Z 2)
           (snd (ingest B true Nested b1 (Num.of_Z 1) empty_db))) in
  exists d,
    List.filter (id_matches (VStr "c1")) (cashouts db2) = [d]
    /\ get d "accountId" = VStr "7"
    /\ get d "currency" = VStr "btc"
    /\ get d "payout" = int 2
    /\ get d "capturedAt" = int 2.
Proof.
  intros B b1 b2 db2.
  destruct
    (ingestion_idempotent B true Nested Flat b1 b2 (Num.of_Z 1) (Num.of_Z 2)
       empty_db eq_refl eq_refl eq_refl (le_S _ _ (le_n 0)) eq_refl eq_refl)
    as (d1 & d & _ & Hf & _ & Hacc & _ & Hcur & Hnum & _ & _ & Hcap & _).
  exists d. split; [exact Hf|].
  split; [now injection Hacc|]. split; [exact Hcur|].
  split; [exact (Hnum "payout" (or_introl eq_refl)) | exact Hcap].
Defined.

(** C5, the counterexample: the cashout "c1" is posted with [payoutUSD]
    40 and posted again with another payout and no USD value.  Both
    requests are accepted, one document is stored, and it still carries
    the 40 of the first payload beside the payout of the second. *)
Lemma stale_usd_survives_reingestion :
  let B := decimal_builtins in
  let b1 :=
    VObj [("minesCashout",
           VObj [("id", VStr "c1"); ("payout", int 1);
                 ("payoutUSD", int 40)]);
          ("user", VObj [("id", VStr "u1")])] in
  let b2 :=
    VObj [("minesCashout", VObj [("id", VStr "c1"); ("payout", int 2)]);
          ("user", VObj [("id", VStr "u1")])] in
  let r1 := ingest B true Nested b1 (Num.of_Z 1) empty_db in
  let r2 := ingest B true Nested b2 (Num.of_Z 2) (snd r1) in
  status (fst r1) = 200%nat
  /\ status (fst r2) = 200%nat
  /\ payload_usd Nested b2 "payoutUSD" = VUndef
  /\ exists d,
      cashouts (snd r2) = [d]
      /\ get d "payout" = int 2
      /\ get d "payoutUSD" = int 40.
Proof.
  repeat split; try reflexivity.
  eexists. repeat split; reflexivity.
Qed.

(** ** What an ingestion does to the store *)

(** An ingestion touches one cashout at most.  The id it writes under is
    the request's cashout id cast to a string, so that the number 7 and
    the string "7" name one cashout.  The cashouts stored under any other
    id are the same documents, in the same order, after the request as
    before it, whether it is accepted or fails; no cashout is ever
    removed, and at most one is added.  (An id that is an object is left
    out: the store could read it as a query.) *)
Theorem ingestion_leaves_other_cashouts (B : Builtins) (omit : bool)
    (s : shape) (b : value) (t : number) (db : Db) :
  let db' := snd (ingest B omit s b t db) in
  is_object (cashout_id s b) = false ->
  (forall key,
      castString B (cashout_id s b) <> Returned key ->
      List.filter (id_matches key) (cashouts db')
      = List.filter (id_matches key) (cashouts db))
  /\ (List.length (cashouts db') = List.length (cashouts db)
      \/ List.length (cashouts db') = S (List.length (cashouts db))).
Proof.
  cbv zeta. intros _.
  destruct (ingest_cases B omit s b t db)
    as [[-> _] | (Hcid & _ & k & n & _ & _ &
                  [(_ & _ & ->) | (_ & u & kc & Hu & Hkc & ->)])];
    [split; auto | split; auto |].
  destruct (cast_document_fields B s b t u Hu) as (_ & _ & _ & Hid & _).
  cbn [cashout_written account_written cashouts].
  split; [|apply upsert_length].
  intros key Hne.
  apply upsert_filter_other;
    [|now apply (cast_id_defined B _ _ Hcid) | exact Hid].
  intros ->. now apply Hne.
Qed.

(** The cashout "c1" is stored; a request arrives whose cashout id is the
    number 7.  What is stored under "c1" stays, and nothing is stored
    under the number 7: the new cashout is under the string "7". *)
Lemma ingestion_leaves_other_cashouts_witness :
  let B := decimal_builtins in
  let db := replay [sample_payload "c1" "ltc" 3] in
  let b :=
    VObj [("id", int 7); ("accountId", VStr "u2"); ("payout", int 7)] in
  let db' := snd (ingest B true Flat b (Num.of_Z 9) db) in
  List.filter (id_matches (VStr "c1")) (cashouts db')
  = List.filter (id_matches (VStr "c1")) (cashouts db)
  /\ List.filter (id_matches (int 7)) (cashouts db')
     = List.filter (id_matches (int 7)) (cashouts db)
  /\ ids_of (cashouts db') = [VStr "c1"; VStr "7"].
Proof.
  intros B db b db'.
  destruct (ingestion_leaves_other_cashouts B true Flat b (Num.of_Z 9) db
              eq_refl) as [Hother _].
  split; [apply Hother; discriminate|].
  split; [apply Hother; discriminate | reflexivity].
Defined.

(** A request for one account leaves every other account's cashouts as
    they are, and with them its summary, provided the request's cashout
    id is not the id of a cashout of that other account (cashouts are
    stored by cashout id alone, so such a request would move the
    cashout).  Ids are compared as they are stored, cast to strings. *)
Theorem ingestion_keeps_other_accounts (B : Builtins) (omit : bool)
    (s : shape) (b : value) (t : number) (db : Db) (id : string) :
  is_object (cashout_id s b) = false ->
  castString B (account_id s b) <> Returned (VStr id) ->
  (forall d, In d (cashouts db) ->
             castString B (cashout_id s b) = Returned (get d "id") ->
             get d "accountId" <> VStr id) ->
  match_account (cashouts (snd (ingest B omit s b t db))) id
  = match_account (cashouts db) id
  /\ forall cfg E st,
      summary B cfg E id (snd (ingest B omit s b t db)) st
      = summary B cfg E id db st.
Proof.
  intros _ Hacc Hold.
  assert (Hm : match_account (cashouts (snd (ingest B omit s b t db))) id
               = match_account (cashouts db) id).
  { destruct (ingest_cases B omit s b t db)
      as [[-> _] | (Hcid & Haid & k & n & Hk & _ &
                    [(_ & _ & ->) | (_ & u & kc & Hu & Hkc & ->)])];
      [reflexivity | reflexivity |].
    destruct (cast_document_fields B s b t u Hu)
      as (_ & _ & Hnd & _ & Hua & _).
    cbn [cashout_written account_written cashouts].
    apply upsert_match_other.
    - now apply (cast_id_defined B _ _ Hcid).
    - exact Hnd.
    - now apply (cast_id_defined B _ _ Haid).
    - intros He. apply Hacc. now rewrite Hua, He.
    - intros d Hd He. apply Hold; [exact Hd|]. now rewrite He. }
  split; [exact Hm|].
  intros cfg E st. unfold summary, aggregate. now rewrite Hm.
Qed.

(** The account "7" holds the cashout "c1"; "c2" is posted for the
    account "u2": what the account "7" has is unchanged. *)
Lemma ingestion_keeps_other_accounts_witness :
  let B := decimal_builtins in
  let b0 :=
    VObj [("id", VStr "c1"); ("accountId", VStr "7"); ("payout", int 3)] in
  let db := snd (ingest B true Flat b0 (Num.of_Z 1) empty_db) in
  let b :=
    VObj [("id", VStr "c2"); ("accountId", VStr "u2"); ("payout", int 7)] in
  List.length (match_account (cashouts db) "7") = 1%nat
  /\ match_account (cashouts (snd (ingest B true Flat b (Num.of_Z 9) db))) "7"
     = match_account (cashouts db) "7".
Proof.
  intros B b0 db b. split; [reflexivity|].
  apply (ingestion_keeps_other_accounts B true Flat b (Num.of_Z 9) db "7").
  - reflexivity.
  - discriminate.
  - intros d [<- | []]. discriminate.
Defined.

(** ** Accounts *)





(** ** How a request is answered *)







(** ** From ingestion to reading *)

(** The USD amounts a payload carries as Numbers are the amounts every
    later read reports: the one cashout stored under the payload's id (as
    a string) normalises to exactly these values, whatever the clock, the
    cache and the price provider are, and without a request. *)
Theorem client_usd_round_trip (B : Builtins) (omit : bool) (s : shape)
    (b : value) (t : number) (db : Db) (cfg : Config) (E : Env)
    (st : Pricing) (a p : number) :
  let key := VStr (ToString B (cashout_id s b)) in
  status (fst (ingest B omit s b t db)) = 200%nat ->
  scalar (cashout_id s b) = true ->
  (count_id key (cashouts db) <= 1)%nat ->
  payload_usd s b "amountUSD" = VNum a ->
  payload_usd s b "payoutUSD" = VNum p ->
  exists d out,
    List.filter (id_matches key)
      (cashouts (snd (ingest B omit s b t db))) = [d]
    /\ normalizeCashoutToUSD B cfg E (VObj d) st = Returned (VObj out, st)
    /\ get out "amount" = VNum a
    /\ get out "payout" = VNum p.
Proof.
  intros key H200 Hsc Hc Ha Hp. subst key.
  destruct (accepted_record B omit s b t db H200 Hsc Hc)
    as (u & d & Hu & Hf & _ & Hdef & _).
  destruct (cast_document_fields B s b t u Hu)
    as (_ & _ & _ & _ & _ & _ & _ & _ & Husd & _).
  assert (Hda : get d "amountUSD" = VNum a).
  { destruct (castNumber_optional B _ _
                (Husd "amountUSD" (or_intror (or_introl eq_refl))))
      as [(_ & Hw & _) | (Hn & _)];
      [|rewrite Ha in Hn; discriminate].
    rewrite Hdef; rewrite Hw, Ha; [reflexivity | discriminate]. }
  assert (Hdp : get d "payoutUSD" = VNum p).
  { destruct (castNumber_optional B _ _
                (Husd "payoutUSD" (or_introl eq_refl)))
      as [(_ & Hw & _) | (Hn & _)];
      [|rewrite Hp in Hn; discriminate].
    rewrite Hdef; rewrite Hw, Hp; [reflexivity | discriminate]. }
  exists d. unfold normalizeCashoutToUSD. cbn [truthy negb spread].
  get_set. rewrite Hda, Hdp. cbn [is_number is_undef orb bind].
  eexists. split; [exact Hf|]. split; [reflexivity|]. now get_set.
Qed.

(** A flattened payload with the number 12 as id, amountUSD 10 and
    payoutUSD 25, read while the provider is down: the cashout is read
    under the string "12". *)
Lemma client_usd_round_trip_witness :
  let b :=
    VObj [("id", int 12); ("accountId", VStr "u1");
          ("currency", VStr "LTC"); ("amount", int 1);
          ("amountUSD", int 10); ("payoutUSD", int 25)] in
  exists d out,
    List.filter (id_matches (VStr "12"))
      (cashouts (snd (ingest decimal_builtins true Flat b (Num.of_Z 1)
                        empty_db))) = [d]
    /\ normalizeCashoutToUSD decimal_builtins default_config (offline 9)
         (VObj d) idle = Returned (VObj out, idle)
    /\ get out "amount" = int 10
    /\ get out "payout" = int 25.
Proof.
  intros b.
  exact (client_usd_round_trip decimal_builtins true Flat b (Num.of_Z 1)
           empty_db default_config (offline 9) idle (Num.of_Z 10)
           (Num.of_Z 25) eq_refl eq_refl (le_0_n 1) eq_refl eq_refl).
Defined.

(** ** Pagination *)

Lemma ltb_leb (a b : number) : Num.ltb a b = true -> Num.leb a b = true.
Proof.
  unfold Num.ltb, Num.leb, SFltb, SFleb.
  now destruct (SFcompare a b) as [[]|].
Qed.

Lemma max_with_literal (k x : number) :
  Num.is_nan k = false -> Num.is_nzero k = false -> Num.leb k k = true ->
  Num.is_nan x = false ->
  Num.is_nan (Num.Math_max k x) = false
  /\ Num.leb k (Num.Math_max k x) = true.
Proof.
  intros Hk Hz Hkk Hx. unfold Num.Math_max. rewrite Hk, Hx, Hz.
  rewrite andb_false_r. cbn [orb].
  destruct (Num.ltb k x) eqn:Hlt; split; auto using ltb_leb.
Qed.

Lemma min_with_literal (k lo m : number) :
  Num.is_nan k = false -> Num.is_pzero k = false -> Num.leb k k = true ->
  Num.leb lo k = true ->
  Num.is_nan m = false -> Num.leb lo m = true ->
  Num.leb lo (Num.Math_min k m) = true
  /\ Num.leb (Num.Math_min k m) k = true.
Proof.
  intros Hk Hz Hkk Hlo Hm Hlm. unfold Num.Math_min. rewrite Hk, Hm, Hz.
  rewrite andb_false_r. cbn [orb].
  destruct (Num.ltb m k) eqn:Hlt; split; auto using ltb_leb.
Qed.

(** C8, the failing input: a [page] or [size] that does not start with a
    digit (["abc"], or the empty string of [?size=]) makes [parseInt]
    return [NaN], which [Math.max] and [Math.min] pass on, so the
    effective page and size are [NaN], neither at least 1 nor at most
    200 or 50. *)
Theorem non_numeric_page_is_NaN (B : Builtins) :
  page_of B (VStr "abc") = Num.nan
  /\ size_of B (VStr "abc") = Num.nan
  /\ size_of B (VStr "") = Num.nan
  /\ leaderboard_size_of B (VStr "abc") = Num.nan
  /\ Num.leb (Num.of_Z 1) (page_of B (VStr "abc")) = false
  /\ Num.leb (size_of B (VStr "abc")) (Num.of_Z 200) = false.
Proof. repeat split; reflexivity. Qed.

(** Whenever [parseInt] yields a Number other than [NaN], the effective
    page is at least 1, the effective size lies in [1, 200] and the
    leaderboard size in [1, 50]; [page=0] gives 1 and [size=500] gives
    200. *)
Theorem pagination_bounds (B : Builtins) (q : value) :
  (Num.is_nan (parseInt B (js_coalesce q (VStr "1"))) = false ->
   Num.leb (Num.of_Z 1) (page_of B q) = true)
  /\ (Num.is_nan (parseInt B (js_coalesce q (VStr "50"))) = false ->
      Num.leb (Num.of_Z 1) (size_of B q) = true
      /\ Num.leb (size_of B q) (Num.of_Z 200) = true)
  /\ (Num.is_nan (parseInt B (js_coalesce q (VStr "10"))) = false ->
      Num.leb (Num.of_Z 1) (leaderboard_size_of B q) = true
      /\ Num.leb (leaderboard_size_of B q) (Num.of_Z 50) = true)
  /\ page_of B (VStr "0") = Num.of_Z 1
  /\ size_of B (VStr "500") = Num.of_Z 200
  /\ leaderboard_size_of B (VStr "500") = Num.of_Z 50.
Proof.
  split; [|split; [|split; [|repeat split; reflexivity]]].
  - intros Hn. unfold page_of.
    now apply max_with_literal.
  - intros Hn. unfold size_of.
    destruct (max_with_literal (Num.of_Z 1) _ eq_refl eq_refl eq_refl Hn)
      as [Hm Hle].
    now apply min_with_literal.
  - intros Hn. unfold leaderboard_size_of.
    destruct (max_with_literal (Num.of_Z 1) _ eq_refl eq_refl eq_refl Hn)
      as [Hm Hle].
    now apply min_with_literal.
Qed.

(** ** Account summary *)









(** Crypto payouts 1, 2 and 3 in "ltc", captured in this order, no stored
    USD, and a rate of 10: the summary's [totalPayout] is 60. *)
Example summary_of_three_payouts :
  let db := replay [sample_payload "a" "LTC" 1; sample_payload "b" "LTC" 2;
                    sample_payload "c" "LTC" 3] in
  let E := provider 10 (VObj [("litecoin", VObj [("usd", int 10)])]) in
  capture_ordered (match_account (cashouts db) "u1") = true
  /\ recent_currency (match_account (cashouts db) "u1") = VStr "ltc"
  /\ exists totals st',
      summary decimal_builtins default_config E "u1" db idle
      = Returned (totals, st')
      /\ totalPayout totals = int 60
      /\ totalBets totals = int 3
      /\ outbound st' = [price_url default_config "litecoin"].
Proof.
  split; [reflexivity|]. split; [reflexivity|].
  eexists. eexists. repeat split; reflexivity.
Qed.


(** ** The API key guard *)

Lemma append_cons (c : ascii) (w r : string) :
  String c w ++ r = String c (w ++ r).
Proof. reflexivity. Qed.

Lemma append_empty (r : string) : "" ++ r = r.
Proof. reflexivity. Qed.

Lemma substring_prefix (w r : string) :
  substring 0 (String.length w) (w ++ r) = w.
Proof.
  induction w as [|c w IH]; rewrite ?append_cons, ?append_empty; cbn.
  - now destruct r.
  - now rewrite IH.
Qed.

Lemma substring_whole (s : string) : substring 0 (String.length s) s = s.
Proof. induction s as [|c s IH]; cbn; [reflexivity | now rewrite IH]. Qed.

Lemma substring_suffix (w r : string) :
  substring (String.length w)
    (String.length (w ++ r) - String.length w) (w ++ r) = r.
Proof.
  induction w as [|c w IH]; rewrite ?append_cons, ?append_empty;
    cbn [String.length substring].
  - rewrite Nat.sub_0_r. apply substring_whole.
  - exact IH.
Qed.

Lemma substring_split (n : nat) (s : string) :
  s = substring 0 n s ++ substring n (String.length s - n) s.
Proof.
  revert s. induction n as [|n IH]; intros s.
  - rewrite Nat.sub_0_r, substring_whole. now destruct s.
  - destruct s as [|c s]; [reflexivity|].
    cbn [substring String.length Nat.sub]. rewrite append_cons.
    f_equal. apply IH.
Qed.

Lemma toLowerCase_length (s : string) :
  String.length (toLowerCase s) = String.length s.
Proof. induction s as [|c s IH]; cbn; [reflexivity | now rewrite IH]. Qed.

Lemma skip_white_blank (sp t : string) :
  blank sp = true -> leading_white t = false -> skip_white (sp ++ t) = t.
Proof.
  intros Hb Ht.
  induction sp as [|c sp IH]; rewrite ?append_cons, ?append_empty;
    cbn [skip_white blank] in *.
  - destruct t as [|c t]; [reflexivity|].
    cbn [leading_white skip_white] in *. now rewrite Ht.
  - apply andb_prop in Hb as [-> Hb]. now apply IH.
Qed.

Lemma skip_white_split (s : string) :
  exists sp, blank sp = true /\ s = sp ++ skip_white s
             /\ leading_white (skip_white s) = false.
Proof.
  induction s as [|c s (sp & Hb & Hs & Hl)]; [now exists ""|].
  cbn [skip_white]. destruct (white c) eqn:Hc.
  - exists (String c sp). cbn [blank]. rewrite Hc, Hb.
    split; [reflexivity|]. rewrite append_cons.
    split; [now f_equal | exact Hl].
  - exists "". cbn [blank leading_white]. now rewrite Hc.
Qed.

Lemma strip_bearer_scheme (w sp k : string) :
  toLowerCase w = "bearer" -> sp <> "" -> blank sp = true ->
  leading_white k = false ->
  strip_bearer (w ++ sp ++ k) = k.
Proof.
  intros Hw Hsp Hb Hk.
  assert (Hlen : String.length w = 6%nat)
    by (now rewrite <- toLowerCase_length, Hw).
  unfold strip_bearer. rewrite <- Hlen at 1. rewrite substring_prefix, Hw.
  cbn [String.eqb Ascii.eqb Bool.eqb]. rewrite <- Hlen.
  rewrite substring_suffix.
  destruct sp as [|c sp]; [contradiction|]. rewrite append_cons.
  cbn [blank] in Hb. apply andb_prop in Hb as [-> Hb].
  now apply skip_white_blank.
Qed.

Lemma strip_bearer_cases (s : string) :
  strip_bearer s = s
  \/ exists w sp,
       toLowerCase w = "bearer" /\ sp <> "" /\ blank sp = true
       /\ leading_white (strip_bearer s) = false
       /\ s = w ++ sp ++ strip_bearer s.
Proof.
  unfold strip_bearer.
  destruct (String.eqb (toLowerCase (substring 0 6 s)) "bearer") eqn:Hw;
    [|now left].
  apply String.eqb_eq in Hw.
  pose proof (substring_split 6 s) as Hs.
  destruct (substring 6 (String.length s - 6) s) as [|c r] eqn:Hr;
    [now left|].
  destruct (white c) eqn:Hc; [|now left].
  right. destruct (skip_white_split r) as (sp & Hb & Hsp & Hl).
  exists (substring 0 6 s), (String c sp).
  split; [exact Hw|]. split; [discriminate|].
  split; [cbn [blank]; now rewrite Hc, Hb|]. split; [exact Hl|].
  rewrite Hs at 1. f_equal. rewrite append_cons. now f_equal.
Qed.

(** The guard lets a request through in exactly two cases: the header is
    the key itself, provided the key does not begin with a "Bearer"
    scheme of its own, or the header is "Bearer" in any case, at least one
    white space, and the key, provided the key does not begin with white
    space.  A request without the header is let through only when the key
    is the empty string. *)
Theorem api_key_guard_accepts (API_KEY : string) (h : option string) :
  (api_key_guard API_KEY h = None <->
   (default "" h = API_KEY /\ strip_bearer API_KEY = API_KEY)
   \/ (leading_white API_KEY = false
       /\ exists w sp,
            toLowerCase w = "bearer" /\ sp <> "" /\ blank sp = true
            /\ default "" h = w ++ sp ++ API_KEY))
  /\ (api_key_guard API_KEY None = None <-> API_KEY = "")
  /\ (api_key_guard API_KEY h = None
      \/ api_key_guard API_KEY h = Some (json_error 401 "Unauthorized")).
Proof.
  unfold api_key_guard. split; [|split].
  - destruct (String.eqb (strip_bearer (default "" h)) API_KEY) eqn:He.
    + apply String.eqb_eq in He. split; [intros _|reflexivity].
      destruct (strip_bearer_cases (default "" h))
        as [Hs | (w & sp & Hw & Hsp & Hb & Hl & Hh)].
      * left. rewrite Hs in He. split; [exact He|]. now rewrite <- He at 1 2.
      * right. rewrite He in Hl, Hh. split; [exact Hl|]. now exists w, sp.
    + apply String.eqb_neq in He. split; [discriminate|].
      intros [[Hh Hk] | (Hl & w & sp & Hw & Hsp & Hb & Hh)]; exfalso;
        apply He.
      * now rewrite Hh.
      * rewrite Hh. now apply strip_bearer_scheme.
  - cbn. destruct API_KEY; cbn; split; congruence.
  - destruct (String.eqb _ _); [now left | now right].
Qed.

(** ** The CORS origin check *)

Lemma split_commas_nonempty (s : string) : split_commas s <> [].
Proof.
  induction s as [|c s IH]; cbn [split_commas]; [discriminate|].
  destruct (Ascii.eqb c ","); [discriminate|].
  now destruct (split_commas s).
Qed.

Lemma split_commas_single (x : string) :
  comma_free x = true -> split_commas x = [x].
Proof.
  induction x as [|c x IH]; cbn [comma_free split_commas]; [reflexivity|].
  intros H. apply andb_prop in H as [Hc Hx].
  apply negb_true_iff in Hc. rewrite Hc, (IH Hx). reflexivity.
Qed.

Lemma split_commas_app (x r : string) :
  comma_free x = true ->
  split_commas (x ++ "," ++ r) = x :: split_commas r.
Proof.
  induction x as [|c x IH].
  - reflexivity.
  - rewrite append_cons. cbn [comma_free split_commas].
    intros H. apply andb_prop in H as [Hc Hx].
    apply negb_true_iff in Hc. rewrite Hc, (IH Hx). reflexivity.
Qed.

Lemma split_commas_join (l : list string) :
  l <> [] -> forallb comma_free l = true -> split_commas (join "," l) = l.
Proof.
  induction l as [|x l IH]; [contradiction|]. intros _ H.
  cbn [forallb] in H. apply andb_prop in H as [Hx Hl].
  destruct l as [|y l]; [now apply split_commas_single|].
  change (join "," (x :: y :: l)) with (x ++ "," ++ join "," (y :: l)).
  rewrite split_commas_app by exact Hx. f_equal. now apply IH.
Qed.

Lemma split_commas_comma_free (s : string) :
  forallb comma_free (split_commas s) = true.
Proof.
  induction s as [|c s IH]; cbn [split_commas]; [reflexivity|].
  destruct (Ascii.eqb c ",") eqn:Hc; [exact IH|].
  destruct (split_commas s) as [|p ps]; cbn [forallb comma_free] in *;
    rewrite Hc; [reflexivity|exact IH].
Qed.

Lemma skip_white_comma_free (s : string) :
  comma_free s = true -> comma_free (skip_white s) = true.
Proof.
  induction s as [|c s IH]; cbn [skip_white]; [easy|].
  intros H. destruct (white c); [|exact H].
  cbn [comma_free] in H. apply andb_prop in H as [_ H]. now apply IH.
Qed.

Lemma trim_end_comma_free (s : string) :
  comma_free s = true -> comma_free (trim_end s) = true.
Proof.
  induction s as [|c s IH]; cbn [trim_end comma_free]; [easy|].
  intros H. apply andb_prop in H as [Hc Hs].
  destruct (white c && String.eqb (trim_end s) ""); [reflexivity|].
  cbn [comma_free]. now rewrite Hc, IH.
Qed.

Lemma trim_end_idem (s : string) : trim_end (trim_end s) = trim_end s.
Proof.
  induction s as [|c s IH]; cbn [trim_end]; [reflexivity|].
  destruct (white c && String.eqb (trim_end s) "") eqn:H; [reflexivity|].
  cbn [trim_end]. now rewrite IH, H.
Qed.

Lemma skip_white_trim_end (s : string) :
  leading_white s = false -> skip_white (trim_end s) = trim_end s.
Proof.
  destruct s as [|c s]; [reflexivity|]. cbn [leading_white trim_end].
  intros Hc. rewrite Hc. cbn [andb skip_white]. now rewrite Hc.
Qed.

Lemma trim_idem (s : string) : trim (trim s) = trim s.
Proof.
  unfold trim. destruct (skip_white_split s) as (_ & _ & _ & Hl).
  rewrite skip_white_trim_end by exact Hl. apply trim_end_idem.
Qed.

Lemma origin_allowed_listed (A o : string) :
  A <> "*" -> o <> "" ->
  origin_allowed A (Some o) = true <-> In o (List.map trim (split_commas A)).
Proof.
  intros HA Ho. unfold origin_allowed.
  destruct o as [|c o]; [contradiction|].
  apply String.eqb_neq in HA. rewrite HA.
  rewrite existsb_exists. split.
  - intros (x & Hin & He). apply String.eqb_eq in He. now subst.
  - intros Hin. exists (String c o). split; [exact Hin|].
    apply String.eqb_refl.
Qed.

(** When the configuration is a list of entries joined by commas (no
    entry holds a comma, and the list is not the single wildcard), the
    origins let in are exactly the entries with the white space around
    them removed; the comparison is exact, also in case. *)
Theorem allowed_origins_are_the_entries (l : list string) (o : string) :
  l <> [] -> forallb comma_free l = true -> join "," l <> "*" -> o <> "" ->
  origin_allowed (join "," l) (Some o) = true <-> In o (List.map trim l).
Proof.
  intros Hl Hc Hw Ho.
  rewrite (origin_allowed_listed (join "," l) o Hw Ho).
  now rewrite split_commas_join.
Qed.

(** Two entries, the second one written with spaces around it. *)
Lemma allowed_origins_are_the_entries_witness :
  let l := ["https://a.example"; " https://b.example "] in
  origin_allowed (join "," l) (Some "https://b.example") = true.
Proof.
  intros l.
  apply (proj2 (allowed_origins_are_the_entries l "https://b.example"
                  ltac:(discriminate) eq_refl ltac:(discriminate)
                  ltac:(discriminate))).
  right. left. reflexivity.
Defined.

(** A request without an origin, or with an empty one, is always let in,
    and so is every origin under the wildcard.  Under any other
    configuration an origin that is let in is one of the entries, trimmed:
    it holds no comma and no white space at either end, so an origin with
    a comma or with white space around it is never let in. *)
Theorem listed_origin_is_exact (A o : string) :
  origin_allowed A None = true
  /\ origin_allowed A (Some "") = true
  /\ origin_allowed "*" (Some o) = true
  /\ (A <> "*" -> o <> "" -> origin_allowed A (Some o) = true ->
      comma_free o = true /\ trim o = o
      /\ exists e, In e (split_commas A) /\ o = trim e).
Proof.
  split; [reflexivity|]. split; [reflexivity|].
  split; [now destruct o|].
  intros HA Ho H. apply (origin_allowed_listed A o HA Ho) in H.
  apply List.in_map_iff in H as (e & <- & Hin).
  split; [|split; [apply trim_idem | now exists e]].
  unfold trim. apply trim_end_comma_free, skip_white_comma_free.
  pose proof (split_commas_comma_free A) as Hall.
  rewrite forallb_forall in Hall. now apply Hall.
Qed.

(** ** The leaderboard's account names *)


Lemma nameById_other (B : Builtins) (i : string) (accs : list obj) (o : obj) :
  (forall a, In a accs -> ToString B (get a "id") <> i) ->
  let enter := fun (o a : obj) =>
    set o (ToString B (get a "id")) (js_or (get a "name") (get a "id")) in
  get (fold_left enter accs o) i = get o i
  /\ has_key (fold_left enter accs o) i = has_key o i.
Proof.
  intros Hne enter. revert o Hne.
  induction accs as [|a accs IH]; intros o Hne; [easy|].
  cbn [fold_left].
  destruct (IH (enter o a)) as [Hg Hh];
    [intros x Hx; apply Hne; now right|].
  rewrite Hg, Hh. unfold enter.
  assert (Ha : ToString B (get a "id") <> i) by (apply Hne; now left).
  rewrite get_set_ne by exact Ha. rewrite has_key_set.
  apply String.eqb_neq in Ha. now rewrite Ha.
Qed.

Lemma nameById_at (B : Builtins) (i : string) (l1 l2 : list obj) (a : obj) :
  ToString B (get a "id") = i ->
  (forall x, In x l2 -> ToString B (get x "id") <> i) ->
  get (nameById B (l1 ++ a :: l2)) i = js_or (get a "name") (get a "id")
  /\ has_key (nameById B (l1 ++ a :: l2)) i = true.
Proof.
  intros Ha H2. unfold nameById.
  rewrite fold_left_app. cbn [fold_left].
  pose proof (fun o => nameById_other B i l2 o H2) as Hoth. cbv zeta in Hoth.
  rewrite (proj1 (Hoth _)), (proj2 (Hoth _)).
  rewrite Ha, get_set_eq, has_key_set, String.eqb_refl.
  split; reflexivity.
Qed.

Lemma accounts_in_member (ids : list value) (accs : list obj) (a : obj) :
  In a (accounts_in ids accs) <-> In a accs /\ In (get a "id") ids.
Proof.
  unfold accounts_in. rewrite List.filter_In, existsb_exists.
  split; intros [Ha H]; (split; [exact Ha|]).
  - destruct H as (k & Hk & Hm). unfold id_matches in Hm.
    apply value_eqb_eq in Hm. now rewrite Hm.
  - exists (get a "id"). split; [exact H|]. apply value_eqb_refl.
Qed.

Lemma accounts_in_count (ids : list value) (accs : list obj) (k : value) :
  (count_id k (accounts_in ids accs) <= count_id k accs)%nat.
Proof.
  unfold count_id, accounts_in.
  induction accs as [|a accs IH]; [reflexivity|].
  cbn [List.filter]. destruct (existsb _ ids); cbn [List.filter];
    destruct (id_matches k a); cbn [List.length]; lia.
Qed.

Lemma unique_split (k : value) (accs : list obj) (a : obj) :
  (count_id k accs <= 1)%nat -> In a accs -> get a "id" = k ->
  exists l1 l2,
    accs = (l1 ++ a :: l2)%list
    /\ forall x, In x l2 -> get x "id" <> k.
Proof.
  intros Hc Hin Ha. apply List.in_split in Hin as (l1 & l2 & ->).
  exists l1, l2. split; [reflexivity|]. intros x Hx Hxk.
  unfold count_id in Hc. rewrite List.filter_app in Hc.
  cbn [List.filter] in Hc. unfold id_matches at 2 in Hc.
  rewrite Ha, value_eqb_refl, List.length_app in Hc. cbn [List.length] in Hc.
  assert (Hx' : In x (List.filter (id_matches k) l2)).
  { apply List.filter_In. split; [exact Hx|]. unfold id_matches.
    rewrite Hxk. apply value_eqb_refl. }
  destruct (List.filter (id_matches k) l2); [contradiction|].
  cbn [List.length] in Hc. lia.
Qed.

(** The leaderboard keeps its rows, in their order, and adds to each the
    name of its account.  With string account ids and one account per id,
    a row whose account exists gets the account's name, or the id when
    the name is empty or [null]; a row whose account does not exist gets
    the id, unless the id is the name of a member of [Object.prototype]. *)
Theorem leaderboard_names_resolve (B : Builtins) (db : Db) (rows : list obj) :
  (forall k, (count_id k (accounts db) <= 1)%nat) ->
  (forall r, In r rows -> is_string (get r "accountId") = true) ->
  List.length (leaderboard_names B db rows) = List.length rows
  /\ forall (n : nat) (r : obj) (i : string),
      nth_error rows n = Some r ->
      get r "accountId" = VStr i ->
      (forall a, In a (accounts db) -> get a "id" = VStr i ->
         nth_error (leaderboard_names B db rows) n
         = Some (set r "accountName" (js_or (get a "name") (VStr i))))
      /\ ((forall a, In a (accounts db) -> get a "id" <> VStr i) ->
          assoc Object_prototype i = None ->
          nth_error (leaderboard_names B db rows) n
          = Some (set r "accountName" (VStr i))).
Proof.
  intros Huniq Hstr. unfold leaderboard_names, attach_names.
  split; [apply List.length_map|].
  intros n r i Hn Hi.
  set (accs := accounts_in _ _).
  assert (Hr : In r rows) by (eapply List.nth_error_In, Hn).
  assert (Hkeys : forall x, In x accs -> get x "id" <> VStr i ->
                            ToString B (get x "id") <> i).
  { intros x Hx Hne. apply accounts_in_member in Hx as [_ Hx].
    apply List.in_map_iff in Hx as (r' & Hr' & Hin').
    specialize (Hstr r' Hin'). rewrite Hr' in Hstr.
    destruct (get x "id"); try discriminate. cbn [ToString].
    congruence. }
  rewrite List.nth_error_map, Hn. cbn [option_map]. split.
  - intros a Ha Hid. do 2 f_equal. unfold accountName. rewrite Hi.
    cbn [ToString].
    assert (Hin : In a accs).
    { apply accounts_in_member. split; [exact Ha|]. rewrite Hid, <- Hi.
      exact (List.in_map (fun r => get r "accountId") rows r Hr). }
    destruct (unique_split (VStr i) accs a) as (l1 & l2 & Hsplit & Hl2);
      [etransitivity; [apply accounts_in_count | apply Huniq]
      | exact Hin | exact Hid |].
    destruct (nameById_at B i l1 l2 a) as [Hg Hh].
    + now rewrite Hid.
    + intros x Hx. apply Hkeys; [|now apply Hl2].
      rewrite Hsplit. apply List.in_or_app. right. now right.
    + rewrite Hsplit, Hh, Hg, Hid. unfold js_or, js_coalesce.
      destruct (truthy (get a "name")) eqn:Ht; [|reflexivity].
      now destruct (get a "name").
  - intros Hnone Hproto. do 2 f_equal. unfold accountName. rewrite Hi.
    cbn [ToString].
    assert (Hoth : forall x, In x accs -> ToString B (get x "id") <> i).
    { intros x Hx. apply Hkeys; [exact Hx|].
      apply Hnone. now apply accounts_in_member in Hx as [Hx _]. }
    pose proof (nameById_other B i accs [] Hoth) as [_ Hh]. cbv zeta in Hh.
    unfold nameById. rewrite Hh. cbn [has_key]. now rewrite Hproto.
Qed.

(** Three rows: the account of the first has a name, the account of the
    second has none, the third has no account. *)
Lemma leaderboard_names_resolve_witness :
  let db :=
    {| accounts := [ [("id", VStr "u1"); ("name", VStr "ann")];
                     [("id", VStr "u2"); ("name", VNull)] ];
       cashouts := [] |} in
  let rows :=
    [ [("accountId", VStr "u1")]; [("accountId", VStr "u2")];
      [("accountId", VStr "u3")] ] in
  let out := leaderboard_names decimal_builtins db rows in
  nth_error out 0 = Some [("accountId", VStr "u1"); ("accountName", VStr "ann")]
  /\ nth_error out 1
     = Some [("accountId", VStr "u2"); ("accountName", VStr "u2")]
  /\ nth_error out 2
     = Some [("accountId", VStr "u3"); ("accountName", VStr "u3")].
Proof.
  intros db rows out.
  assert (Huniq : forall k, (count_id k (accounts db) <= 1)%nat).
  { intros k. unfold count_id, id_matches. cbn [accounts db List.filter get].
    cbn [String.eqb Ascii.eqb Bool.eqb].
    destruct (value_eqb (VStr "u1") k) eqn:H1,
             (value_eqb (VStr "u2") k) eqn:H2; cbn [List.length]; try lia.
    apply value_eqb_eq in H1, H2. congruence. }
  assert (Hstr : forall r, In r rows -> is_string (get r "accountId") = true)
    by (intros r [<- | [<- | [<- | []]]]; reflexivity).
  destruct (leaderboard_names_resolve decimal_builtins db rows Huniq Hstr)
    as [_ H].
  split; [|split].
  - apply (proj1 (H 0%nat _ "u1" eq_refl eq_refl)
             [("id", VStr "u1"); ("name", VStr "ann")]);
      [now left | reflexivity].
  - apply (proj1 (H 1%nat _ "u2" eq_refl eq_refl)
             [("id", VStr "u2"); ("name", VNull)]);
      [right; now left | reflexivity].
  - apply (proj2 (H 2%nat _ "u3" eq_refl eq_refl)); [|reflexivity].
    intros a [<- | [<- | []]]; discriminate.
Defined.
